(** * Variable resolution and template validation: a shallow embedding

    The development follows the three TypeScript sources of the build
    scripts:

    - [helpers.ts]: the generator helpers, [processValue] and
      [processVariables];
    - the template validator ([TemplateValidator]: [validateHelper],
      [parseComposeServices], [validateTemplate], [validateTemplateDir],
      [validate]) and its command line ([TemplateCli]);
    - [validate-docker-compose.ts] ([DockerComposeValidator]) and its
      command line ([ComposeCli]).

    Conventions of the embedding.

    - A JavaScript string is a [string] of bytes, read as its UTF-8
      encoding.  The characters the code inspects ([$], [{], [}], [:],
      [=], [_], digits) are ASCII, so searching and slicing on bytes agree
      with the source; where the source measures a length it does so on
      ASCII text.
    - Numbers are the doubles with an integer value, [NaN] and the two
      infinities.  [Number.parseInt] gives the double nearest to the
      integer it reads ([Num.toDouble]), a number is printed in the
      shortest form that reads back as the same double
      ([Js.numberToString]), and [Math.random() * k] is the double
      nearest to the product.
    - The longest string has [0x1fffffe8] characters, as on V8:
      [toString] on a buffer and the concatenation of [generatePassword]
      throw past it.  The texts that [replace] builds from the strings of
      a descriptor are taken to fit.
    - An object used as a dictionary is the list of its own properties in
      property order.  The maps of the resolution engine are objects made
      by an object literal: a read [variables[name]] that finds no own
      property falls back on [Object.prototype] ([Helpers.read],
      [Obj.inherited]), and an assignment to [__proto__] stores nothing
      ([Obj.set]).  The tables of a parsed descriptor or manifest are
      read by their own properties ([Js.field]).
    - Randomness, the clock and the file system are explicit: a [World] is
      threaded through every effectful function, and functions that can
      throw return an [Outcome].  What the scripts print is not recorded. *)

From Stdlib Require Import List String Ascii ZArith NArith Lia Bool Arith.
From Stdlib Require Import Sorted.
From Stdlib Require Import Decimal DecimalString DecimalNat DecimalZ.
Import ListNotations.
Open Scope list_scope.
Open Scope string_scope.
Open Scope nat_scope.
Set Warnings "-register-all".

(** ** Strings *)

Module Str.

Definition code (c : ascii) : nat := nat_of_ascii c.

Definition isDigit (c : ascii) : bool :=
  (48 <=? code c) && (code c <=? 57).

(** [s.startsWith(p)] *)
Definition startsWith (s p : string) : bool := String.prefix p s.

Fixpoint rev (s : string) : string :=
  match s with
  | EmptyString => EmptyString
  | String c r => rev r ++ String c EmptyString
  end.

(** [s.endsWith(p)] *)
Definition endsWith (s p : string) : bool := startsWith (rev s) (rev p).

(** [s.includes(p)] *)
Fixpoint includes (s p : string) : bool :=
  startsWith s p ||
  match s with
  | EmptyString => false
  | String _ r => includes r p
  end.

(** [s.slice(n)] for an offset inside an ASCII prefix. *)
Fixpoint drop (n : nat) (s : string) : string :=
  match n, s with
  | O, _ => s
  | S _, EmptyString => EmptyString
  | S k, String _ r => drop k r
  end.

(** [s.slice(0, n)] on ASCII text. *)
Fixpoint take (n : nat) (s : string) : string :=
  match n, s with
  | O, _ => EmptyString
  | S _, EmptyString => EmptyString
  | S k, String c r => String c (take k r)
  end.

(** [s.slice(2, -1)] on ASCII-delimited text. *)
Definition dropLast (s : string) : string := rev (drop 1 (rev s)).

(** [s.split(sep)] for a one-character separator: the pieces, never an
    empty list. *)
Fixpoint split (sep : ascii) (s : string) : list string :=
  match s with
  | EmptyString => [EmptyString]
  | String c r =>
      if Ascii.eqb c sep then EmptyString :: split sep r
      else match split sep r with
           | [] => [String c EmptyString]
           | p :: ps => String c p :: ps
           end
  end.

(** [parts.join(sep)] *)
Fixpoint join (sep : string) (parts : list string) : string :=
  match parts with
  | [] => EmptyString
  | [p] => p
  | p :: ps => p ++ sep ++ join sep ps
  end.

(** [s.replace(/c/g, "")] for a single character [c]. *)
Fixpoint removeChar (c : ascii) (s : string) : string :=
  match s with
  | EmptyString => EmptyString
  | String a r =>
      if Ascii.eqb a c then removeChar c r else String a (removeChar c r)
  end.

(** [s.replace(/a/g, b)] for single characters. *)
Fixpoint mapChar (a b : ascii) (s : string) : string :=
  match s with
  | EmptyString => EmptyString
  | String c r =>
      String (if Ascii.eqb c a then b else c) (mapChar a b r)
  end.

(** The longest prefix of decimal digits and what follows it. *)
Fixpoint spanDigits (s : string) : string * string :=
  match s with
  | EmptyString => (EmptyString, EmptyString)
  | String c r =>
      if isDigit c
      then let '(d, t) := spanDigits r in (String c d, t)
      else (EmptyString, s)
  end.

(** Width in bytes of the white-space or line-terminator character at
    the head of [s] ([StrWhiteSpaceChar]), [0] when there is none. *)
Definition whiteSpaceWidth (s : string) : nat :=
  match s with
  | EmptyString => 0
  | String a r =>
      let a := code a in
      if (a =? 9) || (a =? 10) || (a =? 11) || (a =? 12) || (a =? 13)
         || (a =? 32) then 1
      else match r with
      | EmptyString => 0
      | String b r2 =>
          let b := code b in
          if (a =? 194) && (b =? 160) then 2
          else match r2 with
          | EmptyString => 0
          | String c _ =>
              let c := code c in
              if (a =? 225) && (b =? 154) && (c =? 128) then 3
              else if (a =? 226) && (b =? 128)
                      && ((128 <=? c) && (c <=? 138)
                          || (c =? 168) || (c =? 169) || (c =? 175))
              then 3
              else if (a =? 226) && (b =? 129) && (c =? 159) then 3
              else if (a =? 227) && (b =? 128) && (c =? 128) then 3
              else if (a =? 239) && (b =? 187) && (c =? 191) then 3
              else 0
          end
      end
  end.

(** The same test on a reversed string, for trimming at the end. *)
Definition whiteSpaceWidthRev (s : string) : nat :=
  match s with
  | EmptyString => 0
  | String a r =>
      if (code a =? 9) || (code a =? 10) || (code a =? 11)
         || (code a =? 12) || (code a =? 13) || (code a =? 32) then 1
      else match r with
      | EmptyString => 0
      | String b r2 =>
          if (code b =? 194) && (code a =? 160) then 2
          else match r2 with
          | EmptyString => 0
          | String c _ =>
              if whiteSpaceWidth
                   (String c (String b (String a EmptyString))) =? 3
              then 3 else 0
          end
      end
  end.

Fixpoint trimFrom (width : string -> nat) (skip : nat) (s : string)
  : string :=
  match s with
  | EmptyString => EmptyString
  | String _ r =>
      match skip with
      | S k => trimFrom width k r
      | O => match width s with
             | O => s
             | S w => trimFrom width w r
             end
      end
  end.

(** [s.trimStart()] and [s.trimEnd()] *)
Definition trimStart (s : string) : string := trimFrom whiteSpaceWidth 0 s.
Definition trimEnd (s : string) : string :=
  rev (trimFrom whiteSpaceWidthRev 0 (rev s)).

(** The longest string of the engine (V8 on a 64-bit host): making a
    longer one throws. *)
Definition maxLength : Z := 536870888.

Definition tooLong (s : string) : bool :=
  (maxLength <? Z.of_nat (String.length s))%Z.

(** The [length] of the JavaScript string whose UTF-8 encoding is [s]:
    one unit per code point, two for those outside the basic plane. *)
Fixpoint utf16Length (s : string) : nat :=
  match s with
  | EmptyString => 0
  | String c r =>
      (if (code c <? 128) || (192 <=? code c) then 1 else 0)
      + (if 240 <=? code c then 1 else 0)
      + utf16Length r
  end.

End Str.

(** ** Numbers *)

(** A JavaScript number that is an integer, [NaN] or an infinity.  The
    integers that occur are those a double holds: what [Num.toDouble]
    gives. *)
Inductive Number := NInt (z : Z) | NNaN | NPosInf | NNegInf.

Module Num.

(** [n.toString()] for an integer below [2^53] in absolute value, which
    is printed with all its digits. *)
Definition ofNat (n : nat) : string :=
  NilZero.string_of_uint (Nat.to_uint n).

Definition ofZ (z : Z) : string :=
  NilZero.string_of_int (Z.to_int z).

(** The value of a string of decimal digits. *)
Fixpoint digitsValueAcc (acc : Z) (s : string) : Z :=
  match s with
  | EmptyString => acc
  | String c r => digitsValueAcc (10 * acc + Z.of_nat (Str.code c - 48)) r
  end.

Definition digitsValue (s : string) : Z := digitsValueAcc 0 s.

(** A double has 53 significant bits: a natural number [x] is rounded to
    the nearest integer of that form, ties to the even significand. *)
Definition round53 (x : Z) : Z :=
  if (x <? 2 ^ 53)%Z then x
  else
    let shift := (Z.log2 x - 52)%Z in
    let q := (x / 2 ^ shift)%Z in
    let r := (x mod 2 ^ shift)%Z in
    let half := (2 ^ (shift - 1))%Z in
    let q := if (r <? half)%Z then q
             else if (half <? r)%Z then (q + 1)%Z
             else if Z.even q then q else (q + 1)%Z in
    (q * 2 ^ shift)%Z.

(** The double nearest to an integer: the conversion of a mathematical
    value to a Number, which overflows to an infinity from [2^1024]. *)
Definition toDouble (z : Z) : Number :=
  let m := round53 (Z.abs z) in
  if (m <? 2 ^ 1024)%Z then NInt (Z.sgn z * m)
  else if (0 <? z)%Z then NPosInf else NNegInf.

(** The integer [Number.parseInt(s, 10)] reads: white space is skipped,
    a sign is read, then the longest run of digits; [None] when there is
    no digit. *)
Definition readInt (s : string) : option Z :=
  let t := Str.trimStart s in
  let '(neg, u) :=
    match t with
    | String "-" r => (true, r)
    | String "+" r => (false, r)
    | _ => (false, t)
    end in
  match Str.spanDigits u with
  | (EmptyString, _) => None
  | (ds, _) => Some (if neg then (- digitsValue ds)%Z else digitsValue ds)
  end.

(** [Number.parseInt(s, 10)]: the integer read, as a double; [NaN] when
    there is none. *)
Definition parseInt (s : string) : Number :=
  match readInt s with
  | Some z => toDouble z
  | None => NNaN
  end.

(** [parseInt(s, 10) || d]: [NaN] and zero both give the default. *)
Definition parseIntOr (s : string) (d : Number) : Number :=
  match parseInt s with
  | NNaN => d
  | NInt z => if (z =? 0)%Z then d else NInt z
  | n => n
  end.

End Num.

(** ** Buffer encodings *)

Module Enc.

Definition hexAlphabet : string := "0123456789abcdef".
Definition base64Alphabet : string :=
  "ABCDEFGHIJKLMNOPQRSTUVWXYZabcdefghijklmnopqrstuvwxyz0123456789+/".
Definition base64urlAlphabet : string :=
  "ABCDEFGHIJKLMNOPQRSTUVWXYZabcdefghijklmnopqrstuvwxyz0123456789-_".

Definition charAt (alphabet : string) (i : nat) : string :=
  match String.get i alphabet with
  | Some c => String c EmptyString
  | None => EmptyString
  end.

(** [buf.toString("hex")] *)
Fixpoint hex (buf : string) : string :=
  match buf with
  | EmptyString => EmptyString
  | String c r =>
      charAt hexAlphabet (Str.code c / 16)
      ++ charAt hexAlphabet (Str.code c mod 16) ++ hex r
  end.

Fixpoint base64With (alphabet : string) (pad : bool) (buf : string)
  : string :=
  match buf with
  | EmptyString => EmptyString
  | String a EmptyString =>
      let a := Str.code a in
      charAt alphabet (a / 4) ++ charAt alphabet (a mod 4 * 16)
      ++ (if pad then "==" else "")
  | String a (String b EmptyString) =>
      let a := Str.code a in
      let b := Str.code b in
      charAt alphabet (a / 4)
      ++ charAt alphabet (a mod 4 * 16 + b / 16)
      ++ charAt alphabet (b mod 16 * 4)
      ++ (if pad then "=" else "")
  | String a (String b (String c r)) =>
      let a := Str.code a in
      let b := Str.code b in
      let c := Str.code c in
      charAt alphabet (a / 4)
      ++ charAt alphabet (a mod 4 * 16 + b / 16)
      ++ charAt alphabet (b mod 16 * 4 + c / 64)
      ++ charAt alphabet (c mod 64)
      ++ base64With alphabet pad r
  end.

(** [buf.toString("base64")] and [buf.toString("base64url")] *)
Definition base64 (buf : string) : string :=
  base64With base64Alphabet true buf.
Definition base64url (buf : string) : string :=
  base64With base64urlAlphabet false buf.

End Enc.

(** ** JavaScript values *)

Module Js.

(** The values a parsed TOML or YAML document is made of. *)
Inductive Val :=
| JUndefined
| JNull
| JBool (b : bool)
| JNum (n : Number)
| JStr (s : string)
| JArr (items : list Val)
| JObj (props : list (string * Val)).

(** Truthiness, as tested by [if (v)], [!v], [a && b] and [a || b]. *)
Definition truthy (v : Val) : bool :=
  match v with
  | JUndefined | JNull => false
  | JBool b => b
  | JNum (NInt z) => negb (z =? 0)%Z
  | JNum NNaN => false
  | JNum _ => true
  | JStr s => negb (String.eqb s "")
  | JArr _ | JObj _ => true
  end.

Definition nullish (v : Val) : bool :=
  match v with JUndefined | JNull => true | _ => false end.

Definition isString (v : Val) : bool :=
  match v with JStr _ => true | _ => false end.
Definition isArray (v : Val) : bool :=
  match v with JArr _ => true | _ => false end.
(** [typeof v === "object"]: objects, arrays and [null]. *)
Definition typeofObject (v : Val) : bool :=
  match v with JNull | JArr _ | JObj _ => true | _ => false end.
Definition isBoolean (v : Val) : bool :=
  match v with JBool _ => true | _ => false end.
Definition isNumber (v : Val) : bool :=
  match v with JNum _ => true | _ => false end.

(** [Number::toString] writes the shortest digits that read back as the
    same double.  For a double [m] and a number [k] of digits, [digitsAt]
    gives the [k]-digit integer [s] nearest to [m / 10^(n-k)] among those
    with [s * 10^(n-k)] rounding to [m], when there is one. *)
Definition digitsAt (m n k : Z) : option Z :=
  if (n <? k)%Z then None
  else
    let unit := (10 ^ (n - k))%Z in
    let lo := (m / unit)%Z in
    let hi := (lo + 1)%Z in
    let fits s :=
      ((10 ^ (k - 1) <=? s) && (s <? 10 ^ k)
       && (Num.round53 (s * unit) =? m))%Z in
    match fits lo, fits hi with
    | true, true =>
        Some (if (m - lo * unit <? hi * unit - m)%Z then lo
              else if (hi * unit - m <? m - lo * unit)%Z then hi
              else if Z.even lo then lo else hi)
    | true, false => Some lo
    | false, true => Some hi
    | false, false => None
    end.

(** The first [k] from [k] on, within [fuel] tries, that has digits. *)
Fixpoint shortestFrom (fuel : nat) (m n k : Z) : option (Z * Z * Z) :=
  match fuel with
  | O => None
  | S fuel' =>
      match digitsAt m n k, digitsAt m (n + 1) k with
      | Some s, _ => Some (s, n, k)
      | None, Some s => Some (s, (n + 1)%Z, k)
      | None, None => shortestFrom fuel' m n (k + 1)%Z
      end
  end.

(** The text of a positive double [m] of 54 bits or more: its digits
    followed by zeros up to 21 places, the exponent form beyond. *)
Definition largeToString (m : Z) : string :=
  match shortestFrom 17 m (Z.of_nat (String.length (Num.ofZ m))) 1 with
  | Some (s, n, k) =>
      if (n <=? 21)%Z
      then Num.ofZ s
           ++ string_of_list_ascii (repeat "0"%char (Z.to_nat (n - k)))
      else
        match Num.ofZ s with
        | String d EmptyString => String d EmptyString
        | String d ds => String d ("." ++ ds)
        | EmptyString => EmptyString
        end ++ "e+" ++ Num.ofZ (n - 1)
  | None => Num.ofZ m
  end.

Definition numberToString (n : Number) : string :=
  match n with
  | NInt z =>
      if (Z.abs z <? 2 ^ 53)%Z then Num.ofZ z
      else (if (z <? 0)%Z then "-" else "")
           ++ largeToString (Num.round53 (Z.abs z))
  | NNaN => "NaN"
  | NPosInf => "Infinity"
  | NNegInf => "-Infinity"
  end.

(** [String(v)], the conversion a template literal applies. *)
Fixpoint toStr (v : Val) : string :=
  match v with
  | JUndefined => "undefined"
  | JNull => "null"
  | JBool true => "true"
  | JBool false => "false"
  | JNum n => numberToString n
  | JStr s => s
  | JArr items =>
      Str.join ","
        (map (fun x => if nullish x then "" else toStr x) items)
  | JObj _ => "[object Object]"
  end.

(** Own property lookup on an object; other values have none of the
    named fields the validators read. *)
Fixpoint lookup {V : Type} (props : list (string * V)) (k : string)
  : option V :=
  match props with
  | [] => None
  | (k', v) :: rest => if String.eqb k' k then Some v else lookup rest k
  end.

Definition field (v : Val) (k : string) : Val :=
  match v with
  | JObj props => match lookup props k with Some x => x | None => JUndefined end
  | _ => JUndefined
  end.

Fixpoint indexFrom {A : Type} (i : nat) (l : list A) : list (nat * A) :=
  match l with
  | [] => []
  | x :: r => (i, x) :: indexFrom (S i) r
  end.

(** The UTF-16 units of a string, each given by the bytes of its code
    point (a code point outside the basic plane stands for both of its
    units).  The first component collects the continuation bytes met
    before the next lead byte. *)
Fixpoint unitsFrom (s : string) : string * list string :=
  match s with
  | EmptyString => (EmptyString, [])
  | String c r =>
      let '(k, us) := unitsFrom r in
      if (128 <=? Str.code c) && (Str.code c <? 192)
      then (String c k, us)
      else (EmptyString,
            (if 240 <=? Str.code c
             then [String c k; String c k] else [String c k]) ++ us)%list
  end.

Definition units (s : string) : list string := snd (unitsFrom s).

(** [Object.entries(v)] for a value that is not [null] or [undefined]. *)
Definition entries (v : Val) : list (string * Val) :=
  match v with
  | JObj props => props
  | JArr items =>
      map (fun '(i, x) => (Num.ofNat i, x)) (indexFrom 0 items)
  | JStr s =>
      map (fun '(i, u) => (Num.ofNat i, JStr u)) (indexFrom 0 (units s))
  | _ => []
  end.

(** [Object.keys(v)] *)
Definition keys (v : Val) : list string := map fst (entries v).

Definition quoteChar : ascii := ascii_of_nat 34.

Fixpoint escape (s : string) : string :=
  match s with
  | EmptyString => EmptyString
  | String c r =>
      let n := Str.code c in
      (if n =? 34 then "\" ++ String quoteChar EmptyString
       else if n =? 92 then "\\"
       else if n =? 8 then "\b"
       else if n =? 9 then "\t"
       else if n =? 10 then "\n"
       else if n =? 12 then "\f"
       else if n =? 13 then "\r"
       else if n <? 32 then "\u00" ++ Enc.hex (String c EmptyString)
       else String c EmptyString) ++ escape r
  end.

Definition quote (s : string) : string :=
  String quoteChar (escape s ++ String quoteChar EmptyString).

Fixpoint stringifyValue (v : Val) : string :=
  match v with
  | JUndefined | JNull => "null"
  | JBool true => "true"
  | JBool false => "false"
  | JNum (NInt z) => numberToString (NInt z)
  | JNum _ => "null"
  | JStr s => quote s
  | JArr items => "[" ++ Str.join "," (map stringifyValue items) ++ "]"
  | JObj props =>
      "{" ++ Str.join ","
               (flat_map (fun '(k, x) =>
                            match x with
                            | JUndefined => []
                            | _ => [quote k ++ ":" ++ stringifyValue x]
                            end) props) ++ "}"
  end.

(** [JSON.stringify(v)]; [None] is [undefined]. *)
Definition stringify (v : Val) : option string :=
  match v with
  | JUndefined => None
  | _ => Some (stringifyValue v)
  end.

End Js.

Import Js.

(** ** Objects as ordered property lists *)

Module Obj.

(** A key is an array index when it is the canonical decimal form of an
    integer below [2^32 - 1]; such keys are enumerated first, in
    ascending order. *)
Definition arrayIndex (k : string) : option Z :=
  match k with
  | EmptyString => None
  | String c r =>
      if forallb Str.isDigit (list_ascii_of_string k)
         && (negb (Ascii.eqb c "0") || String.eqb r "")
         && (Num.digitsValue k <? 4294967295)%Z
      then Some (Num.digitsValue k) else None
  end.

(** The names an object made by an object literal inherits from
    [Object.prototype]. *)
Definition prototypeNames : list string :=
  ["constructor"; "__defineGetter__"; "__defineSetter__"; "hasOwnProperty";
   "__lookupGetter__"; "__lookupSetter__"; "isPrototypeOf";
   "propertyIsEnumerable"; "toString"; "valueOf"; "__proto__";
   "toLocaleString"].

Definition inherited (k : string) : bool :=
  existsb (String.eqb k) prototypeNames.

(** [String(o[k])] for an inherited name: the text of a built-in
    function, and that of [Object.prototype] itself for [__proto__]. *)
Definition inheritedText (k : string) : string :=
  if String.eqb k "__proto__" then "[object Object]"
  else "function " ++ (if String.eqb k "constructor" then "Object" else k)
       ++ "() { [native code] }".

Section Props.
Context {V : Type}.

(** The own property [k], when there is one. *)
Definition get (o : list (string * V)) (k : string) : option V :=
  Js.lookup o k.

(** [delete o[k]] *)
Fixpoint remove (o : list (string * V)) (k : string)
  : list (string * V) :=
  match o with
  | [] => []
  | (k', v') :: rest =>
      if String.eqb k' k then remove rest k else (k', v') :: remove rest k
  end.

Fixpoint has (o : list (string * V)) (k : string) : bool :=
  match o with
  | [] => false
  | (k', _) :: rest => String.eqb k' k || has rest k
  end.

Fixpoint replace (o : list (string * V)) (k : string) (v : V)
  : list (string * V) :=
  match o with
  | [] => []
  | (k', v') :: rest =>
      if String.eqb k' k then (k', v) :: rest
      else (k', v') :: replace rest k v
  end.

(** Where a new index key [i] goes: after the index keys up to [i],
    before the first key that is a larger index or not an index. *)
Fixpoint insertIndex (o : list (string * V)) (i : Z) (k : string) (v : V)
  : list (string * V) :=
  match o with
  | [] => [(k, v)]
  | (k', v') :: rest =>
      match arrayIndex k' with
      | Some j =>
          if (j <=? i)%Z then (k', v') :: insertIndex rest i k v
          else (k, v) :: (k', v') :: rest
      | None => (k, v) :: (k', v') :: rest
      end
  end.

(** [o[k] = v] for a primitive [v], on an object made by an object
    literal: [__proto__] names the accessor of [Object.prototype], whose
    setter ignores a value that is not an object, so nothing is stored. *)
Definition set (o : list (string * V)) (k : string) (v : V)
  : list (string * V) :=
  if String.eqb k "__proto__" then o
  else if has o k then replace o k v
  else match arrayIndex k with
       | Some i => insertIndex o i k v
       | None => (o ++ [(k, v)])%list
       end.
End Props.

End Obj.

(** ** The runtime: built-ins, the world and the monad of effects *)

(** What can be thrown. *)
Inductive ErrKind :=
| SizeOutOfRange (size : Number)            (* [randomBytes(size)] *)
| StringTooLong                             (* [buf.toString(...)] past the longest string *)
| InvalidStringLength                       (* [s += c] past the longest string *)
| BufferFromInherited (name : string)       (* [Buffer.from(o[name])], [name] inherited *)
| ReadOfNullish (v : Val) (prop : string)   (* [null.prop], [undefined.prop] *)
| NotAFunction (callee : string)            (* [x.forEach(...)] on a non-array *)
| InOfPrimitive (v : Val)                   (* ["k" in v] on a primitive *)
| BufferFromUndefined.                      (* [Buffer.from(undefined)] *)

(** Built-ins of the host whose results the scripts only pass along. *)
Record Runtime := {
  dateParse : string -> option Z;      (* [new Date(s).getTime()], [None] is [NaN] *)
  jsonParse : string -> option Val;    (* [JSON.parse(s)], [None] when it throws *)
  stringToNumber : string -> Number;   (* [Number(s)] on a string *)
  toLowerCase : string -> string;      (* [s.toLowerCase()] *)
  errorMessage : ErrKind -> string     (* [e.message] *)
}.

(** The sources of randomness and time, with their read positions. *)
Record World := {
  entropy : nat -> ascii;    (* the bytes [randomBytes] hands out *)
  bytePos : nat;
  uniform : nat -> Z;        (* the draws of [Math.random], as numerators over 2^53 *)
  uniformPos : nat;
  clock : nat -> Z;          (* successive readings of [Date.now()] *)
  clockPos : nat
}.

(** How a computation ends: with a value, with an exception, or by
    [process.exit]; [X] is the type of exit codes, empty for code that
    cannot end the process. *)
Inductive Outcome (X St A : Type) :=
| Ok (a : A) (s : St)
| Throw (e : ErrKind) (s : St)
| Exit (code : X) (s : St).

Arguments Ok {X St A} a s.
Arguments Throw {X St A} e s.
Arguments Exit {X St A} code s.

Definition M (X St A : Type) : Type := St -> Outcome X St A.

Definition ret {X St A} (a : A) : M X St A := fun s => Ok a s.

Definition bind {X St A B} (m : M X St A) (k : A -> M X St B) : M X St B :=
  fun s =>
    match m s with
    | Ok a s' => k a s'
    | Throw e s' => Throw e s'
    | Exit c s' => Exit c s'
    end.

Definition throw {X St A} (e : ErrKind) : M X St A := fun s => Throw e s.

(** [try { m } catch (e) { handler e }] *)
Definition tryCatch {X St A} (m : M X St A) (handler : ErrKind -> M X St A)
  : M X St A :=
  fun s =>
    match m s with
    | Throw e s' => handler e s'
    | r => r
    end.

Declare Scope monad_scope.
Delimit Scope monad_scope with monad.
Notation "x <- m ;; k" := (bind m (fun x => k))
  (at level 61, m at next level, right associativity) : monad_scope.
Notation "m ;; k" := (bind m (fun _ => k))
  (at level 61, right associativity) : monad_scope.
Open Scope monad_scope.

(** [list.forEach((x, index) => f index x)] *)
Fixpoint forEachFrom {X St A} (i : nat) (f : nat -> A -> M X St unit)
         (l : list A) : M X St unit :=
  match l with
  | [] => ret tt
  | x :: r => f i x ;; forEachFrom (S i) f r
  end.

Definition forEach {X St A} (f : nat -> A -> M X St unit) (l : list A)
  : M X St unit :=
  forEachFrom 0 f l.

(** ** helpers.ts *)

Module Helpers.

Record Schema := { domain : option string }.

(** The resolution engine never ends the process. *)
Definition W := M Empty_set World.

(** [randomBytes(size)]: the next [size] bytes, or a [RangeError] when
    [size] is not an integer from 0 to 2^31 - 1. *)
Definition randomBytes (size : Number) : W string :=
  fun w =>
    match size with
    | NInt z =>
        if ((0 <=? z) && (z <=? 2147483647))%Z
        then Ok (string_of_list_ascii
                   (map (entropy w) (seq (bytePos w) (Z.to_nat z))))
                {| entropy := entropy w; bytePos := bytePos w + Z.to_nat z;
                   uniform := uniform w; uniformPos := uniformPos w;
                   clock := clock w; clockPos := clockPos w |}
        else Throw (SizeOutOfRange size) w
    | _ => Throw (SizeOutOfRange size) w
    end.

(** [buf.toString(encoding)]: the text of the bytes, or an error when it
    would be longer than the longest string. *)
Definition toString (encode : string -> string) (buf : string) : W string :=
  if Str.tooLong (encode buf) then throw StringTooLong
  else ret (encode buf).

(** [Math.floor(Math.random() * k)] for an integer [k] from 0 on:
    [Math.random()] is a multiple of 2^-53 below 1, and the product of
    two doubles is the double nearest to the exact product. *)
Definition randomBelow (k : Z) : W Z :=
  fun w =>
    Ok (Num.round53 ((uniform w (uniformPos w) mod 9007199254740992) * k)
        / 9007199254740992)%Z
       {| entropy := entropy w; bytePos := bytePos w;
          uniform := uniform w; uniformPos := S (uniformPos w);
          clock := clock w; clockPos := clockPos w |}.

(** [Date.now()] *)
Definition dateNow : W Z :=
  fun w =>
    Ok (clock w (clockPos w))
       {| entropy := entropy w; bytePos := bytePos w;
          uniform := uniform w; uniformPos := uniformPos w;
          clock := clock w; clockPos := S (clockPos w) |}.

(** [crypto.randomUUID()]: sixteen random bytes with the version and
    variant bits set. *)
Definition setBits (keep set : nat) (c : ascii) : ascii :=
  ascii_of_nat (Str.code c mod keep + set).

Definition randomUUID : W string :=
  b <- randomBytes (NInt 16) ;;
  let h (from len : nat) := Enc.hex (Str.take len (Str.drop from b)) in
  let b6 :=
    match String.get 6 b with
    | Some c => String (setBits 16 64 c) EmptyString
    | None => EmptyString
    end in
  let b8 :=
    match String.get 8 b with
    | Some c => String (setBits 64 128 c) EmptyString
    | None => EmptyString
    end in
  ret (h 0 4 ++ "-" ++ h 4 2 ++ "-" ++ Enc.hex b6 ++ h 7 1 ++ "-"
       ++ Enc.hex b8 ++ h 9 1 ++ "-" ++ h 10 6).

(** [Math.round(ms / 1000)] on an integer number of milliseconds. *)
Definition roundSeconds (ms : Z) : Z := ((ms + 500) / 1000)%Z.

Definition generateRandomDomain (schema : Schema) : W string :=
  random <- randomBytes (NInt 8) ;;
  random <- toString Enc.hex random ;;
  ret (match domain schema with
       | Some d => if String.eqb d "" then "app-" ++ random ++ ".example.com"
                   else d
       | None => "app-" ++ random ++ ".example.com"
       end).

Definition generateBase64 (length : Number) : W string :=
  bytes <- randomBytes length ;;
  toString Enc.base64 bytes.

Definition charset : string :=
  "abcdefghijklmnopqrstuvwxyzABCDEFGHIJKLMNOPQRSTUVWXYZ0123456789!@#$%^&*".

(** The [for] loop of [generatePassword], with [n] iterations left;
    [password += c] throws when the text would be longer than the longest
    string. *)
Fixpoint passwordLoop (n : nat) (password : string) : W string :=
  match n with
  | O => ret password
  | S k =>
      i <- randomBelow (Z.of_nat (String.length charset)) ;;
      let password := password ++ Enc.charAt charset (Z.to_nat i) in
      if Str.tooLong password then throw InvalidStringLength
      else passwordLoop k password
  end.

(** How often [i < length] holds for [i] from 0 on, as far as the loop
    can get: never for [NaN], and with no end for [Infinity], where the
    loop stops at the first text that is too long. *)
Definition iterations (length : Number) : nat :=
  match length with
  | NInt z => Z.to_nat z
  | NPosInf => Z.to_nat (Str.maxLength + 1)
  | NNaN | NNegInf => 0
  end.

Definition generatePassword (length : Number) : W string :=
  passwordLoop (iterations length) "".

Definition generateHash (length : Number) : W string :=
  bytes <- randomBytes length ;;
  toString Enc.hex bytes.

Definition jwtHeader : Val :=
  JObj [("alg", JStr "HS256"); ("typ", JStr "JWT")].

Definition bufferFromJson (v : Val) : W string :=
  match Js.stringify v with
  | Some s => ret s
  | None => throw BufferFromUndefined
  end.

(** What [options.secret] can be: nothing, a text, or what a map gives
    for a name it only inherits (a built-in function, or
    [Object.prototype] itself), which [Buffer.from] refuses. *)
Inductive Secret :=
| NoSecret
| SecretText (s : string)
| SecretInherited (name : string).

(** The token of [generateJwt] when no legacy length is given. *)
Definition jwtToken (secret : Secret) (payload : Val) : W string :=
  let payload := if truthy payload then payload else JObj [] in
  secret <- match secret with
            | SecretText s =>
                if String.eqb s ""
                then s' <- generatePassword (NInt 32) ;; ret (SecretText s')
                else ret secret
            | NoSecret =>
                s' <- generatePassword (NInt 32) ;; ret (SecretText s')
            | SecretInherited _ => ret secret
            end ;;
  header <- (json <- bufferFromJson jwtHeader ;;
             toString Enc.base64url json) ;;
  body <- (json <- bufferFromJson payload ;; toString Enc.base64url json) ;;
  signature <- match secret with
               | SecretText s =>
                   text <- toString Enc.base64url s ;; ret (Str.take 32 text)
               | SecretInherited name => throw (BufferFromInherited name)
               | NoSecret => throw BufferFromUndefined
               end ;;
  ret (header ++ "." ++ body ++ "." ++ signature).

(** [generateJwt(options)]; an absent option is [None], an absent
    payload is [undefined]. *)
Definition generateJwt (length : option Number) (secret : Secret)
           (payload : Val) : W string :=
  match length with
  | Some l =>
      if truthy (JNum l)
      then bytes <- randomBytes l ;; toString Enc.hex bytes
      else jwtToken secret payload
  | None => jwtToken secret payload
  end.

(** *** The substitution scan *)

(** The text up to the first closing brace, when there is one. *)
Fixpoint untilBrace (s : string) : option string :=
  match s with
  | EmptyString => None
  | String c r =>
      if Ascii.eqb c "}" then Some EmptyString
      else option_map (String c) (untilBrace r)
  end.

(** A match of [/\${([^}]+)}/] at the head of [s]: the captured body. *)
Definition matchExpr (s : string) : option string :=
  match s with
  | String c (String d r) =>
      if Ascii.eqb c "$" && Ascii.eqb d "{" then
        match untilBrace r with
        | Some (String b body) => Some (String b body)
        | _ => None
        end
      else None
  | _ => None
  end.

Definition exprText (body : string) : string := "${" ++ body ++ "}".

(** [s.replace(/\${([^}]+)}/g, callback)]: at each position, left to
    right, a match is replaced by what the callback returns and the scan
    resumes after it; [skip] counts the characters of the current match
    still to pass over. *)
Fixpoint replaceFrom {X St} (callback : string -> string -> M X St string)
         (skip : nat) (s : string) : M X St string :=
  match s with
  | EmptyString => ret EmptyString
  | String c r =>
      match skip with
      | S k => replaceFrom callback k r
      | O =>
          match matchExpr s with
          | Some body =>
              out <- callback (exprText body) body ;;
              rest <- replaceFrom callback (String.length body + 2) r ;;
              ret (out ++ rest)
          | None =>
              rest <- replaceFrom callback 0 r ;;
              ret (String c rest)
          end
      end
  end.

Definition replaceAll {X St} (callback : string -> string -> M X St string)
           (s : string) : M X St string :=
  replaceFrom callback 0 s.

(** [value.includes("${")] and the unresolved expressions
    [value.match(/\${([^}]+)}/g)]. *)
Fixpoint matchesFrom (skip : nat) (s : string) : list string :=
  match s with
  | EmptyString => []
  | String c r =>
      match skip with
      | S k => matchesFrom k r
      | O =>
          match matchExpr s with
          | Some body => body :: matchesFrom (String.length body + 2) r
          | None => matchesFrom 0 r
          end
      end
  end.

(** The bodies of all expressions of [s], in order. *)
Definition expressions (s : string) : list string := matchesFrom 0 s.

(** *** processValue *)

Definition Vars := list (string * string).

(** [variables[name]] on a map made by an object literal: the own
    property, or else what [Object.prototype] has under that name. *)
Inductive Read :=
| Own (v : string)
| Inherited
| Missing.

Definition read (variables : Vars) (name : string) : Read :=
  match Obj.get variables name with
  | Some v => Own v
  | None => if Obj.inherited name then Inherited else Missing
  end.

(** [variables[name] || fallback], as the text the [replace] puts in
    place of the expression: an inherited value is truthy and is written
    as [String] renders it. *)
Definition lookupOr (variables : Vars) (name fallback : string) : string :=
  match read variables name with
  | Own v => if String.eqb v "" then fallback else v
  | Inherited => Obj.inheritedText name
  | Missing => fallback
  end.

Definition adjectives : list string :=
  ["cool"; "smart"; "fast"; "quick"; "super"; "mega"].
Definition nouns : list string :=
  ["user"; "admin"; "dev"; "test"; "demo"; "guest"].
Definition domains : list string :=
  ["example.com"; "test.com"; "demo.org"].

(** [list[Math.floor(Math.random() * list.length)]] *)
Definition pick (l : list string) : W string :=
  i <- randomBelow (Z.of_nat (List.length l)) ;;
  ret (nth (Z.to_nat i) l "undefined").

(** [/^\d{1,3}$/] *)
Definition digits1to3 (s : string) : bool :=
  forallb Str.isDigit (list_ascii_of_string s)
  && (1 <=? String.length s) && (String.length s <=? 3).

(** [params.length === 1 && params[0] && params[0].match(/^\d{1,3}$/)]:
    the legacy form [jwt:<length>]. *)
Definition legacyForm (params : list string) : bool :=
  (List.length params =? 1) && negb (String.eqb (nth 0 params "") "")
  && digits1to3 (nth 0 params "").

Section WithRuntime.
Context (rt : Runtime).

(** [new Date(text).getTime()] rendered by [toString()], after
    [convert] where it is a number. *)
Definition dateString (convert : Z -> Z) (text : string) : string :=
  match dateParse rt text with
  | Some ms => Num.ofZ (convert ms)
  | None => "NaN"
  end.

(** The second parameter of [jwt:...] as the branch holds it: nothing,
    a text, or what the map gives for a name it only inherits. *)
Inductive Payload :=
| NoPayload
| PayloadText (s : string)
| PayloadInherited (name : string).

(** [typeof payload === "object"]: of the inherited values only that of
    [__proto__], which is [Object.prototype], is an object; the others
    are functions. *)
Definition payloadIsObject (payload : Payload) : bool :=
  match payload with
  | PayloadInherited name => String.eqb name "__proto__"
  | _ => false
  end.

(** The branch of the callback for [jwt:...]. *)
Definition jwtWithParams (variables : Vars) (varName : string)
  : W string :=
  let params := tl (Str.split ":" varName) in
  if legacyForm params
  then generateJwt (Some (Num.parseInt (nth 0 params ""))) NoSecret
         JUndefined
  else
    let secret := nth_error params 0 in
    let payload :=
      match nth_error params 1 with
      | Some p => PayloadText p
      | None => NoPayload
      end in
    (* [if (typeof payload === "string" && variables[payload])] *)
    let payload :=
      match payload with
      | PayloadText p =>
          match read variables p with
          | Own v => if String.eqb v "" then payload else PayloadText v
          | Inherited => PayloadInherited p
          | Missing => payload
          end
      | _ => payload
      end in
    let parsedPayload := JUndefined in
    (* the guarded [JSON.parse] inside [try] *)
    let parsedPayload :=
      match payload with
      | PayloadText text =>
          if Str.startsWith (Str.trimStart text) "{"
             && Str.endsWith (Str.trimEnd text) "}"
          then match jsonParse rt text with
               | Some v => v
               | None => JUndefined
               end
          else parsedPayload
      | _ => parsedPayload
      end in
    (* [if (typeof payload !== "object" || payload === null)]: only
       [Object.prototype], which has no property that [JSON.stringify]
       writes, is an object here *)
    let parsedPayload :=
      if negb (payloadIsObject payload) then JUndefined else JObj [] in
    generateJwt None
      (match secret with
       | Some sec =>
           if String.eqb sec "" then NoSecret
           else match read variables sec with
                | Own v =>
                    if String.eqb v "" then SecretText sec else SecretText v
                | Inherited => SecretInherited sec
                | Missing => SecretText sec
                end
       | None => NoSecret
       end)
      parsedPayload.

(** The callback of the first [replace] of [processValue]; [self] is
    [processValue] itself, called by the [email] branch. *)
Definition resolveHelperWith
           (self : string -> Vars -> Schema -> W string)
           (variables : Vars) (schema : Schema)
           (match_ varName : string) : W string :=
  if String.eqb varName "domain" then generateRandomDomain schema
  else if String.eqb varName "base64" then generateBase64 (NInt 32)
  else if Str.startsWith varName "base64:" then
    generateBase64
      (Num.parseIntOr (nth 1 (Str.split ":" varName) "") (NInt 32))
  else if Str.startsWith varName "password:" then
    generatePassword
      (Num.parseIntOr (nth 1 (Str.split ":" varName) "") (NInt 16))
  else if String.eqb varName "password" then generatePassword (NInt 16)
  else if Str.startsWith varName "hash:" then
    generateHash
      (Num.parseIntOr (nth 1 (Str.split ":" varName) "") (NInt 8))
  else if String.eqb varName "hash" then generateHash (NInt 8)
  else if String.eqb varName "uuid" then randomUUID
  else if String.eqb varName "timestamp"
          || String.eqb varName "timestampms" then
    now <- dateNow ;; ret (Num.ofZ now)
  else if String.eqb varName "timestamps" then
    now <- dateNow ;; ret (Num.ofZ (roundSeconds now))
  else if Str.startsWith varName "timestampms:" then
    ret (dateString (fun ms => ms) (Str.drop 12 varName))
  else if Str.startsWith varName "timestamps:" then
    ret (dateString roundSeconds (Str.drop 11 varName))
  else if String.eqb varName "randomPort" then
    port <- randomBelow 65535 ;; ret (Num.ofZ port)
  else if String.eqb varName "jwt" then generateJwt None NoSecret JUndefined
  else if Str.startsWith varName "jwt:" then
    jwtWithParams variables varName
  else if String.eqb varName "username" then
    adj <- pick adjectives ;;
    noun <- pick nouns ;;
    num <- randomBelow 1000 ;;
    ret (toLowerCase rt (adj ++ noun ++ Num.ofZ num))
  else if String.eqb varName "email" then
    username <- self "${username}" variables schema ;;
    domain <- pick domains ;;
    ret (toLowerCase rt (username ++ "@" ++ domain))
  else ret (lookupOr variables varName match_).

(** The callback of the second [replace]. *)
Definition resolveVariable (variables : Vars) (match_ varName : string)
  : W string :=
  ret (lookupOr variables varName match_).

Definition processValueWith
           (self : string -> Vars -> Schema -> W string)
           (value : string) (variables : Vars) (schema : Schema)
  : W string :=
  if String.eqb value "" then ret value
  else
    processedValue <-
      replaceAll (resolveHelperWith self variables schema) value ;;
    replaceAll (resolveVariable variables) processedValue.

(** [processValue] calls itself only from the [email] branch, on the
    constant ["${username}"], whose own resolution makes no further
    call: two levels of unfolding are the whole recursion. *)
Fixpoint processValueDepth (depth : nat)
         (value : string) (variables : Vars) (schema : Schema)
  : W string :=
  match depth with
  | O => ret value
  | S d => processValueWith (processValueDepth d) value variables schema
  end.

Definition processValue : string -> Vars -> Schema -> W string :=
  processValueDepth 2.

(** The callback as [processValue] uses it. *)
Definition resolveHelper : Vars -> Schema -> string -> string -> W string :=
  resolveHelperWith (processValueDepth 1).

(** *** processVariables *)

(** [value.match(/\${<tag>:(\d+)}/)?.[1]]: the digits of the first
    place in [value] where [prefix] is followed by digits and a
    closing brace. *)
Fixpoint searchLength (prefix value : string) : option string :=
  let here :=
    if Str.startsWith value prefix then
      match Str.spanDigits (Str.drop (String.length prefix) value) with
      | (String d ds, String "}" _) => Some (String d ds)
      | _ => None
      end
    else None in
  match here with
  | Some ds => Some ds
  | None =>
      match value with
      | EmptyString => None
      | String _ r => searchLength prefix r
      end
  end.

(** [match?.[1] ? Number.parseInt(match[1], 10) : fallback] *)
Definition lengthOr (prefix value : string) (fallback : Number) : Number :=
  match searchLength prefix value with
  | Some ds => if String.eqb ds "" then fallback else Num.parseInt ds
  | None => fallback
  end.

(** The body of the first loop, for one entry. *)
Definition pass1Entry (schema : Schema) (processed : Vars)
           (entry : string * Val) : W Vars :=
  let '(key, value) := entry in
  match value with
  | JStr value =>
      if String.eqb value "${domain}" then
        v <- generateRandomDomain schema ;; ret (Obj.set processed key v)
      else if Str.startsWith value "${base64:" then
        v <- generateBase64 (lengthOr "${base64:" value (NInt 32)) ;;
        ret (Obj.set processed key v)
      else if Str.startsWith value "${password:" then
        v <- generatePassword (lengthOr "${password:" value (NInt 16)) ;;
        ret (Obj.set processed key v)
      else if String.eqb value "${hash}" then
        v <- generateHash (NInt 8) ;; ret (Obj.set processed key v)
      else if Str.startsWith value "${hash:" then
        v <- generateHash (lengthOr "${hash:" value (NInt 8)) ;;
        ret (Obj.set processed key v)
      else ret (Obj.set processed key value)
  | _ => ret processed
  end.

(** First pass: the loop over [Object.entries(variables)]. *)
Fixpoint pass1Loop (schema : Schema) (entries : list (string * Val))
         (processed : Vars) : W Vars :=
  match entries with
  | [] => ret processed
  | e :: rest =>
      processed <- pass1Entry schema processed e ;;
      pass1Loop schema rest processed
  end.

Definition pass1 (variables : list (string * Val)) (schema : Schema)
  : W Vars :=
  pass1Loop schema variables [].

(** Second pass: the loop over the entries [processed] had when the
    loop began; each value is resolved against the map as it is now. *)
Fixpoint pass2Loop (schema : Schema) (entries : Vars) (processed : Vars)
  : W Vars :=
  match entries with
  | [] => ret processed
  | (key, value) :: rest =>
      v <- processValue value processed schema ;;
      pass2Loop schema rest (Obj.set processed key v)
  end.

Definition pass2 (processed : Vars) (schema : Schema) : W Vars :=
  pass2Loop schema processed processed.

(** [processVariables(variables, schema)], on the entries of
    [variables]. *)
Definition processVariables (variables : list (string * Val))
           (schema : Schema) : W Vars :=
  processed <- pass1 variables schema ;;
  pass2 processed schema.

End WithRuntime.

End Helpers.

(** ** The validators *)

(** The state of a validator instance: its two message lists, with the
    world the resolution engine draws from.  Console output is not
    recorded. *)
Record VState := {
  world : World;
  errors : list string;
  warnings : list string
}.

Record ValidationResult := {
  valid : bool;
  resultErrors : list string;
  resultWarnings : list string
}.

(** What reading and parsing a file gives. *)
Inductive File :=
| Missing                        (* [fs.existsSync] is false *)
| Unparsable (message : string)  (* reading or parsing throws *)
| Parsed (v : Val).

Definition V := M Z VState.

(** [this.errors.push(message)] and [this.warnings.push(message)] *)
Definition error (message : string) : V unit :=
  fun st =>
    Ok tt {| world := world st; errors := (errors st ++ [message])%list;
             warnings := warnings st |}.

Definition warning (message : string) : V unit :=
  fun st =>
    Ok tt {| world := world st; errors := errors st;
             warnings := (warnings st ++ [message])%list |}.

Definition getState : V VState := fun st => Ok st st.

(** [process.exit(code)] *)
Definition exit {A} (code : Z) : V A := fun st => Exit code st.

(** A computation of the resolution engine, run on the validator's world. *)
Definition liftW {A} (m : Helpers.W A) : V A :=
  fun st =>
    let rebuild w :=
      {| world := w; errors := errors st; warnings := warnings st |} in
    match m (world st) with
    | Ok a w => Ok a (rebuild w)
    | Throw e w => Throw e (rebuild w)
    | Exit c _ => match c with end
    end.

(** [v.name], which throws on [null] and [undefined]. *)
Definition getField (v : Val) (name : string) : V Val :=
  if nullish v then throw (ReadOfNullish v name) else ret (Js.field v name).

Definition when (b : bool) (m : V unit) : V unit := if b then m else ret tt.

(** [this.error(message); return false;] *)
Definition failWith (message : string) : V bool :=
  error message ;; ret false.

Definition noErrors : V bool :=
  st <- getState ;; ret (match errors st with [] => true | _ => false end).

Definition report (valid : bool) : V ValidationResult :=
  st <- getState ;;
  ret {| valid := valid; resultErrors := errors st;
         resultWarnings := warnings st |}.

(** *** The template validator *)

Module TemplateValidator.

Record Options := {
  templateDir : option string;
  verbose : bool;
  exitOnError : bool
}.

(** A template directory as the validator sees it. *)
Record Dir := {
  templatePath : string;
  composePath : string;
  templateFile : File;
  composeFile : File
}.

Definition validHelpers : list string :=
  ["domain"; "base64"; "password"; "hash"; "uuid"; "timestamp";
   "timestampms"; "timestamps"; "randomPort"; "jwt"; "username"; "email"].

Definition isValidHelper (name : string) : bool :=
  existsb (String.eqb name) validHelpers.

Section WithRuntime.
Context (rt : Runtime).

(** [Number(v)] *)
Definition toNumber (v : Val) : Number :=
  match v with
  | JUndefined => NNaN
  | JNull => NInt 0
  | JBool b => NInt (if b then 1 else 0)
  | JNum n => n
  | JStr s => stringToNumber rt s
  | JArr _ | JObj _ => stringToNumber rt (Js.toStr v)
  end.

(** [isNaN(n) || n < 1 || n > 65535] *)
Definition badPort (n : Number) : bool :=
  match n with
  | NInt z => (z <? 1)%Z || (65535 <? z)%Z
  | _ => true
  end.

Definition validateHelper (helper context : string) : V unit :=
  if Str.includes helper ":" then
    let helperName := hd "" (Str.split ":" helper) in
    let params := tl (Str.split ":" helper) in
    if negb (isValidHelper helperName) then ret tt
    else if String.eqb helperName "base64"
            || String.eqb helperName "password"
            || String.eqb helperName "hash" then
      let param := nth 0 params "" in
      when (negb (String.eqb param "")
            && match Num.parseInt param with NNaN => true | _ => false end)
           (warning (context ++ ": helper '" ++ helper
                     ++ "' has invalid parameter (should be a number)"))
    else if String.eqb helperName "timestampms"
            || String.eqb helperName "timestamps" then
      let datetime := Str.join ":" params in
      when (negb (String.eqb datetime "")
            && match dateParse rt datetime with None => true | _ => false end)
           (warning (context ++ ": helper '" ++ helper
                     ++ "' has invalid datetime format"))
    else ret tt
  else ret tt.

Definition parseComposeServices (composePath : string) (file : File)
  : V (list string) :=
  match file with
  | Missing =>
      warning ("docker-compose.yml not found at " ++ composePath) ;;
      ret []
  | Unparsable message =>
      error ("Failed to parse docker-compose.yml at " ++ composePath
             ++ ": " ++ message) ;;
      ret []
  | Parsed compose =>
      if negb (truthy compose) || negb (typeofObject compose) then
        error ("Invalid docker-compose.yml structure at " ++ composePath) ;;
        ret []
      else
        let services :=
          if truthy (Js.field compose "services")
          then Js.field compose "services" else JObj [] in
        let serviceNames := Js.keys services in
        when (List.length serviceNames =? 0)
             (warning ("No services found in docker-compose.yml at "
                       ++ composePath)) ;;
        ret serviceNames
  end.

Definition serviceNotFound (index : nat) (serviceName : Val)
           (composeServices : list string) : string :=
  "domain[" ++ Num.ofNat index ++ "]: serviceName '"
  ++ Js.toStr serviceName
  ++ "' not found in docker-compose.yml services. Available services: "
  ++ Str.join ", " composeServices.

(** [composeServices.includes(v)] *)
Definition includesVal (l : list string) (v : Val) : bool :=
  match v with
  | JStr s => existsb (String.eqb s) l
  | _ => false
  end.

(** The callback of [data.config.domains.forEach]. *)
Definition checkDomain (composeServices : option (list string))
           (index : nat) (domain : Val) : V unit :=
  let at_ := "domain[" ++ Num.ofNat index ++ "]" in
  serviceName <- getField domain "serviceName" ;;
  when (negb (truthy serviceName))
       (error (at_ ++ ": Missing required field 'serviceName'")) ;;
  let port := Js.field domain "port" in
  when (nullish port)
       (error (at_ ++ ": Missing required field 'port'")) ;;
  match composeServices with
  | Some services =>
      when (truthy serviceName && (0 <? List.length services)
            && negb (includesVal services serviceName))
           (error (serviceNotFound index serviceName services))
  | None => ret tt
  end ;;
  when (negb (nullish port)
        && badPort
             match port with
             | JStr p => Num.parseInt (Str.removeChar "_" p)
             | _ => toNumber port
             end)
       (warning (at_ ++ ": port '" ++ Js.toStr port
                 ++ "' may be invalid (should be 1-65535)")) ;;
  match Js.field domain "host" with
  | JStr host =>
      if String.eqb host "" then ret tt
      else if negb (Str.includes host "${") then
        warning (at_ ++ ": host '" ++ host
                 ++ "' doesn't use variable syntax (e.g., ${main_domain} or ${domain})")
      else
        forEach (fun _ helper => validateHelper helper (at_ ++ ".host"))
                (Helpers.expressions host)
  | _ => ret tt
  end.

(** The callback of [data.config.env.forEach]. *)
Definition checkEnvEntry (index : nat) (env : Val) : V unit :=
  let at_ := "config.env[" ++ Num.ofNat index ++ "]" in
  match env with
  | JStr s =>
      when (negb (Str.includes s "="))
           (warning (at_ ++ ": '" ++ s
                     ++ "' doesn't follow KEY=VALUE format"))
  | JArr _ | JObj _ =>
      when (List.length (Js.keys env) =? 0)
           (warning (at_ ++ ": empty object"))
  | JBool _ | JNum _ => ret tt
  | JUndefined | JNull =>
      error (at_ ++ ": must be a string, object, boolean, or number")
  end.

Definition checkEnv (env : Val) : V unit :=
  match env with
  | JUndefined => ret tt
  | JArr items => forEach checkEnvEntry items
  | JObj _ =>
      when (List.length (Js.keys env) =? 0)
           (warning "config.env is an empty object")
  | _ =>
      error "config.env must be an array or an object (as per Dokploy's processEnvVars)"
  end.

(** The callback of [data.config.mounts.forEach]. *)
Definition checkMount (index : nat) (mount : Val) : V unit :=
  let at_ := "config.mounts[" ++ Num.ofNat index ++ "]" in
  filePath <- getField mount "filePath" ;;
  (if negb (truthy filePath) then
     error (at_ ++ ": Missing required field 'filePath'")
   else
     when (negb (isString filePath))
          (error (at_ ++ ": filePath must be a string"))) ;;
  match Js.field mount "content" with
  | JUndefined => error (at_ ++ ": Missing required field 'content'")
  | JStr _ => ret tt
  | _ => error (at_ ++ ": content must be a string")
  end.

Definition checkMounts (mounts : Val) : V unit :=
  if truthy mounts then
    match mounts with
    | JArr items => forEach checkMount items
    | _ => error "config.mounts must be an array"
    end
  else ret tt.

(** The callback over [Object.entries(data.variables)]. *)
Definition checkVariable (entry : string * Val) : V unit :=
  let '(key, value) := entry in
  match value with
  | JStr text =>
      forEach (fun _ helper =>
                 validateHelper helper ("variables." ++ key))
              (Helpers.expressions text)
  | _ => error ("variables." ++ key ++ ": must be a string")
  end.

(** [value.forEach(...)] on a value that is an array only if the
    document says so. *)
Definition forEachVal (callee : string) (f : nat -> Val -> V unit)
           (v : Val) : V unit :=
  match v with
  | JArr items => forEach f items
  | _ => throw (NotAFunction callee)
  end.

(** [processValue(text, processedVars, schema)] under its own [try],
    with a warning for what is left unresolved or thrown. *)
Definition tryResolve (text : string) (processedVars : Helpers.Vars)
           (unresolved : string -> string) (threw : string -> string)
  : V unit :=
  tryCatch
    (processed <-
       liftW (Helpers.processValue rt text processedVars
                {| Helpers.domain := None |}) ;;
     when (Str.includes processed "${") (warning (unresolved processed)))
    (fun e => warning (threw (errorMessage rt e))).

(** The block that resolves the variables and re-resolves every
    field against them: the body of the inner [try]. *)
Definition resolveAll (variables config : Val) : V unit :=
  processedVars <-
    liftW (Helpers.processVariables rt (Js.entries variables)
             {| Helpers.domain := None |}) ;;
  forEach
    (fun _ '(key, value) =>
       when (Str.includes value "${")
            (forEach
               (fun _ varName =>
                  when (negb (truthy (Js.field variables varName))
                        && negb (Str.includes varName ":"))
                       (warning ("variables." ++ key
                                 ++ ": contains unresolved variable reference '"
                                 ++ Helpers.exprText varName ++ "'")))
               (Helpers.expressions value)))
    processedVars ;;
  when (truthy (Js.field config "domains"))
       (forEachVal "data.config.domains.forEach"
          (fun index domain =>
             host <- getField domain "host" ;;
             match host with
             | JStr host =>
                 when (negb (String.eqb host ""))
                   (tryResolve host processedVars
                      (fun processedHost =>
                         "domain[" ++ Num.ofNat index
                         ++ "].host: could not fully resolve all variables. Result: "
                         ++ processedHost)
                      (fun message =>
                         "domain[" ++ Num.ofNat index
                         ++ "].host: error processing host value: "
                         ++ message))
             | _ => ret tt
             end)
          (Js.field config "domains")) ;;
  (let env := Js.field config "env" in
   when (truthy env)
     match env with
     | JArr items =>
         forEach
           (fun index env =>
              match env with
              | JStr text =>
                  tryResolve text processedVars
                    (fun _ =>
                       "config.env[" ++ Num.ofNat index
                       ++ "]: could not fully resolve all variables")
                    (fun message =>
                       "config.env[" ++ Num.ofNat index
                       ++ "]: error processing env value: " ++ message)
              | _ => ret tt
              end)
           items
     | JObj props =>
         forEach
           (fun _ '(key, value) =>
              match value with
              | JStr text =>
                  tryResolve text processedVars
                    (fun _ =>
                       "config.env." ++ key
                       ++ ": could not fully resolve all variables")
                    (fun message =>
                       "config.env." ++ key
                       ++ ": error processing env value: " ++ message)
              | _ => ret tt
              end)
           props
     | _ => ret tt
     end) ;;
  when (truthy (Js.field config "mounts"))
       (forEachVal "data.config.mounts.forEach"
          (fun index mount =>
             filePath <- getField mount "filePath" ;;
             match filePath with
             | JStr text =>
                 when (negb (String.eqb text ""))
                   (tryResolve text processedVars
                      (fun _ =>
                         "config.mounts[" ++ Num.ofNat index
                         ++ "].filePath: could not fully resolve all variables")
                      (fun message =>
                         "config.mounts[" ++ Num.ofNat index
                         ++ "].filePath: error processing filePath: "
                         ++ message))
             | _ => ret tt
             end ;;
             match Js.field mount "content" with
             | JStr text =>
                 when (negb (String.eqb text ""))
                   (tryResolve text processedVars
                      (fun _ =>
                         "config.mounts[" ++ Num.ofNat index
                         ++ "].content: could not fully resolve all variables")
                      (fun message =>
                         "config.mounts[" ++ Num.ofNat index
                         ++ "].content: error processing content: "
                         ++ message))
             | _ => ret tt
             end)
          (Js.field config "mounts")).

Definition checkVariables (variables config : Val) : V unit :=
  if truthy variables then
    if negb (typeofObject variables) || isArray variables then
      error "variables must be an object"
    else
      forEach (fun _ => checkVariable) (Js.entries variables) ;;
      tryCatch (resolveAll variables config)
               (fun e =>
                  error ("Failed to process variables: "
                         ++ errorMessage rt e))
  else ret tt.

(** The body of the outer [try], once the file has been parsed. *)
Definition validateData (data : Val)
           (composeServices : option (list string)) : V bool :=
  config <- getField data "config" ;;
  if negb (truthy config) then
    failWith "Missing [config] section in template.toml"
  else
    let domains := Js.field config "domains" in
    if truthy domains && negb (isArray domains) then
      failWith "config.domains must be an array"
    else
      (if truthy domains
       then forEachVal "data.config.domains.forEach"
              (checkDomain composeServices) domains
       else warning "No domains configured in template.toml") ;;
      checkEnv (Js.field config "env") ;;
      checkMounts (Js.field config "mounts") ;;
      checkVariables (Js.field data "variables") config ;;
      noErrors.

Definition validateTemplate (tomlPath : string) (file : File)
           (composeServices : option (list string)) : V bool :=
  tryCatch
    match file with
    | Missing => failWith ("template.toml not found at " ++ tomlPath)
    | Unparsable message =>
        failWith ("Invalid TOML syntax in " ++ tomlPath ++ ": " ++ message)
    | Parsed data => validateData data composeServices
    end
    (fun e =>
       failWith ("Error validating template.toml: " ++ errorMessage rt e)).

(** The summary printed between the validation and the report reads the
    file again only to print it, and ignores what that throws. *)
Definition validateTemplateDir (dir : Dir) : V ValidationResult :=
  composeServices <-
    parseComposeServices (composePath dir) (composeFile dir) ;;
  isValid <-
    validateTemplate (templatePath dir) (templateFile dir)
                     (Some composeServices) ;;
  noError <- noErrors ;;
  report (isValid && noError).

(** [validate()]; [fs] is the view of the file system: the directory a
    path resolves to. *)
Definition validate (options : Options) (fs : string -> Dir)
  : V ValidationResult :=
  match templateDir options with
  | Some (String c d) =>
      result <- validateTemplateDir (fs (String c d)) ;;
      if negb (valid result) && exitOnError options then exit 1
      else ret result
  | _ =>
      error "templateDir option is required" ;;
      if exitOnError options then exit 1
      else report false
  end.

End WithRuntime.

End TemplateValidator.

(** *** The docker-compose validator *)

Module DockerComposeValidator.

Record Options := {
  composePath : option string;
  verbose : bool;
  exitOnError : bool
}.

Section WithRuntime.
Context (rt : Runtime).

(** [parseCompose]: the document, or [None] for [null]. *)
Definition parseCompose (composePath : string) (file : File)
  : V (option Val) :=
  match file with
  | Missing =>
      error ("docker-compose.yml not found at " ++ composePath) ;;
      ret None
  | Unparsable message =>
      error ("Failed to parse docker-compose.yml: " ++ message) ;;
      ret None
  | Parsed compose =>
      if negb (truthy compose) || negb (typeofObject compose) then
        error ("Invalid docker-compose.yml structure at " ++ composePath) ;;
        ret None
      else ret (Some compose)
  end.

Definition validateDockerComposeSyntax (composePath : string)
           (file : File) : V bool :=
  compose <- parseCompose composePath file ;;
  ret (match compose with Some _ => true | None => false end).

(** A loop over [Object.entries(services)]. *)
Definition forEachService (f : string -> Val -> V unit) (services : Val)
  : V unit :=
  forEach (fun _ '(serviceName, service) => f serviceName service)
          (Js.entries services).

Definition validateNoContainerName (services : Val) : V unit :=
  forEachService
    (fun serviceName service =>
       containerName <- getField service "container_name" ;;
       when (truthy containerName)
            (error ("Service '" ++ serviceName
                    ++ "': Found 'container_name' field. According to README, container_name should not be used. Dokploy manages container names automatically.")))
    services.

Definition usesDokployNetwork (serviceName : string) : string :=
  "Service '" ++ serviceName
  ++ "': Uses 'dokploy-network'. Dokploy creates networks automatically, explicit networks are not needed.".

Definition usesExplicitNetwork (serviceName : string) : string :=
  "Service '" ++ serviceName
  ++ "': Uses explicit network configuration. Dokploy creates networks automatically, explicit networks are not needed.".

Definition validateNoExplicitNetworks (compose services : Val) : V unit :=
  let networks := Js.field compose "networks" in
  hasDokployNetwork <-
    (if truthy networks then
       match networks with
       | JObj props => ret (Obj.has props "dokploy-network")
       | JArr _ => ret false
       | _ => throw (InOfPrimitive networks)
       end
     else ret false) ;;
  forEachService
    (fun serviceName service =>
       serviceNetworks <- getField service "networks" ;;
       when (truthy serviceNetworks)
         match serviceNetworks with
         | JObj props =>
             let networkNames := Js.keys serviceNetworks in
             if existsb (String.eqb "dokploy-network") networkNames then
               error (usesDokployNetwork serviceName)
             else
               when (0 <? List.length networkNames)
                    (error (usesExplicitNetwork serviceName))
         | JArr items =>
             if existsb (fun x => match x with
                                  | JStr s => String.eqb s "dokploy-network"
                                  | _ => false
                                  end) items then
               error (usesDokployNetwork serviceName)
             else
               when (0 <? List.length items)
                    (error (usesExplicitNetwork serviceName))
         | _ => ret tt
         end)
    services ;;
  when hasDokployNetwork
       (error "Found 'dokploy-network' in networks section. Dokploy creates networks automatically, explicit networks are not needed.") ;;
  when (truthy networks && (0 <? List.length (Js.keys networks)))
       (error "Found explicit networks section. Dokploy creates networks automatically, explicit networks are not needed.").

(** [/^\d+:\d+/.test(port)] *)
Definition portMapping (port : string) : bool :=
  match Str.spanDigits port with
  | (String _ _, String ":" (String d _)) => Str.isDigit d
  | _ => false
  end.

Definition validatePortsFormat (services : Val) : V unit :=
  forEachService
    (fun serviceName service =>
       ports <- getField service "ports" ;;
       when (truthy ports)
         match ports with
         | JArr items =>
             forEach
               (fun index port =>
                  match port with
                  | JStr p =>
                      when (portMapping p)
                           (error ("Service '" ++ serviceName ++ "': ports["
                                   ++ Num.ofNat index
                                   ++ "] uses port mapping format '" ++ p
                                   ++ "'. According to README, use only port number (e.g., '3000') instead of '3000:3000'. Dokploy handles port routing."))
                  | JArr _ | JObj _ =>
                      when (truthy (Js.field port "published")
                            && truthy (Js.field port "target"))
                           (error ("Service '" ++ serviceName ++ "': ports["
                                   ++ Num.ofNat index
                                   ++ "] uses port mapping (published: "
                                   ++ Js.toStr (Js.field port "published")
                                   ++ ", target: "
                                   ++ Js.toStr (Js.field port "target")
                                   ++ "). According to README, use only port number. Dokploy handles port routing."))
                  | _ => ret tt
                  end)
               items
         | _ => throw (NotAFunction "service.ports.forEach")
         end)
    services.

Definition validateServicesExist (compose : Val) : V bool :=
  let services := Js.field compose "services" in
  if negb (truthy services) || (List.length (Js.keys services) =? 0) then
    failWith "No services found in docker-compose.yml"
  else ret true.

Definition validateServiceNames (services : Val) : V unit :=
  forEach
    (fun _ serviceName =>
       when (negb (String.eqb serviceName (toLowerCase rt serviceName)))
            (warning ("Service '" ++ serviceName
                      ++ "': Service names should be lowercase. Consider using '"
                      ++ toLowerCase rt serviceName ++ "'.")) ;;
       when (Str.includes serviceName "_")
            (warning ("Service '" ++ serviceName
                      ++ "': Service names should use hyphens instead of underscores. Consider using '"
                      ++ Str.mapChar "_" "-" serviceName ++ "'.")))
    (Js.keys services).

(** [if (this.options.exitOnError) process.exit(1); return { valid:
    false, ... }] *)
Definition giveUp (options : Options) : V ValidationResult :=
  if exitOnError options then exit 1 else report false.

(** [validate()]; [fs] gives the file found at a path. *)
Definition validate (options : Options) (fs : string -> File)
  : V ValidationResult :=
  match composePath options with
  | Some (String c p) =>
      let composePath := String c p in
      syntaxOk <- validateDockerComposeSyntax composePath (fs composePath) ;;
      if negb syntaxOk then giveUp options
      else
        compose <- parseCompose composePath (fs composePath) ;;
        match compose with
        | None => giveUp options
        | Some compose =>
            servicesExist <- validateServicesExist compose ;;
            if negb servicesExist then giveUp options
            else
              let services :=
                if truthy (Js.field compose "services")
                then Js.field compose "services" else JObj [] in
              validateNoContainerName services ;;
              validateNoExplicitNetworks compose services ;;
              validatePortsFormat services ;;
              validateServiceNames services ;;
              valid <- noErrors ;;
              if negb valid && exitOnError options then exit 1
              else report valid
        end
  | _ =>
      error "composePath option is required" ;;
      giveUp options
  end.

End WithRuntime.

End DockerComposeValidator.

(** *** The command lines *)

(** The loop over [process.argv.slice(2)] that both scripts share: the
    value of the path option ([long] or [short]), the verbose flag, or
    [None] when help is asked for and the process exits with status 0.  A
    path option takes the next argument, and [undefined] when there is
    none. *)
Fixpoint parseArgs (long short : string) (args : list string)
         (path : option string) (verbose : bool)
  : option (option string * bool) :=
  match args with
  | [] => Some (path, verbose)
  | arg :: rest =>
      if String.eqb arg long || String.eqb arg short then
        match rest with
        | value :: rest' => parseArgs long short rest' (Some value) verbose
        | [] => Some (None, verbose)
        end
      else if String.eqb arg "--verbose" || String.eqb arg "-v" then
        parseArgs long short rest path true
      else if String.eqb arg "--help" || String.eqb arg "-h" then None
      else parseArgs long short rest path verbose
  end.

(** A validator instance as [new] makes it. *)
Definition freshInstance (w : World) : VState :=
  {| world := w; errors := []; warnings := [] |}.

(** [process.exit(result.valid ? 0 : 1)] *)
Definition exitWith (result : ValidationResult) : V unit :=
  exit (if valid result then 0 else 1)%Z.

Module TemplateCli.

(** The script run as a program, on the arguments [args]. *)
Definition main (rt : Runtime) (args : list string)
           (fs : string -> TemplateValidator.Dir) (w : World)
  : Outcome Z VState unit :=
  match parseArgs "--dir" "-d" args None false with
  | None => Exit 0%Z (freshInstance w)
  | Some (Some (String c d), verbose) =>
      (result <-
         TemplateValidator.validate rt
           {| TemplateValidator.templateDir := Some (String c d);
              TemplateValidator.verbose := verbose;
              TemplateValidator.exitOnError := true |} fs ;;
       exitWith result) (freshInstance w)
  | Some (_, _) => Exit 1%Z (freshInstance w)
  end.

End TemplateCli.

Module ComposeCli.

Definition main (rt : Runtime) (args : list string)
           (fs : string -> File) (w : World)
  : Outcome Z VState unit :=
  match parseArgs "--file" "-f" args None false with
  | None => Exit 0%Z (freshInstance w)
  | Some (Some (String c p), verbose) =>
      (result <-
         DockerComposeValidator.validate rt
           {| DockerComposeValidator.composePath := Some (String c p);
              DockerComposeValidator.verbose := verbose;
              DockerComposeValidator.exitOnError := true |} fs ;;
       exitWith result) (freshInstance w)
  | Some (_, _) => Exit 1%Z (freshInstance w)
  end.

End ComposeCli.

(** ** A concrete runtime and world, for running the model *)

Module Demo.

Definition lowerAscii (s : string) : string :=
  string_of_list_ascii
    (map (fun c => if (65 <=? Str.code c) && (Str.code c <=? 90)
                   then ascii_of_nat (Str.code c + 32) else c)
         (list_ascii_of_string s)).

(** A runtime whose JSON parser knows one document. *)
Definition rt : Runtime :=
  {| dateParse := fun _ => None;
     jsonParse := fun s =>
       if String.eqb s (Js.stringifyValue (JObj [("role", JStr "admin")]))
       then Some (JObj [("role", JStr "admin")]) else None;
     stringToNumber := fun _ => NNaN;
     toLowerCase := lowerAscii;
     errorMessage := fun e =>
       match e with
       | SizeOutOfRange _ => "The value of size is out of range."
       | StringTooLong => "Cannot create a string longer than 0x1fffffe8 characters"
       | InvalidStringLength => "Invalid string length"
       | BufferFromInherited name =>
           "The first argument must be of type string or an instance of Buffer, ArrayBuffer, or Array or an Array-like Object. Received "
           ++ (if String.eqb name "__proto__" then "an instance of Object"
               else if String.eqb name "constructor" then "function Object"
               else "function " ++ name)
       | ReadOfNullish _ _ => "Cannot read properties of null"
       | NotAFunction callee => callee ++ " is not a function"
       | InOfPrimitive _ => "Cannot use 'in' operator"
       | BufferFromUndefined => "The first argument must be of type string"
       end |}.

Definition w0 : World :=
  {| entropy := fun i => ascii_of_nat (i * 37 + 11);
     bytePos := 0;
     uniform := fun i =>
       (Z.of_nat i * 2654435761987654321 + 6364136223846793005)%Z;
     uniformPos := 0;
     clock := fun i => (Z.of_nat i + 1700000000000)%Z;
     clockPos := 0 |}.

Definition schema : Helpers.Schema := {| Helpers.domain := None |}.

(** The JSON text of an object with one member. *)
Definition claims : Val := JObj [("role", JStr "admin")].
Definition claimsText : string := Js.stringifyValue claims.

Definition st0 : VState :=
  {| world := w0; errors := []; warnings := [] |}.

(** A descriptor with one domain declaration, for the service [name]. *)
Definition descriptor (name : string) : Val :=
  JObj [("variables", JObj [("main_domain", JStr "${domain}")]);
        ("config",
         JObj [("domains",
                JArr [JObj [("serviceName", JStr name);
                            ("port", JNum (NInt 3000));
                            ("host", JStr "${main_domain}")]]);
               ("env", JArr [JStr "PORT=3000"]);
               ("mounts", JArr [])])].

(** A template directory holding that descriptor and a manifest with
    the given services. *)
Definition directory (name : string) (services : list (string * Val))
  : TemplateValidator.Dir :=
  {| TemplateValidator.templatePath := "blueprints/app/template.toml";
     TemplateValidator.composePath := "blueprints/app/docker-compose.yml";
     TemplateValidator.templateFile := Parsed (descriptor name);
     TemplateValidator.composeFile :=
       Parsed (JObj [("services", JObj services)]) |}.

Definition image : Val := JObj [("image", JStr "x")].

End Demo.

(** ** Vocabulary of the statements *)

(** The tag of an expression body: what stands before its first colon. *)
Definition tagOf (body : string) : string := hd "" (Str.split ":" body).

(** The tag is one of the twelve helper names. *)
Definition recognizedTag (body : string) : bool :=
  TemplateValidator.isValidHelper (tagOf body).

(** [body] can stand between the braces of an expression: it is not empty
    and holds no closing brace. *)
Definition expressionBody (body : string) : Prop :=
  Helpers.matchExpr (Helpers.exprText body) = Some body.

(** The value the first pass of [processVariables] stores for a string
    [value]: the branches of the loop body, without the assignment. *)
Definition pass1Value (schema : Helpers.Schema) (value : string)
  : Helpers.W string :=
  if String.eqb value "${domain}" then Helpers.generateRandomDomain schema
  else if Str.startsWith value "${base64:" then
    Helpers.generateBase64 (Helpers.lengthOr "${base64:" value (NInt 32))
  else if Str.startsWith value "${password:" then
    Helpers.generatePassword
      (Helpers.lengthOr "${password:" value (NInt 16))
  else if String.eqb value "${hash}" then Helpers.generateHash (NInt 8)
  else if Str.startsWith value "${hash:" then
    Helpers.generateHash (Helpers.lengthOr "${hash:" value (NInt 8))
  else ret value.

(** The keys of a property list. *)
Definition keysOf {T} (o : list (string * T)) : list string := map fst o.

(** A resolved map, given again as the entries of an input object. *)
Definition asEntries (o : Helpers.Vars) : list (string * Val) :=
  map (fun '(k, v) => (k, JStr v)) o.

(** A non-empty run of decimal digits: what [\d+] matches. *)
Definition digitString (ds : string) : Prop :=
  ds <> "" /\ forallb Str.isDigit (list_ascii_of_string ds) = true.

(** The next [n] bytes of the entropy source, and the world once they
    are taken. *)
Definition nextBytes (w : World) (n : nat) : string :=
  string_of_list_ascii (map (entropy w) (seq (bytePos w) n)).

Definition takeBytes (w : World) (n : nat) : World :=
  {| entropy := entropy w; bytePos := bytePos w + n;
     uniform := uniform w; uniformPos := uniformPos w;
     clock := clock w; clockPos := clockPos w |}.

(** Every character of [s] is a character of [alphabet]. *)
Definition drawnFrom (alphabet s : string) : Prop :=
  Forall (fun c => In c (list_ascii_of_string alphabet))
         (list_ascii_of_string s).

(** A size [randomBytes] accepts. *)
Definition sizeInRange (size : Number) : bool :=
  match size with
  | NInt z => ((0 <=? z) && (z <=? 2147483647))%Z
  | _ => false
  end.

(** The values no branch of the first pass applies to. *)
Definition untouchedByPass1 (value : string) : bool :=
  negb (String.eqb value "${domain}")
  && negb (Str.startsWith value "${base64:")
  && negb (Str.startsWith value "${password:")
  && negb (String.eqb value "${hash}")
  && negb (Str.startsWith value "${hash:").

(** A string without an opening brace. *)
Fixpoint noOpenBrace (s : string) : bool :=
  match s with
  | EmptyString => true
  | String c r => negb (Ascii.eqb c "{") && noOpenBrace r
  end.

(** A value the resolution engine has nothing left to do with: it holds
    no expression, and no branch of the first pass applies to it. *)
Definition settled (value : string) : Prop :=
  Helpers.expressions value = [] /\ untouchedByPass1 value = true.

(** The order in which the keys of an object are enumerated: array
    indices first, in ascending order, then the other keys. *)
Definition keyOrder (a b : string) : Prop :=
  match Obj.arrayIndex a, Obj.arrayIndex b with
  | Some i, Some j => (i <= j)%Z
  | Some _, None => True
  | None, None => True
  | None, Some _ => False
  end.

(** A property list as an object built by assignments has it: no key
    twice, keys in enumeration order, and no key [__proto__]. *)
Definition Canonical {T} (o : list (string * T)) : Prop :=
  NoDup (keysOf o) /\ StronglySorted keyOrder (keysOf o)
  /\ ~ In "__proto__" (keysOf o).

(** Every value of a map is settled. *)
Definition allSettled (o : Helpers.Vars) : Prop :=
  forall k v, In (k, v) o -> settled v.

(** [st'] has the errors of [st] followed by new ones, all in [P]. *)
Definition appended (P : string -> Prop) (st st' : VState) : Prop :=
  exists new, errors st' = (errors st ++ new)%list /\ Forall P new.

(** [m] only adds errors, all of them in [P], whether it returns or
    throws, and it does not end the process. *)
Definition emits {A} (P : string -> Prop) (m : V A) : Prop :=
  forall st,
    match m st with
    | Ok _ st' | Throw _ st' => appended P st st'
    | Exit _ _ => False
    end.

(** [m] returns, having only added errors. *)
Definition returns {A} (m : V A) : Prop :=
  forall st, exists a st', m st = Ok a st' /\ appended (fun _ => True) st st'.

(** A message that is not about a domain declaration. *)
Definition foreign (message : string) : Prop :=
  Str.startsWith message "domain[" = false.

(** [errors.length === 0] *)
Definition isEmpty {A} (l : list A) : bool :=
  match l with [] => true | _ => false end.

(** What [validate] may end with: a report whose flag says whether its
    errors are empty, an exception, or an exit that was asked for and
    follows at least one error. *)
Definition verdict (exitOnError : bool)
           (o : Outcome Z VState ValidationResult) : Prop :=
  match o with
  | Ok r st' =>
      (valid r = true <-> resultErrors r = [])
      /\ resultErrors r = errors st'
      /\ resultWarnings r = warnings st'
  | Throw _ _ => True
  | Exit _ st' => exitOnError = true /\ errors st' <> []
  end.

Definition anyMessage : string -> Prop := fun _ => True.

(** [m] returns and, among the errors it adds, there is [target]. *)
Definition reports {A} (target : string) (m : V A) : Prop :=
  forall st, exists a st' new,
    m st = Ok a st' /\ errors st' = (errors st ++ new)%list /\ In target new.


(** [m] returns, having added exactly the errors [new], in this order,
    and drawn nothing from the world. *)
Definition adds {A} (new : list string) (m : V A) : Prop :=
  forall st, exists a st',
    m st = Ok a st' /\ errors st' = (errors st ++ new)%list
    /\ world st' = world st.

(** The shapes of [config.env] that bring no error: absent, an object,
    or an array without [null] and [undefined] entries. *)
Definition acceptableEnv (env : Val) : bool :=
  match env with
  | JUndefined | JObj _ => true
  | JArr items => forallb (fun x => negb (nullish x)) items
  | _ => false
  end.

(** A service as the checks of the docker-compose validator expect it: an
    object or another value that is neither [null] nor [undefined], whose
    [ports], when it has any, is an array. *)
Definition portsReadable (service : Val) : Prop :=
  nullish service = false
  /\ (truthy (Js.field service "ports") = false
      \/ isArray (Js.field service "ports") = true).

(** A port entry that is only a container port: a string of digits or
    a number. *)
Definition barePort (port : Val) : bool :=
  match port with
  | JStr p => forallb Str.isDigit (list_ascii_of_string p)
  | JNum _ => true
  | _ => false
  end.

(** What [validatePortsFormat] says of entry [index] of the ports of
    [serviceName] when it is a string with a port mapping. *)
Definition usesPortMapping (serviceName : string) (index : nat)
           (port : string) : string :=
  "Service '" ++ serviceName ++ "': ports[" ++ Num.ofNat index
  ++ "] uses port mapping format '" ++ port
  ++ "'. According to README, use only port number (e.g., '3000') instead of '3000:3000'. Dokploy handles port routing.".

(** A service that uses nothing the docker-compose validator objects
    to: no [container_name], no [networks], and only bare ports. *)
Definition plainService (service : Val) : bool :=
  negb (nullish service)
  && negb (truthy (Js.field service "container_name"))
  && negb (truthy (Js.field service "networks"))
  && (negb (truthy (Js.field service "ports"))
      || match Js.field service "ports" with
         | JArr items => forallb barePort items
         | _ => false
         end).

(** When [validate] ends the process itself, the status is 1. *)
Definition exitsWithOne {A} (o : Outcome Z VState A) : Prop :=
  match o with
  | Exit code _ => code = 1%Z
  | _ => True
  end.

(** What the command line asked for: help, or a path that is not empty. *)
Definition asksHelp (long short : string) (args : list string) : Prop :=
  parseArgs long short args None false = None.

Definition givesPath (long short : string) (args : list string) : Prop :=
  exists c path verbose,
    parseArgs long short args None false
    = Some (Some (String c path), verbose).

(** * Properties *)

(** ** The encodings and the parser, on examples *)

Example base64_Man : Enc.base64 "Man" = "TWFu".
Proof. reflexivity. Qed.

Example base64_pad : Enc.base64 "Ma" = "TWE=" /\ Enc.base64 "M" = "TQ==".
Proof. split; reflexivity. Qed.

Example base64url_braces : Enc.base64url "{}" = "e30".
Proof. reflexivity. Qed.

Example parseInt_examples :
  Num.parseInt "8" = NInt 8 /\ Num.parseInt " 12abc" = NInt 12 /\
  Num.parseInt "-5" = NInt (-5) /\ Num.parseInt "abc" = NNaN /\
  Num.parseInt "" = NNaN /\ Num.parseInt "0x10" = NInt 0.
Proof. repeat split; reflexivity. Qed.

Example parseInt_rounds :
  Num.parseInt "9007199254740993" = NInt 9007199254740992 /\
  Num.parseInt "18446744073709551615" = NInt 18446744073709551616 /\
  Num.parseInt (string_of_list_ascii (repeat "9"%char 400)) = NPosInf.
Proof. repeat split; vm_compute; reflexivity. Qed.

Example numberToString_examples :
  Js.numberToString (NInt 65534) = "65534" /\
  Js.numberToString (NInt (2 ^ 60)) = "1152921504606847000" /\
  Js.numberToString (NInt (10 ^ 21)) = "1e+21" /\
  Js.numberToString (NInt (2 ^ 70)) = "1.1805916207174113e+21".
Proof. repeat split; vm_compute; reflexivity. Qed.

Example split_examples :
  Str.split ":" "jwt:a:b" = ["jwt"; "a"; "b"] /\
  Str.split ":" "password:" = ["password"; ""] /\
  Str.split ":" "" = [""].
Proof. repeat split; reflexivity. Qed.

Example hex_example : Enc.hex "Man" = "4d616e".
Proof. reflexivity. Qed.

Example ofZ_examples : Num.ofZ 0 = "0" /\ Num.ofZ 65534 = "65534" /\ Num.ofZ (-7) = "-7".
Proof. repeat split; reflexivity. Qed.


(** ** Strings *)

Module StrFacts.

Lemma append_nil_r (s : string) : s ++ "" = s.
Proof. induction s as [|c s IH]; simpl; [reflexivity | now rewrite IH]. Qed.

Lemma append_assoc (a b c : string) : (a ++ b) ++ c = a ++ (b ++ c).
Proof. induction a as [|x a IH]; simpl; [reflexivity | now rewrite IH]. Qed.

Lemma length_append (a b : string) :
  String.length (a ++ b) = String.length a + String.length b.
Proof. induction a as [|x a IH]; simpl; [reflexivity | now rewrite IH]. Qed.

Lemma prefix_nil (s : string) : String.prefix "" s = true.
Proof. now destruct s. Qed.


Lemma startsWith_inv (s p : string) :
  Str.startsWith s p = true -> exists r, s = p ++ r.
Proof.
  unfold Str.startsWith. revert s.
  induction p as [|c p IH]; intros s H.
  - now exists s.
  - destruct s as [|d s]; simpl in H; [discriminate |].
    destruct (ascii_dec c d) as [->|]; [| discriminate].
    destruct (IH _ H) as [r ->]. now exists r.
Qed.

Lemma split_nonempty (sep : ascii) (s : string) : Str.split sep s <> [].
Proof.
  induction s as [|c s IH]; simpl; [discriminate |].
  destruct (Ascii.eqb c sep); [discriminate |].
  destruct (Str.split sep s); [contradiction | discriminate].
Qed.

Lemma nth0_hd {A} (l : list A) (d : A) : nth 0 l d = hd d l.
Proof. now destruct l. Qed.

Lemma charAt_length (alphabet : string) (i : nat) :
  i < String.length alphabet -> String.length (Enc.charAt alphabet i) = 1.
Proof.
  unfold Enc.charAt. revert i.
  induction alphabet as [|c a IH]; intros i H; simpl in *; [lia |].
  destruct i; [reflexivity |]. apply IH. lia.
Qed.

End StrFacts.

(** ** The monad *)

Lemma bind_ok {X St A B} (m : M X St A) (k : A -> M X St B) s a s' :
  m s = Ok a s' -> bind m k s = k a s'.
Proof. unfold bind. now intros ->. Qed.

Lemma bind_ret {X St A B} (a : A) (k : A -> M X St B) s :
  bind (ret a) k s = k a s.
Proof. reflexivity. Qed.

(** ** Doubles *)

Module NumFacts.

Lemma round53_small (x : Z) : (x < 2 ^ 53)%Z -> Num.round53 x = x.
Proof.
  intros H. unfold Num.round53.
  destruct (Z.ltb_spec x (2 ^ 53)); [reflexivity | lia].
Qed.

Lemma round53_nonneg (x : Z) : (0 <= x)%Z -> (0 <= Num.round53 x)%Z.
Proof.
  intros H. unfold Num.round53.
  destruct (Z.ltb_spec x (2 ^ 53)); [exact H |].
  cbv zeta.
  assert (Hp : (0 < 2 ^ (Z.log2 x - 52))%Z).
  { apply Z.pow_pos_nonneg; [lia |].
    assert (53 <= Z.log2 x)%Z; [| lia].
    apply Z.log2_le_pow2; lia. }
  pose proof (Z.div_pos x _ H Hp).
  repeat match goal with |- context [if ?c then _ else _] => destruct c end;
    nia.
Qed.

(** Rounding moves a number by half a unit of its last place at most. *)
Lemma round53_le (x : Z) :
  (2 ^ 53 <= x)%Z -> (Num.round53 x <= x + 2 ^ (Z.log2 x - 53))%Z.
Proof.
  intros H. unfold Num.round53.
  destruct (Z.ltb_spec x (2 ^ 53)); [lia |].
  cbv zeta.
  assert (Hl : (53 <= Z.log2 x)%Z) by (apply Z.log2_le_pow2; lia).
  replace (Z.log2 x - 52 - 1)%Z with (Z.log2 x - 53)%Z by lia.
  assert (Hhalf : (0 < 2 ^ (Z.log2 x - 53))%Z)
    by (apply Z.pow_pos_nonneg; lia).
  assert (Hunit : (2 ^ (Z.log2 x - 52) = 2 * 2 ^ (Z.log2 x - 53))%Z).
  { replace (Z.log2 x - 52)%Z with (Z.succ (Z.log2 x - 53)) by lia.
    rewrite Z.pow_succ_r by lia. reflexivity. }
  set (half := (2 ^ (Z.log2 x - 53))%Z) in *.
  rewrite Hunit.
  pose proof (Z.div_mod x (2 * half) ltac:(lia)) as Hdm.
  pose proof (Z.mod_pos_bound x (2 * half) ltac:(lia)) as Hr.
  destruct (Z.ltb_spec (x mod (2 * half)) half); [nia |].
  destruct (Z.ltb_spec half (x mod (2 * half))); [nia |].
  destruct (Z.even (x / (2 * half))); nia.
Qed.

Lemma toDouble_small (z : Z) :
  (Z.abs z < 2 ^ 53)%Z -> Num.toDouble z = NInt z.
Proof.
  intros H. unfold Num.toDouble. rewrite round53_small by exact H.
  destruct (Z.ltb_spec (Z.abs z) (2 ^ 1024)).
  - f_equal. lia.
  - assert (2 ^ 53 < 2 ^ 1024)%Z by (apply Z.pow_lt_mono_r; lia). lia.
Qed.

(** [Number.parseInt(...) || d] *)
Lemma parseIntOr_cases (text : string) (d : Number) :
  Num.parseIntOr text d
  = match Num.parseInt text with
    | NNaN => d
    | NInt z => if (z =? 0)%Z then d else NInt z
    | n => n
    end.
Proof. reflexivity. Qed.

End NumFacts.

(** ** Random draws and passwords *)

Lemma randomBelow_ok (k : Z) (w : World) :
  exists i w', Helpers.randomBelow k w = Ok i w' /\
               ((0 < k)%Z -> (0 <= i < k)%Z).
Proof.
  unfold Helpers.randomBelow. eexists _, _. split; [reflexivity |].
  intros Hk.
  pose proof (Z.mod_pos_bound (uniform w (uniformPos w)) 9007199254740992
                ltac:(lia)) as Hu.
  set (u := (uniform w (uniformPos w) mod 9007199254740992)%Z) in *.
  split.
  - apply Z.div_pos; [| lia]. apply NumFacts.round53_nonneg. nia.
  - apply Z.div_lt_upper_bound; [lia |].
    destruct (Z.ltb_spec (u * k) (2 ^ 53)) as [Hs | Hs].
    + rewrite NumFacts.round53_small by exact Hs.
      change (2 ^ 53)%Z with 9007199254740992%Z in Hs. nia.
    + pose proof (NumFacts.round53_le (u * k) Hs) as Hr.
      assert (Hl : (53 <= Z.log2 (u * k))%Z) by (apply Z.log2_le_pow2; lia).
      pose proof (Z.log2_spec (u * k) ltac:(lia)) as [Hlo _].
      assert (Hpow : (2 ^ Z.log2 (u * k)
                      = 2 ^ 53 * 2 ^ (Z.log2 (u * k) - 53))%Z).
      { rewrite <- Z.pow_add_r by lia. f_equal. lia. }
      change (2 ^ 53)%Z with 9007199254740992%Z in *.
      nia.
Qed.

Lemma tooLong_false (s : string) :
  (Z.of_nat (String.length s) <= Str.maxLength)%Z -> Str.tooLong s = false.
Proof. unfold Str.tooLong. intros H. apply Z.ltb_ge. exact H. Qed.

Lemma tooLong_true (s : string) :
  (Str.maxLength < Z.of_nat (String.length s))%Z -> Str.tooLong s = true.
Proof. unfold Str.tooLong. intros H. apply Z.ltb_lt. exact H. Qed.

Lemma toString_ok (encode : string -> string) (buf : string) (w : World) :
  (Z.of_nat (String.length (encode buf)) <= Str.maxLength)%Z ->
  Helpers.toString encode buf w = Ok (encode buf) w.
Proof.
  intros H. unfold Helpers.toString. now rewrite (tooLong_false _ H).
Qed.


Lemma length_string_of_list (l : list ascii) :
  String.length (string_of_list_ascii l) = List.length l.
Proof. induction l as [|c l IH]; simpl; [reflexivity | now rewrite IH]. Qed.

Lemma list_of_string_app (a b : string) :
  list_ascii_of_string (a ++ b)
  = (list_ascii_of_string a ++ list_ascii_of_string b)%list.
Proof. induction a as [|c a IH]; simpl; [reflexivity | now rewrite IH]. Qed.

Lemma get_In (s : string) :
  forall i c, String.get i s = Some c -> In c (list_ascii_of_string s).
Proof.
  induction s as [|a s IH]; intros i c H; [now destruct i |].
  destruct i as [|i]; simpl in H.
  - inversion H. now left.
  - right. eapply IH. exact H.
Qed.

Lemma charAt_In (alphabet : string) (i : nat) :
  drawnFrom alphabet (Enc.charAt alphabet i).
Proof.
  unfold drawnFrom, Enc.charAt.
  destruct (String.get i alphabet) as [c|] eqn:E.
  - constructor; [| constructor]. eapply get_In. exact E.
  - constructor.
Qed.

Lemma drawnFrom_app (alphabet a b : string) :
  drawnFrom alphabet a -> drawnFrom alphabet b ->
  drawnFrom alphabet (a ++ b).
Proof.
  unfold drawnFrom. intros Ha Hb. rewrite list_of_string_app.
  apply Forall_app. now split.
Qed.

Lemma hex_length (buf : string) :
  String.length (Enc.hex buf) = 2 * String.length buf.
Proof.
  induction buf as [|c r IH]; [reflexivity |].
  cbn [Enc.hex]. rewrite !StrFacts.length_append, IH.
  pose proof (nat_ascii_bounded c) as Hc. unfold Str.code.
  rewrite !StrFacts.charAt_length.
  - simpl. lia.
  - apply Nat.mod_upper_bound. discriminate.
  - apply Nat.Div0.div_lt_upper_bound. simpl. lia.
Qed.

(** The text of [buf.toString("hex")] is made of lower-case hexadecimal
    digits. *)
Lemma hex_digits (buf : string) : drawnFrom Enc.hexAlphabet (Enc.hex buf).
Proof.
  induction buf as [|c r IH]; [constructor |].
  cbn [Enc.hex]. repeat apply drawnFrom_app; try apply charAt_In. exact IH.
Qed.

Lemma base64With_length (alphabet : string) :
  String.length alphabet = 64 ->
  forall n buf,
    String.length buf <= n ->
    String.length (Enc.base64With alphabet true buf)
    = 4 * ((String.length buf + 2) / 3).
Proof.
  intros Halpha.
  assert (Hchar : forall i, i < 64 ->
                            String.length (Enc.charAt alphabet i) = 1).
  { intros i Hi. apply StrFacts.charAt_length. now rewrite Halpha. }
  assert (Hq : forall c, Str.code c / 4 < 64).
  { intros c. pose proof (nat_ascii_bounded c). unfold Str.code.
    apply Nat.Div0.div_lt_upper_bound. lia. }
  assert (Hm : forall c k, 0 < k -> Str.code c mod k < k).
  { intros c k Hk. apply Nat.mod_upper_bound. lia. }
  assert (Hd : forall c, Str.code c / 16 < 16).
  { intros c. pose proof (nat_ascii_bounded c). unfold Str.code.
    apply Nat.Div0.div_lt_upper_bound. lia. }
  assert (He : forall c, Str.code c / 64 < 4).
  { intros c. pose proof (nat_ascii_bounded c). unfold Str.code.
    apply Nat.Div0.div_lt_upper_bound. lia. }
  induction n as [|n IH]; intros buf Hlen.
  - destruct buf; [reflexivity | simpl in Hlen; lia].
  - destruct buf as [|a [|b [|c r]]]; [reflexivity | | |].
    + cbn [Enc.base64With]. rewrite !StrFacts.length_append.
      rewrite Hchar by apply Hq.
      rewrite Hchar by (pose proof (Hm a 4); lia).
      reflexivity.
    + cbn [Enc.base64With]. rewrite !StrFacts.length_append.
      rewrite Hchar by apply Hq.
      rewrite Hchar by (pose proof (Hm a 4); pose proof (Hd b); lia).
      rewrite Hchar by (pose proof (Hm b 16); lia).
      reflexivity.
    + cbn [Enc.base64With]. rewrite !StrFacts.length_append.
      rewrite Hchar by apply Hq.
      rewrite Hchar by (pose proof (Hm a 4); pose proof (Hd b); lia).
      rewrite Hchar by (pose proof (Hm b 16); pose proof (He c); lia).
      rewrite Hchar by (apply Hm; lia).
      rewrite IH by (simpl in Hlen; lia).
      cbn [String.length].
      replace (S (S (S (String.length r))) + 2)
        with (1 * 3 + (String.length r + 2)) by lia.
      rewrite Nat.div_add_l by discriminate. lia.
Qed.

Lemma base64_length (buf : string) :
  String.length (Enc.base64 buf) = 4 * ((String.length buf + 2) / 3).
Proof.
  unfold Enc.base64.
  exact (base64With_length Enc.base64Alphabet eq_refl
           (String.length buf) buf (le_n _)).
Qed.

Lemma nextBytes_length (w : World) (n : nat) :
  String.length (nextBytes w n) = n.
Proof.
  unfold nextBytes. now rewrite length_string_of_list, length_map, length_seq.
Qed.

Lemma randomBytes_exact (size : Z) (w : World) :
  (0 <= size <= 2147483647)%Z ->
  Helpers.randomBytes (NInt size) w
  = Ok (nextBytes w (Z.to_nat size)) (takeBytes w (Z.to_nat size)).
Proof.
  intros [Hlo Hhi]. unfold Helpers.randomBytes.
  apply Z.leb_le in Hlo, Hhi. rewrite Hlo, Hhi. reflexivity.
Qed.

Lemma randomBytes_spec (size : Z) (w : World) :
  (0 <= size <= 2147483647)%Z ->
  exists bytes w',
    Helpers.randomBytes (NInt size) w = Ok bytes w'
    /\ String.length bytes = Z.to_nat size
    /\ bytePos w' = bytePos w + Z.to_nat size
    /\ uniformPos w' = uniformPos w
    /\ clockPos w' = clockPos w.
Proof.
  intros H. eexists _, _. split; [apply (randomBytes_exact size w H) |].
  rewrite nextBytes_length. repeat split.
Qed.

Lemma randomBytes_out_of_range (size : Number) (w : World) :
  sizeInRange size = false ->
  Helpers.randomBytes size w = Throw (SizeOutOfRange size) w.
Proof.
  intros H. unfold Helpers.randomBytes.
  destruct size as [z | | |]; try reflexivity.
  simpl in H. now rewrite H.
Qed.

(** [generateHash]: the hexadecimal text of the next bytes while it fits
    the longest string, an error past that. *)
Lemma generateHash_exact (n : Z) (w : World) :
  (0 <= n <= 268435444)%Z ->
  Helpers.generateHash (NInt n) w
  = Ok (Enc.hex (nextBytes w (Z.to_nat n))) (takeBytes w (Z.to_nat n)).
Proof.
  intros Hn. unfold Helpers.generateHash.
  rewrite (bind_ok _ _ _ _ _ (randomBytes_exact n w ltac:(lia))).
  apply toString_ok. rewrite hex_length, nextBytes_length.
  unfold Str.maxLength. lia.
Qed.


Lemma generateHash_out_of_range (size : Number) (w : World) :
  sizeInRange size = false ->
  Helpers.generateHash size w = Throw (SizeOutOfRange size) w.
Proof.
  intros H. unfold Helpers.generateHash, bind.
  now rewrite (randomBytes_out_of_range size w H).
Qed.

Lemma base64_text_length (w : World) (n : Z) :
  (0 <= n)%Z ->
  Z.of_nat (String.length (Enc.base64 (nextBytes w (Z.to_nat n))))
  = (4 * ((n + 2) / 3))%Z.
Proof.
  intros Hn. rewrite base64_length, nextBytes_length.
  rewrite Nat2Z.inj_mul, Nat2Z.inj_div, Nat2Z.inj_add, Z2Nat.id by lia.
  reflexivity.
Qed.

Lemma generateBase64_exact (n : Z) (w : World) :
  (0 <= n <= 402653166)%Z ->
  Helpers.generateBase64 (NInt n) w
  = Ok (Enc.base64 (nextBytes w (Z.to_nat n))) (takeBytes w (Z.to_nat n)).
Proof.
  intros Hn. unfold Helpers.generateBase64.
  rewrite (bind_ok _ _ _ _ _ (randomBytes_exact n w ltac:(lia))).
  apply toString_ok. rewrite base64_text_length by lia.
  unfold Str.maxLength.
  assert ((n + 2) / 3 < 134217723)%Z
    by (apply Z.div_lt_upper_bound; lia).
  lia.
Qed.


Lemma generateBase64_out_of_range (size : Number) (w : World) :
  sizeInRange size = false ->
  Helpers.generateBase64 size w = Throw (SizeOutOfRange size) w.
Proof.
  intros H. unfold Helpers.generateBase64, bind.
  now rewrite (randomBytes_out_of_range size w H).
Qed.

Lemma randomBelow_world (k : Z) (w w' : World) (i : Z) :
  Helpers.randomBelow k w = Ok i w' ->
  uniformPos w' = S (uniformPos w) /\ bytePos w' = bytePos w.
Proof. unfold Helpers.randomBelow. intros H. inversion H. now split. Qed.

Lemma passwordLoop_step (n : nat) (acc : string) (w : World) :
  exists i w1,
    (0 <= i < Z.of_nat (String.length Helpers.charset))%Z
    /\ uniformPos w1 = S (uniformPos w) /\ bytePos w1 = bytePos w
    /\ Helpers.passwordLoop (S n) acc w
       = if Str.tooLong (acc ++ Enc.charAt Helpers.charset (Z.to_nat i))
         then Throw InvalidStringLength w1
         else Helpers.passwordLoop n
                (acc ++ Enc.charAt Helpers.charset (Z.to_nat i)) w1.
Proof.
  destruct (randomBelow_ok (Z.of_nat (String.length Helpers.charset)) w)
    as (i & w1 & Hdraw & Hrange).
  exists i, w1. split; [apply Hrange; reflexivity |].
  split; [apply (randomBelow_world _ _ _ _ Hdraw) |].
  split; [apply (randomBelow_world _ _ _ _ Hdraw) |].
  cbn [Helpers.passwordLoop].
  rewrite (bind_ok _ _ _ _ _ Hdraw). cbv zeta.
  destruct (Str.tooLong (acc ++ Enc.charAt Helpers.charset (Z.to_nat i)));
    reflexivity.
Qed.

Lemma passwordLoop_charset (n : nat) :
  forall (acc : string) (w : World),
    (Z.of_nat (String.length acc + n) <= Str.maxLength)%Z ->
    drawnFrom Helpers.charset acc ->
    exists s w',
      Helpers.passwordLoop n acc w = Ok s w'
      /\ String.length s = String.length acc + n
      /\ drawnFrom Helpers.charset s
      /\ uniformPos w' = uniformPos w + n
      /\ bytePos w' = bytePos w.
Proof.
  induction n as [|n IH]; intros acc w Hfit Hacc.
  - exists acc, w. repeat split; auto.
  - destruct (passwordLoop_step n acc w) as (i & w1 & Hi & Hu1 & Hb1 & ->).
    assert (Hlen : String.length
                     (acc ++ Enc.charAt Helpers.charset (Z.to_nat i))
                   = S (String.length acc)).
    { rewrite StrFacts.length_append, StrFacts.charAt_length; lia. }
    rewrite tooLong_false by lia.
    destruct (IH (acc ++ Enc.charAt Helpers.charset (Z.to_nat i)) w1)
      as (s & w' & Hrun & Hs & Hall & Hu & Hb).
    { lia. }
    { apply drawnFrom_app; [exact Hacc | apply charAt_In]. }
    exists s, w'. split; [exact Hrun |].
    repeat split; [lia | exact Hall | lia | congruence].
Qed.

Lemma passwordLoop_length (n : nat) :
  forall (acc : string) (w : World),
    (Z.of_nat (String.length acc + n) <= Str.maxLength)%Z ->
    exists s w', Helpers.passwordLoop n acc w = Ok s w' /\
                 String.length s = String.length acc + n.
Proof.
  induction n as [|n IH]; intros acc w Hfit.
  - exists acc, w. split; [reflexivity | lia].
  - destruct (passwordLoop_step n acc w) as (i & w1 & Hi & _ & _ & ->).
    assert (Hlen : String.length
                     (acc ++ Enc.charAt Helpers.charset (Z.to_nat i))
                   = S (String.length acc)).
    { rewrite StrFacts.length_append, StrFacts.charAt_length; lia. }
    rewrite tooLong_false by lia.
    destruct (IH (acc ++ Enc.charAt Helpers.charset (Z.to_nat i)) w1
                ltac:(lia)) as (s & w' & Hrun & Hs).
    exists s, w'. split; [exact Hrun | lia].
Qed.

(** Past the longest string the loop ends in a [RangeError]. *)
Lemma passwordLoop_too_long (n : nat) :
  forall (acc : string) (w : World),
    (Z.of_nat (String.length acc) <= Str.maxLength)%Z ->
    (Str.maxLength < Z.of_nat (String.length acc + n))%Z ->
    exists w', Helpers.passwordLoop n acc w = Throw InvalidStringLength w'.
Proof.
  induction n as [|n IH]; intros acc w Hfit Hlong; [lia |].
  destruct (passwordLoop_step n acc w) as (i & w1 & Hi & _ & _ & ->).
  assert (Hlen : String.length
                   (acc ++ Enc.charAt Helpers.charset (Z.to_nat i))
                 = S (String.length acc)).
  { rewrite StrFacts.length_append, StrFacts.charAt_length; lia. }
  destruct (Z.ltb_spec Str.maxLength (Z.of_nat (S (String.length acc))))
    as [Hnow | Hlater].
  - rewrite tooLong_true by lia. now exists w1.
  - rewrite tooLong_false by lia.
    apply IH; lia.
Qed.

Lemma generatePassword_length (length : Z) (w : World) :
  (length <= Str.maxLength)%Z ->
  exists s w', Helpers.generatePassword (NInt length) w = Ok s w' /\
               String.length s = Z.to_nat length.
Proof.
  intros Hfit. unfold Helpers.generatePassword, Helpers.iterations.
  destruct (passwordLoop_length (Z.to_nat length) "" w) as (s & w' & H & L).
  { change (String.length "") with 0. unfold Str.maxLength in *. lia. }
  now exists s, w'.
Qed.

(** C2 at its failing inputs.  When the integer [Number.parseInt] reads
    at the head of the argument is 0, the length handed to the generator
    is [0 || 16]: the helper expression evaluates to a string of sixteen
    characters, where the claim asks for a string of length 0.  The first
    pass of [processVariables] reads the same expression with a
    conditional in place of [||] and stores the empty string. *)
Theorem password_zero_gives_sixteen :
  forall (rt : Runtime) (variables : Helpers.Vars) (schema : Helpers.Schema)
         (match_ n : string) (w : World),
    Num.parseInt (hd "" (Str.split ":" n)) = NInt 0 ->
    (exists s w',
        Helpers.resolveHelper rt variables schema match_ ("password:" ++ n) w
        = Ok s w'
        /\ String.length s = 16)
    /\ Helpers.pass1 [("p", JStr "${password:0}")] schema w
       = Ok [("p", "")] w.
Proof.
  intros rt variables schema match_ n w Hzero. split.
  - unfold Helpers.resolveHelper, Helpers.resolveHelperWith. cbn.
    rewrite StrFacts.prefix_nil, StrFacts.nth0_hd.
    rewrite NumFacts.parseIntOr_cases, Hzero.
    change (0 =? 0)%Z with true. cbv iota.
    destruct (generatePassword_length 16 w) as (s & w' & Hrun & Hlen).
    { unfold Str.maxLength. lia. }
    exists s, w'. split; [exact Hrun | exact Hlen].
  - reflexivity.
Qed.

Lemma password_zero_gives_sixteen_witness :
  Num.parseInt (hd "" (Str.split ":" "0")) = NInt 0 /\
  (exists s w',
      Helpers.resolveHelper Demo.rt [] Demo.schema "${password:0}"
        ("password:" ++ "0") Demo.w0 = Ok s w'
      /\ String.length s = 16)
  /\ Helpers.pass1 [("p", JStr "${password:0}")] Demo.schema Demo.w0
     = Ok [("p", "")] Demo.w0.
Proof.
  split; [reflexivity |].
  exact (password_zero_gives_sixteen Demo.rt [] Demo.schema "${password:0}"
           "0" Demo.w0 eq_refl).
Defined.

(** ** The substitution scan *)

Lemma bind_ret_l {X St A B} (a : A) (k : A -> M X St B) :
  bind (ret a) k = k a.
Proof. reflexivity. Qed.

Lemma bind_ext {X St A B} (m1 m2 : M X St A) (k1 k2 : A -> M X St B) s :
  m1 s = m2 s -> (forall a s', k1 a s' = k2 a s') ->
  bind m1 k1 s = bind m2 k2 s.
Proof.
  intros Hm Hk. unfold bind. rewrite Hm.
  destruct (m2 s); [apply Hk | reflexivity | reflexivity].
Qed.

Lemma replaceFrom_ext {X St} (cb1 cb2 : string -> string -> M X St string) :
  (forall m x s, cb1 m x s = cb2 m x s) ->
  forall (text : string) (skip : nat) (s : St),
    Helpers.replaceFrom cb1 skip text s = Helpers.replaceFrom cb2 skip text s.
Proof.
  intros Hcb text.
  induction text as [|c r IH]; intros skip s; [reflexivity |].
  cbn [Helpers.replaceFrom].
  destruct skip as [|k]; [| apply IH].
  destruct (Helpers.matchExpr (String c r)) as [body|].
  - apply bind_ext; [apply Hcb |].
    intros out s'. apply bind_ext; [apply IH | reflexivity].
  - apply bind_ext; [apply IH | reflexivity].
Qed.

Lemma replaceFrom_skip_all {X St} (cb : string -> string -> M X St string) :
  forall (text : string) (skip : nat) (s : St),
    String.length text <= skip ->
    Helpers.replaceFrom cb skip text s = Ok "" s.
Proof.
  induction text as [|c r IH]; intros skip s H; [reflexivity |].
  simpl in H. destruct skip as [|k]; [lia |].
  cbn [Helpers.replaceFrom]. apply IH. lia.
Qed.

Lemma replaceFrom_match {X St} (cb : string -> string -> M X St string)
      (c : ascii) (r body out : string) (s s' : St) :
  Helpers.matchExpr (String c r) = Some body ->
  String.length r <= String.length body + 2 ->
  cb (Helpers.exprText body) body s = Ok out s' ->
  Helpers.replaceFrom cb 0 (String c r) s = Ok out s'.
Proof.
  intros Hm Hlen Hcb. cbn [Helpers.replaceFrom]. rewrite Hm.
  rewrite (bind_ok _ _ _ _ _ Hcb).
  rewrite (bind_ok _ _ _ _ _ (replaceFrom_skip_all cb r _ s' Hlen)).
  unfold ret. now rewrite StrFacts.append_nil_r.
Qed.

(** A string that is exactly one expression is replaced by what the
    callback gives for it. *)
Lemma replaceAll_single {X St} (cb : string -> string -> M X St string)
      (body out : string) (s s' : St) :
  expressionBody body ->
  cb (Helpers.exprText body) body s = Ok out s' ->
  Helpers.replaceAll cb (Helpers.exprText body) s = Ok out s'.
Proof.
  intros Hbody Hcb. unfold Helpers.replaceAll.
  unfold expressionBody in Hbody.
  change (Helpers.exprText body) with (String "$" (String "{" (body ++ "}")))
    in Hbody |- * at 1.
  eapply replaceFrom_match; [exact Hbody | | exact Hcb].
  simpl. rewrite StrFacts.length_append. simpl. lia.
Qed.

(** ** Unknown expressions and the [randomPort] tag *)

(** Decides one test of the dispatch of [resolveHelperWith] on [body],
    using that the tag of [body] is not a helper name. *)
Ltac refute_helper body Htag :=
  match goal with
  | |- context [if String.eqb body ?t then _ else _] =>
      let E := fresh "E" in
      destruct (String.eqb body t) eqn:E;
      [ apply String.eqb_eq in E; subst body; vm_compute in Htag;
        discriminate Htag
      | clear E ]
  | |- context [if Str.startsWith body ?p then _ else _] =>
      let E := fresh "E" in
      let r := fresh "r" in
      destruct (Str.startsWith body p) eqn:E;
      [ apply StrFacts.startsWith_inv in E; destruct E as [r E];
        subst body; cbn in Htag; discriminate Htag
      | clear E ]
  | |- context [if String.eqb body ?t || String.eqb body ?u then _ else _] =>
      let E := fresh "E" in
      let F := fresh "F" in
      destruct (String.eqb body t) eqn:E;
      [ apply String.eqb_eq in E; subst body; vm_compute in Htag;
        discriminate Htag | clear E ];
      destruct (String.eqb body u) eqn:F;
      [ apply String.eqb_eq in F; subst body; vm_compute in Htag;
        discriminate Htag | clear F ];
      cbn [orb]
  end.

Lemma unknown_tag_default (rt : Runtime)
      (self : string -> Helpers.Vars -> Helpers.Schema -> Helpers.W string)
      (variables : Helpers.Vars) (schema : Helpers.Schema)
      (match_ body : string) (w : World) :
  recognizedTag body = false ->
  Helpers.resolveHelperWith rt self variables schema match_ body w
  = Ok (Helpers.lookupOr variables body match_) w.
Proof.
  intros Htag. unfold recognizedTag, tagOf in Htag.
  unfold Helpers.resolveHelperWith.
  repeat refute_helper body Htag.
  reflexivity.
Qed.

(** What [variables[name] || fallback] gives, by the place of [name]. *)
Lemma read_own (variables : Helpers.Vars) (name v : string) :
  Obj.get variables name = Some v -> Helpers.read variables name = Helpers.Own v.
Proof. unfold Helpers.read. now intros ->. Qed.

Lemma read_missing (variables : Helpers.Vars) (name : string) :
  Obj.get variables name = None -> Obj.inherited name = false ->
  Helpers.read variables name = Helpers.Missing.
Proof. unfold Helpers.read. now intros -> ->. Qed.

Lemma read_inherited (variables : Helpers.Vars) (name : string) :
  Obj.get variables name = None -> Obj.inherited name = true ->
  Helpers.read variables name = Helpers.Inherited.
Proof. unfold Helpers.read. now intros -> ->. Qed.

Lemma lookupOr_own (variables : Helpers.Vars) (name v fallback : string) :
  Obj.get variables name = Some v ->
  Helpers.lookupOr variables name fallback
  = if String.eqb v "" then fallback else v.
Proof. intros H. unfold Helpers.lookupOr. now rewrite (read_own _ _ _ H). Qed.

Lemma lookupOr_missing (variables : Helpers.Vars) (name fallback : string) :
  Obj.get variables name = None -> Obj.inherited name = false ->
  Helpers.lookupOr variables name fallback = fallback.
Proof.
  intros H I. unfold Helpers.lookupOr. now rewrite (read_missing _ _ H I).
Qed.

Lemma lookupOr_inherited (variables : Helpers.Vars)
      (name fallback : string) :
  Obj.get variables name = None -> Obj.inherited name = true ->
  Helpers.lookupOr variables name fallback = Obj.inheritedText name.
Proof.
  intros H I. unfold Helpers.lookupOr. now rewrite (read_inherited _ _ H I).
Qed.

(** C7, as the code has it.  A body [randomPort:<suffix>] is not a port
    request: it is looked up as a variable name, and the literal text
    stays when the map has no non-empty value for it; no random number is
    drawn.  Only the bare tag [randomPort] produces a port, the decimal
    form of an integer from 0 to 65534. *)
Theorem randomPort_suffix_is_a_variable_name :
  forall (rt : Runtime) (variables : Helpers.Vars) (schema : Helpers.Schema)
         (match_ suffix : string) (w : World),
    Helpers.resolveHelper rt variables schema match_
      ("randomPort:" ++ suffix) w
    = Ok (Helpers.lookupOr variables ("randomPort:" ++ suffix) match_) w
    /\ exists port w',
         Helpers.resolveHelper rt variables schema match_ "randomPort" w
         = Ok (Num.ofZ port) w'
         /\ (0 <= port < 65535)%Z.
Proof.
  intros rt variables schema match_ suffix w. split.
  - unfold Helpers.resolveHelper, Helpers.resolveHelperWith. cbn.
    reflexivity.
  - change (Helpers.resolveHelper rt variables schema match_ "randomPort")
      with (bind (Helpers.randomBelow 65535) (fun port => ret (Num.ofZ port))).
    destruct (randomBelow_ok 65535 w) as (port & w' & Hdraw & Hrange).
    exists port, w'. split; [| apply Hrange; lia].
    now rewrite (bind_ok _ _ _ _ _ Hdraw).
Qed.

(** C7 as stated fails at the suffix [8080]: the expression stays as it
    is, while the bare tag gives a port number. *)
Lemma randomPort_suffix_not_resolved :
  Helpers.processValue Demo.rt "${randomPort:8080}" [] Demo.schema Demo.w0
  = Ok "${randomPort:8080}" Demo.w0
  /\ match Helpers.processValue Demo.rt "${randomPort}" [] Demo.schema
             Demo.w0 with
     | Ok s _ => s = "36768"
     | _ => False
     end.
Proof. split; vm_compute; reflexivity. Qed.

(** ** A variable bound to the empty string *)

Lemma get_remove_same {T} (o : list (string * T)) (k : string) :
  Obj.get (Obj.remove o k) k = None.
Proof.
  unfold Obj.get. induction o as [|[k' v] o IH]; simpl; [reflexivity |].
  destruct (String.eqb k' k) eqn:E; [exact IH |].
  simpl. now rewrite E.
Qed.

Lemma get_remove_other {T} (o : list (string * T)) (k p : string) :
  p <> k -> Obj.get (Obj.remove o k) p = Obj.get o p.
Proof.
  intros Hne. unfold Obj.get.
  induction o as [|[k' v] o IH]; simpl; [reflexivity |].
  destruct (String.eqb k' k) eqn:E.
  - apply String.eqb_eq in E. subst k'.
    destruct (String.eqb k p) eqn:F; [| exact IH].
    apply String.eqb_eq in F. congruence.
  - simpl. destruct (String.eqb k' p); [reflexivity | exact IH].
Qed.

(** Every read of the map by [processValue] has the shape
    [variables[p] ? ... : ...]; for a name that objects do not inherit,
    such a read cannot tell an empty value from an absent one. *)
Lemma falsy_read_remove {T} (variables : Helpers.Vars) (k p : string)
      (absent inherited : T) (present : string -> T) :
  Obj.get variables k = Some "" ->
  Obj.inherited k = false ->
  match Helpers.read (Obj.remove variables k) p with
  | Helpers.Own v => if String.eqb v "" then absent else present v
  | Helpers.Inherited => inherited
  | Helpers.Missing => absent
  end
  = match Helpers.read variables p with
    | Helpers.Own v => if String.eqb v "" then absent else present v
    | Helpers.Inherited => inherited
    | Helpers.Missing => absent
    end.
Proof.
  intros Hk Hinh. unfold Helpers.read. destruct (String.eqb p k) eqn:E.
  - apply String.eqb_eq in E. subst p.
    now rewrite get_remove_same, Hk, Hinh.
  - apply String.eqb_neq in E. now rewrite get_remove_other.
Qed.

Lemma lookupOr_remove (variables : Helpers.Vars) (k p fallback : string) :
  Obj.get variables k = Some "" ->
  Obj.inherited k = false ->
  Helpers.lookupOr (Obj.remove variables k) p fallback
  = Helpers.lookupOr variables p fallback.
Proof.
  intros Hk Hinh. unfold Helpers.lookupOr.
  exact (falsy_read_remove variables k p fallback (Obj.inheritedText p)
           (fun v => v) Hk Hinh).
Qed.

Lemma jwtWithParams_remove (rt : Runtime) (variables : Helpers.Vars)
      (k varName : string) :
  Obj.get variables k = Some "" ->
  Obj.inherited k = false ->
  Helpers.jwtWithParams rt (Obj.remove variables k) varName
  = Helpers.jwtWithParams rt variables varName.
Proof.
  intros Hk Hinh. unfold Helpers.jwtWithParams.
  destruct (Helpers.legacyForm _); [reflexivity |].
  destruct (nth_error (tl (Str.split ":" varName)) 1) as [p|];
    destruct (nth_error (tl (Str.split ":" varName)) 0) as [sec|];
    cbv zeta;
    try rewrite (falsy_read_remove variables k p (Helpers.PayloadText p)
                   (Helpers.PayloadInherited p) Helpers.PayloadText Hk Hinh);
    try rewrite (falsy_read_remove variables k sec (Helpers.SecretText sec)
                   (Helpers.SecretInherited sec) Helpers.SecretText Hk Hinh);
    reflexivity.
Qed.

Lemma resolveHelperWith_remove (rt : Runtime)
      (self1 self2 : string -> Helpers.Vars -> Helpers.Schema
                     -> Helpers.W string)
      (variables : Helpers.Vars) (k : string) (schema : Helpers.Schema) :
  Obj.get variables k = Some "" ->
  Obj.inherited k = false ->
  (forall w, self1 "${username}" (Obj.remove variables k) schema w
             = self2 "${username}" variables schema w) ->
  forall match_ varName w,
    Helpers.resolveHelperWith rt self1 (Obj.remove variables k) schema
      match_ varName w
    = Helpers.resolveHelperWith rt self2 variables schema match_ varName w.
Proof.
  intros Hk Hinh Hself match_ varName w.
  unfold Helpers.resolveHelperWith.
  repeat match goal with
         | |- (if ?c then _ else _) _ = (if ?c then _ else _) _ =>
             destruct c; [reflexivity |]
         end.
  destruct (Str.startsWith varName "jwt:").
  { now rewrite jwtWithParams_remove. }
  destruct (String.eqb varName "username"); [reflexivity |].
  destruct (String.eqb varName "email").
  { apply bind_ext; [apply Hself | reflexivity]. }
  now rewrite lookupOr_remove.
Qed.

Lemma processValueDepth_remove (rt : Runtime) (variables : Helpers.Vars)
      (k : string) (schema : Helpers.Schema) :
  Obj.get variables k = Some "" ->
  Obj.inherited k = false ->
  forall (depth : nat) (value : string) (w : World),
    Helpers.processValueDepth rt depth value (Obj.remove variables k) schema w
    = Helpers.processValueDepth rt depth value variables schema w.
Proof.
  intros Hk Hinh depth.
  induction depth as [|d IH]; intros value w; [reflexivity |].
  cbn [Helpers.processValueDepth]. unfold Helpers.processValueWith.
  destruct (String.eqb value ""); [reflexivity |].
  apply bind_ext.
  - apply replaceFrom_ext. intros m x s.
    apply resolveHelperWith_remove; [exact Hk | exact Hinh |].
    intros w0. apply IH.
  - intros processedValue s'. apply replaceFrom_ext. intros m x s.
    unfold Helpers.resolveVariable. now rewrite lookupOr_remove.
Qed.

(** C9, as the code has it.  When [k] is bound to the empty string and
    is not a name that objects inherit, resolving any template gives
    exactly what it gives with [k] removed from the map; and when the tag
    of [k] is not a helper name, both substitution callbacks answer an
    occurrence of the expression with the text of that occurrence. *)
Theorem empty_value_acts_as_undefined :
  forall (rt : Runtime) (variables : Helpers.Vars) (k : string),
    Obj.get variables k = Some "" ->
    (Obj.inherited k = false ->
     forall (template : string) (schema : Helpers.Schema) (w : World),
       Helpers.processValue rt template variables schema w
       = Helpers.processValue rt template (Obj.remove variables k) schema w)
    /\ (recognizedTag k = false ->
        forall (schema : Helpers.Schema) (w : World),
          Helpers.resolveHelper rt variables schema (Helpers.exprText k) k w
          = Ok (Helpers.exprText k) w
          /\ Helpers.resolveVariable variables (Helpers.exprText k) k w
             = Ok (Helpers.exprText k) w).
Proof.
  intros rt variables k Hk. split.
  - intros Hinh template schema w. unfold Helpers.processValue.
    symmetry. now apply processValueDepth_remove.
  - intros Htag schema w.
    assert (Hdefault :
              Helpers.lookupOr variables k (Helpers.exprText k)
              = Helpers.exprText k).
    { now rewrite (lookupOr_own _ _ _ _ Hk). }
    split.
    + unfold Helpers.resolveHelper.
      rewrite unknown_tag_default by exact Htag. now rewrite Hdefault.
    + unfold Helpers.resolveVariable, ret. now rewrite Hdefault.
Qed.

Lemma empty_value_acts_as_undefined_witness :
  Obj.get [("token", ""); ("db", "pg")] "token" = Some "" /\
  Obj.inherited "token" = false /\
  recognizedTag "token" = false /\
  Helpers.processValue Demo.rt "x=${token};y=${db}"
    [("token", ""); ("db", "pg")] Demo.schema Demo.w0
  = Helpers.processValue Demo.rt "x=${token};y=${db}"
      (Obj.remove [("token", ""); ("db", "pg")] "token") Demo.schema Demo.w0
  /\ Helpers.resolveHelper Demo.rt [("token", ""); ("db", "pg")]
       Demo.schema "${token}" "token" Demo.w0
     = Ok "${token}" Demo.w0.
Proof.
  split; [reflexivity |]. split; [reflexivity |]. split; [reflexivity |].
  destruct (empty_value_acts_as_undefined Demo.rt
              [("token", ""); ("db", "pg")] "token" eq_refl)
    as [Hsame Hliteral].
  split.
  - apply (Hsame eq_refl).
  - apply (proj1 (Hliteral eq_refl Demo.schema Demo.w0)).
Defined.

(** C9 as stated fails for a key that is also a helper name: with [uuid]
    bound to the empty string, [${uuid}] is replaced by a generated
    identifier. *)
Lemma empty_uuid_variable_is_generated :
  Obj.get [("uuid", "")] "uuid" = Some "" /\
  match Helpers.processValue Demo.rt "${uuid}" [("uuid", "")] Demo.schema
          Demo.w0 with
  | Ok s _ => s = "0b30557a-9fc4-490e-b358-7da2c7ec1136"
  | _ => False
  end.
Proof. split; vm_compute; reflexivity. Qed.

(** ** Property lists *)

Module ObjFacts.

Section Props.
Context {T : Type}.
Implicit Types (o : list (string * T)) (k p : string) (v : T).

Lemma has_In o k : Obj.has o k = true <-> In k (keysOf o).
Proof.
  induction o as [|[k' v'] o IH]; simpl.
  - split; [discriminate | contradiction].
  - rewrite orb_true_iff, IH, String.eqb_eq. reflexivity.
Qed.

Lemma has_false_get o k : Obj.has o k = false -> Obj.get o k = None.
Proof.
  unfold Obj.get. induction o as [|[k' v'] o IH]; simpl; [reflexivity |].
  destruct (String.eqb k' k); simpl; [discriminate | exact IH].
Qed.

Lemma keys_replace o k v : keysOf (Obj.replace o k v) = keysOf o.
Proof.
  induction o as [|[k' v'] o IH]; simpl; [reflexivity |].
  destruct (String.eqb k' k); simpl; [reflexivity | now rewrite IH].
Qed.

Lemma get_replace_same o k v :
  Obj.has o k = true -> Obj.get (Obj.replace o k v) k = Some v.
Proof.
  unfold Obj.get. induction o as [|[k' v'] o IH]; simpl; [discriminate |].
  destruct (String.eqb k' k) eqn:E; simpl; rewrite E; [reflexivity |].
  exact IH.
Qed.

Lemma get_replace_other o k p v :
  p <> k -> Obj.get (Obj.replace o k v) p = Obj.get o p.
Proof.
  intros Hne. unfold Obj.get.
  induction o as [|[k' v'] o IH]; simpl; [reflexivity |].
  destruct (String.eqb k' k) eqn:E; simpl.
  - apply String.eqb_eq in E. subst k'.
    destruct (String.eqb k p) eqn:F; [| reflexivity].
    apply String.eqb_eq in F. congruence.
  - destruct (String.eqb k' p); [reflexivity | exact IH].
Qed.

Lemma keys_insertIndex o i k v x :
  In x (keysOf (Obj.insertIndex o i k v)) <-> x = k \/ In x (keysOf o).
Proof.
  induction o as [|[k' v'] o IH]; simpl.
  - intuition.
  - destruct (Obj.arrayIndex k') as [j|]; [destruct (j <=? i)%Z |];
      simpl; rewrite ?IH; intuition.
Qed.

Lemma get_insertIndex_same o i k v :
  Obj.has o k = false -> Obj.get (Obj.insertIndex o i k v) k = Some v.
Proof.
  unfold Obj.get. induction o as [|[k' v'] o IH]; simpl.
  - now rewrite String.eqb_refl.
  - destruct (String.eqb k' k) eqn:E; simpl; [discriminate |].
    intros H.
    destruct (Obj.arrayIndex k') as [j|]; [destruct (j <=? i)%Z |];
      simpl; rewrite ?E, ?String.eqb_refl; auto.
Qed.

Lemma get_insertIndex_other o i k p v :
  p <> k -> Obj.get (Obj.insertIndex o i k v) p = Obj.get o p.
Proof.
  intros Hne. apply String.eqb_neq in Hne. rewrite String.eqb_sym in Hne.
  unfold Obj.get. induction o as [|[k' v'] o IH]; simpl.
  - now rewrite Hne.
  - destruct (Obj.arrayIndex k') as [j|]; [destruct (j <=? i)%Z |];
      simpl; rewrite ?Hne, ?IH; reflexivity.
Qed.

Lemma get_app_same o k v :
  Obj.has o k = false -> Obj.get (o ++ [(k, v)])%list k = Some v.
Proof.
  unfold Obj.get. induction o as [|[k' v'] o IH]; simpl.
  - now rewrite String.eqb_refl.
  - destruct (String.eqb k' k); simpl; [discriminate | exact IH].
Qed.

Lemma get_app_other o k p v :
  p <> k -> Obj.get (o ++ [(k, v)])%list p = Obj.get o p.
Proof.
  intros Hne. apply String.eqb_neq in Hne. rewrite String.eqb_sym in Hne.
  unfold Obj.get. induction o as [|[k' v'] o IH]; simpl.
  - now rewrite Hne.
  - destruct (String.eqb k' p); [reflexivity | exact IH].
Qed.

(** An assignment to [__proto__] stores nothing. *)
Lemma set_proto o v : Obj.set o "__proto__" v = o.
Proof. reflexivity. Qed.

Lemma set_ordinary o k v :
  k <> "__proto__" ->
  Obj.set o k v
  = if Obj.has o k then Obj.replace o k v
    else match Obj.arrayIndex k with
         | Some i => Obj.insertIndex o i k v
         | None => (o ++ [(k, v)])%list
         end.
Proof.
  intros Hk. unfold Obj.set. apply String.eqb_neq in Hk. now rewrite Hk.
Qed.

(** [o[k] = v] adds [k] to the keys, unless it is [__proto__], and
    nothing else. *)
Lemma keys_set o k v x :
  In x (keysOf (Obj.set o k v))
  <-> (k <> "__proto__" /\ x = k) \/ In x (keysOf o).
Proof.
  destruct (String.eqb k "__proto__") eqn:E.
  - apply String.eqb_eq in E. subst k. rewrite set_proto. intuition.
  - apply String.eqb_neq in E. rewrite (set_ordinary _ _ _ E).
    destruct (Obj.has o k) eqn:H.
    + rewrite keys_replace. apply has_In in H.
      split; [auto | intros [[_ ->] | ?]; assumption].
    + destruct (Obj.arrayIndex k) as [i|].
      * rewrite keys_insertIndex. intuition.
      * unfold keysOf. rewrite map_app, in_app_iff. simpl. intuition.
Qed.

(** An assignment to a key the object has keeps the keys as they are. *)
Lemma keys_set_present o k v :
  Obj.has o k = true -> keysOf (Obj.set o k v) = keysOf o.
Proof.
  intros H. unfold Obj.set.
  destruct (String.eqb k "__proto__"); [reflexivity |].
  rewrite H. apply keys_replace.
Qed.

(** After [o[k] = v], reading [k] gives [v] and every other key reads
    as before. *)
Lemma get_set_same o k v :
  k <> "__proto__" -> Obj.get (Obj.set o k v) k = Some v.
Proof.
  intros Hk. rewrite (set_ordinary _ _ _ Hk). destruct (Obj.has o k) eqn:H.
  - now apply get_replace_same.
  - destruct (Obj.arrayIndex k) as [i|].
    + now apply get_insertIndex_same.
    + now apply get_app_same.
Qed.

Lemma get_set_other o k p v :
  p <> k -> Obj.get (Obj.set o k v) p = Obj.get o p.
Proof.
  intros Hne. unfold Obj.set.
  destruct (String.eqb k "__proto__"); [reflexivity |].
  destruct (Obj.has o k).
  - now apply get_replace_other.
  - destruct (Obj.arrayIndex k) as [i|].
    + now apply get_insertIndex_other.
    + now apply get_app_other.
Qed.

Lemma keys_functional (l : list (string * T)) k v v' :
  NoDup (keysOf l) -> In (k, v) l -> In (k, v') l -> v = v'.
Proof.
  induction l as [|[k0 v0] l IH]; simpl; [contradiction |].
  intros Hnd [H1 | H1] [H2 | H2]; inversion Hnd as [|? ? Hnot Hnd']; subst.
  - congruence.
  - inversion H1; subst. exfalso. apply Hnot.
    change k with (fst (k, v')). now apply in_map.
  - inversion H2; subst. exfalso. apply Hnot.
    change k with (fst (k, v)). now apply in_map.
  - now apply IH.
Qed.

End Props.

End ObjFacts.

(** ** The keys of the resolved map *)

Lemma bind_ok_inv {X St A B} (m : M X St A) (k : A -> M X St B) s b s' :
  bind m k s = Ok b s' -> exists a s1, m s = Ok a s1 /\ k a s1 = Ok b s'.
Proof.
  unfold bind. destruct (m s) as [a s1 | |]; [| discriminate | discriminate].
  intros H. now exists a, s1.
Qed.

Lemma pass1Entry_string (schema : Helpers.Schema) (processed : Helpers.Vars)
      (key value : string) :
  Helpers.pass1Entry schema processed (key, JStr value)
  = bind (pass1Value schema value)
         (fun v => ret (Obj.set processed key v)).
Proof.
  unfold Helpers.pass1Entry, pass1Value.
  repeat match goal with
         | |- (if ?c then _ else _) = _ => destruct c; [reflexivity |]
         end.
  reflexivity.
Qed.

Lemma pass1Entry_keys (schema : Helpers.Schema) (acc acc' : Helpers.Vars)
      (k : string) (v : Val) (w w' : World) :
  Helpers.pass1Entry schema acc (k, v) w = Ok acc' w' ->
  forall x, In x (keysOf acc') <->
            (isString v = true /\ k <> "__proto__" /\ x = k)
            \/ In x (keysOf acc).
Proof.
  intros H x.
  destruct v as [| | b | n | s | items | props];
    try (cbn in H; inversion H; subst; cbn; intuition discriminate).
  rewrite pass1Entry_string in H.
  apply bind_ok_inv in H. destruct H as (r & w1 & _ & H).
  inversion H; subst. rewrite ObjFacts.keys_set. cbn. intuition.
Qed.

Lemma pass1Loop_keys (schema : Helpers.Schema) (entries : list (string * Val)) :
  forall (acc out : Helpers.Vars) (w w' : World),
    Helpers.pass1Loop schema entries acc w = Ok out w' ->
    forall x, In x (keysOf out) <->
              In x (keysOf acc)
              \/ (x <> "__proto__" /\ exists s, In (x, JStr s) entries).
Proof.
  induction entries as [|[k v] rest IH]; intros acc out w w' H x.
  - inversion H; subst. simpl.
    split; [auto | intros [?|[_ [s []]]]; assumption].
  - cbn [Helpers.pass1Loop] in H.
    apply bind_ok_inv in H. destruct H as (acc1 & w1 & Hentry & Hrest).
    rewrite (IH _ _ _ _ Hrest x), (pass1Entry_keys _ _ _ _ _ _ _ Hentry x).
    split.
    + intros [[(Hs & Hk & ->) | Hacc] | (Hx & s & Hin)].
      * destruct v; try discriminate. right. split; [exact Hk |].
        eexists. left. reflexivity.
      * now left.
      * right. split; [exact Hx |]. exists s. now right.
    + intros [Hacc | (Hx & s & [Heq | Hin])].
      * left. now right.
      * inversion Heq; subst. left. left. now repeat split.
      * right. split; [exact Hx |]. now exists s.
Qed.

Lemma pass2Loop_keys (rt : Runtime) (schema : Helpers.Schema)
      (entries : Helpers.Vars) :
  forall (acc out : Helpers.Vars) (w w' : World),
    Helpers.pass2Loop rt schema entries acc w = Ok out w' ->
    (forall k, In k (keysOf entries) -> In k (keysOf acc)) ->
    keysOf out = keysOf acc.
Proof.
  induction entries as [|[k v] rest IH]; intros acc out w w' H Hsub.
  - now inversion H.
  - cbn [Helpers.pass2Loop] in H.
    apply bind_ok_inv in H. destruct H as (r & w1 & _ & Hrest).
    assert (Hk : Obj.has acc k = true).
    { apply ObjFacts.has_In. apply Hsub. now left. }
    assert (Hkeys : keysOf (Obj.set acc k r) = keysOf acc)
      by (now apply ObjFacts.keys_set_present).
    rewrite (IH _ _ _ _ Hrest); [exact Hkeys |].
    intros k' Hin. rewrite Hkeys. apply Hsub. now right.
Qed.

(** C10, what the code does with the keys.  When [processVariables]
    returns, the keys of the map it returns are the keys of the input
    bound to strings, except [__proto__]: the assignment
    [processed[key] = ...] of the first pass stores nothing under that
    name, so a string-valued input key [__proto__] is absent from the
    output, where the claim asks for every string-valued key. *)
Theorem processVariables_drops_proto_key :
  forall (rt : Runtime) (variables : list (string * Val))
         (schema : Helpers.Schema) (w w' : World) (out : Helpers.Vars),
    NoDup (keysOf variables) ->
    Helpers.processVariables rt variables schema w = Ok out w' ->
    (forall k v, In (k, v) variables ->
                 (In k (keysOf out)
                  <-> isString v = true /\ k <> "__proto__"))
    /\ (forall k, In k (keysOf out) -> In k (keysOf variables)).
Proof.
  intros rt variables schema w w' out Hnd H.
  unfold Helpers.processVariables in H.
  apply bind_ok_inv in H. destruct H as (processed & w1 & H1 & H2).
  unfold Helpers.pass2 in H2.
  apply pass2Loop_keys in H2; [| auto].
  unfold Helpers.pass1 in H1.
  pose proof (pass1Loop_keys _ _ _ _ _ _ H1) as Hkeys.
  rewrite H2. split.
  - intros k v Hin. rewrite Hkeys. simpl. split.
    + intros [[] | (Hk & s & Hs)]. split; [| exact Hk].
      now rewrite (ObjFacts.keys_functional _ _ _ _ Hnd Hin Hs).
    + intros [Hv Hk]. right. split; [exact Hk |].
      destruct v; try discriminate. eexists. eassumption.
  - intros k Hin. apply Hkeys in Hin. destruct Hin as [[] | (_ & s & Hs)].
    change k with (fst (k, JStr s)). now apply in_map.
Qed.

(** The failing input of C10: a map with the string-valued keys
    [__proto__] and [a] comes back with the key [a] alone. *)
Lemma processVariables_drops_proto_key_witness :
  NoDup (keysOf [("__proto__", JStr "x"); ("a", JStr "y")]) /\
  Helpers.processVariables Demo.rt [("__proto__", JStr "x"); ("a", JStr "y")]
    Demo.schema Demo.w0 = Ok [("a", "y")] Demo.w0 /\
  ~ In "__proto__" (keysOf [("a", "y")]).
Proof.
  assert (Hnd : NoDup (keysOf [("__proto__", JStr "x"); ("a", JStr "y")])).
  { repeat constructor; simpl; intuition discriminate. }
  assert (Hrun :
            Helpers.processVariables Demo.rt
              [("__proto__", JStr "x"); ("a", JStr "y")] Demo.schema Demo.w0
            = Ok [("a", "y")] Demo.w0) by reflexivity.
  split; [exact Hnd |]. split; [exact Hrun |].
  intros Hin.
  apply (proj1 (proj1 (processVariables_drops_proto_key Demo.rt _ Demo.schema
                         Demo.w0 Demo.w0 _ Hnd Hrun)
                  "__proto__" (JStr "x") ltac:(now left))) in Hin.
  now destruct Hin as [_ Hne].
Defined.

(** ** The payload of a token *)

(** Whatever the payload parameter names, the payload handed to
    [generateJwt] is [undefined], or [Object.prototype] when the name is
    [__proto__] and the map has no such key: the result of [JSON.parse]
    is dropped by the test on [typeof payload] that follows it. *)
Lemma jwtWithParams_payload_undefined (rt : Runtime)
      (variables : Helpers.Vars) (varName : string) :
  Helpers.legacyForm (tl (Str.split ":" varName)) = false ->
  exists secret payload,
    Helpers.jwtWithParams rt variables varName
    = Helpers.jwtToken secret payload
    /\ (payload = JUndefined \/ payload = JObj []).
Proof.
  intros Hlegacy. unfold Helpers.jwtWithParams. rewrite Hlegacy.
  cbv zeta. eexists _, _. split; [reflexivity |].
  destruct (negb _); [now left | now right].
Qed.

Lemma jwt_header_text (w : World) :
  bind (Helpers.bufferFromJson Helpers.jwtHeader)
       (Helpers.toString Enc.base64url) w
  = Ok "eyJhbGciOiJIUzI1NiIsInR5cCI6IkpXVCJ9" w.
Proof.
  change (Helpers.bufferFromJson Helpers.jwtHeader)
    with (@ret Empty_set World string
            (String (ascii_of_nat 123)
               (String (ascii_of_nat 34)
                  ("alg" ++ String (ascii_of_nat 34)
                     (":" ++ String (ascii_of_nat 34)
                        ("HS256" ++ String (ascii_of_nat 34)
                           ("," ++ String (ascii_of_nat 34)
                              ("typ" ++ String (ascii_of_nat 34)
                                 (":" ++ String (ascii_of_nat 34)
                                    ("JWT" ++ String (ascii_of_nat 34)
                                       "}")))))))))).
  rewrite bind_ret.
  refine (toString_ok Enc.base64url _ w _). vm_compute. discriminate.
Qed.

Lemma jwt_empty_body_text (w : World) :
  bind (Helpers.bufferFromJson (JObj [])) (Helpers.toString Enc.base64url) w
  = Ok (Enc.base64url "{}") w.
Proof.
  change (Helpers.bufferFromJson (JObj []))
    with (@ret Empty_set World string "{}").
  rewrite bind_ret.
  refine (toString_ok Enc.base64url _ w _). vm_compute. discriminate.
Qed.

Lemma jwtToken_empty_payload (secret : Helpers.Secret) (payload : Val)
      (w w' : World) (s : string) :
  payload = JUndefined \/ payload = JObj [] ->
  Helpers.jwtToken secret payload w = Ok s w' ->
  exists signature,
    s = "eyJhbGciOiJIUzI1NiIsInR5cCI6IkpXVCJ9" ++ "." ++ Enc.base64url "{}"
        ++ "." ++ signature.
Proof.
  intros Hpayload H.
  assert (Hempty : (if truthy payload then payload else JObj []) = JObj [])
    by (destruct Hpayload; subst payload; reflexivity).
  unfold Helpers.jwtToken in H. cbv zeta in H. rewrite Hempty in H.
  apply bind_ok_inv in H. destruct H as (sec & w1 & _ & H).
  rewrite (bind_ok _ _ _ _ _ (jwt_header_text w1)) in H.
  rewrite (bind_ok _ _ _ _ _ (jwt_empty_body_text w1)) in H.
  apply bind_ok_inv in H. destruct H as (signature & w2 & _ & H).
  inversion H. now exists signature.
Qed.

(** C3: what the code does where the claim asks for the parsed object.
    For every expression [jwt:<params>] that is not of the legacy numeric
    form, every map and every JSON parser, the middle segment of the token
    is the encoding of the empty object. *)
Theorem jwt_payload_segment_is_always_empty :
  forall (rt : Runtime) (variables : Helpers.Vars) (schema : Helpers.Schema)
         (match_ params : string) (w w' : World) (s : string),
    Helpers.legacyForm (Str.split ":" params) = false ->
    Helpers.resolveHelper rt variables schema match_ ("jwt:" ++ params) w
    = Ok s w' ->
    exists signature,
      s = "eyJhbGciOiJIUzI1NiIsInR5cCI6IkpXVCJ9" ++ "." ++ Enc.base64url "{}"
          ++ "." ++ signature.
Proof.
  intros rt variables schema match_ params w w' s Hlegacy H.
  unfold Helpers.resolveHelper, Helpers.resolveHelperWith in H.
  cbn [String.eqb Ascii.eqb Bool.eqb append Str.startsWith String.prefix
       ascii_dec ascii_rec ascii_rect bool_dec bool_rec bool_rect sumbool_rec
       sumbool_rect orb] in H.
  rewrite StrFacts.prefix_nil in H.
  destruct (jwtWithParams_payload_undefined rt variables ("jwt:" ++ params))
    as (secret & payload & Hjwt & Hpayload).
  { cbn. exact Hlegacy. }
  cbn [append] in Hjwt. rewrite Hjwt in H.
  now apply (jwtToken_empty_payload secret payload w w' s Hpayload).
Qed.

(** The failing input of C3: the payload variable holds a JSON object,
    the parser reads it, and the token still carries the empty object. *)
Lemma jwt_payload_segment_is_always_empty_witness :
  Helpers.legacyForm (Str.split ":" "s3cret:claims") = false /\
  jsonParse Demo.rt Demo.claimsText = Some Demo.claims /\
  Enc.base64url Demo.claimsText = "eyJyb2xlIjoiYWRtaW4ifQ" /\
  exists s w',
    Helpers.resolveHelper Demo.rt [("claims", Demo.claimsText)] Demo.schema
      "${jwt:s3cret:claims}" "jwt:s3cret:claims" Demo.w0 = Ok s w'
    /\ exists signature,
         s = "eyJhbGciOiJIUzI1NiIsInR5cCI6IkpXVCJ9" ++ "." ++ "e30" ++ "."
             ++ signature.
Proof.
  split; [reflexivity |]. split; [reflexivity |]. split; [reflexivity |].
  destruct (Helpers.resolveHelper Demo.rt [("claims", Demo.claimsText)]
              Demo.schema "${jwt:s3cret:claims}" "jwt:s3cret:claims" Demo.w0)
    as [s w' | |] eqn:Hrun;
    [| vm_compute in Hrun; discriminate | vm_compute in Hrun; discriminate].
  exists s, w'. split; [reflexivity |].
  exact (jwt_payload_segment_is_always_empty Demo.rt
           [("claims", Demo.claimsText)] Demo.schema "${jwt:s3cret:claims}"
           "s3cret:claims" Demo.w0 w' s eq_refl Hrun).
Defined.

(** ** The first pass *)

Lemma drop_app (p x : string) : Str.drop (String.length p) (p ++ x) = x.
Proof. induction p as [|c p IH]; simpl; [now destruct x | exact IH]. Qed.

Lemma spanDigits_app (ds : string) (c : ascii) (t : string) :
  forallb Str.isDigit (list_ascii_of_string ds) = true ->
  Str.isDigit c = false ->
  Str.spanDigits (ds ++ String c t) = (ds, String c t).
Proof.
  intros Hds Hc. induction ds as [|d ds IH]; simpl in *.
  - now rewrite Hc.
  - apply andb_true_iff in Hds. destruct Hds as [Hd Hds].
    now rewrite Hd, (IH Hds).
Qed.

Lemma spanDigits_all (ds : string) :
  forallb Str.isDigit (list_ascii_of_string ds) = true ->
  Str.spanDigits ds = (ds, "").
Proof.
  intros Hds. induction ds as [|d ds IH]; simpl in *; [reflexivity |].
  apply andb_true_iff in Hds. destruct Hds as [Hd Hds].
  now rewrite Hd, (IH Hds).
Qed.

Lemma whiteSpaceWidth_digit (d : ascii) (r : string) :
  Str.isDigit d = true -> Str.whiteSpaceWidth (String d r) = 0.
Proof.
  intros Hd.
  destruct d as [[] [] [] [] [] [] [] []]; try discriminate Hd;
    destruct r as [|b [|c r]]; reflexivity.
Qed.

(** [Number.parseInt] of a run of digits is the double nearest to its
    value. *)
Lemma parseInt_digits (ds : string) :
  digitString ds -> Num.parseInt ds = Num.toDouble (Num.digitsValue ds).
Proof.
  intros [Hne Hds]. destruct ds as [|d r]; [contradiction |].
  assert (Hd : Str.isDigit d = true).
  { simpl in Hds. now apply andb_true_iff in Hds. }
  assert (Htrim : Str.trimStart (String d r) = String d r).
  { unfold Str.trimStart. cbn [Str.trimFrom].
    now rewrite (whiteSpaceWidth_digit d r Hd). }
  unfold Num.parseInt, Num.readInt. rewrite Htrim.
  destruct d as [[] [] [] [] [] [] [] []]; try discriminate Hd;
    cbv beta iota zeta; rewrite (spanDigits_all _ Hds); reflexivity.
Qed.

Lemma pass1Value_untouched (schema : Helpers.Schema) (value : string) :
  untouchedByPass1 value = true -> pass1Value schema value = ret value.
Proof.
  unfold untouchedByPass1, pass1Value. intros H.
  destruct (String.eqb value "${domain}"); [discriminate |].
  destruct (Str.startsWith value "${base64:"); [discriminate |].
  destruct (Str.startsWith value "${password:"); [discriminate |].
  destruct (String.eqb value "${hash}"); [discriminate |].
  destruct (Str.startsWith value "${hash:"); [discriminate |].
  reflexivity.
Qed.

Lemma pass1Entry_frame (schema : Helpers.Schema) (acc acc' : Helpers.Vars)
      (k0 : string) (v0 : Val) (w w' : World) (k : string) :
  Helpers.pass1Entry schema acc (k0, v0) w = Ok acc' w' ->
  k <> k0 -> Obj.get acc' k = Obj.get acc k.
Proof.
  intros H Hne.
  destruct v0 as [| | b | n | s | items | props];
    try (cbn in H; inversion H; subst; reflexivity).
  rewrite pass1Entry_string in H.
  apply bind_ok_inv in H. destruct H as (r & w1 & _ & H).
  inversion H; subst. now apply ObjFacts.get_set_other.
Qed.

(** What the first loop leaves in the map: for a string entry, a value
    its branch produced; for a key it does not meet, what was there. *)
Lemma pass1Loop_values (schema : Helpers.Schema)
      (entries : list (string * Val)) :
  forall (acc out : Helpers.Vars) (w w' : World),
    NoDup (keysOf entries) ->
    Helpers.pass1Loop schema entries acc w = Ok out w' ->
    (forall k, ~ In k (keysOf entries) -> Obj.get out k = Obj.get acc k)
    /\ (forall k v, In (k, JStr v) entries -> k <> "__proto__" ->
                    exists r w0 w1,
                      pass1Value schema v w0 = Ok r w1
                      /\ Obj.get out k = Some r).
Proof.
  induction entries as [|[k0 v0] rest IH]; intros acc out w w' Hnd H.
  - inversion H; subst. split; [reflexivity | contradiction].
  - cbn [Helpers.pass1Loop] in H.
    apply bind_ok_inv in H. destruct H as (acc1 & w1 & Hentry & Hrest).
    inversion Hnd as [|? ? Hnot Hnd']; subst.
    destruct (IH _ _ _ _ Hnd' Hrest) as [Hframe Hvalues].
    split.
    + intros k Hk.
      assert (Hk0 : k <> k0) by (intros ->; apply Hk; now left).
      assert (Hkr : ~ In k (keysOf rest)) by (intros ?; apply Hk; now right).
      rewrite (Hframe k Hkr).
      exact (pass1Entry_frame _ _ _ _ _ _ _ _ Hentry Hk0).
    + intros k v [Heq | Hin] Hk; [| now apply Hvalues].
      inversion Heq; subst.
      rewrite pass1Entry_string in Hentry.
      apply bind_ok_inv in Hentry. destruct Hentry as (r & w2 & Hgen & Hset).
      inversion Hset; subst.
      eexists r, w, _. split; [exact Hgen |].
      rewrite Hframe by exact Hnot.
      now apply ObjFacts.get_set_same.
Qed.

(** C1 at its failing inputs.  The first pass has a branch for the
    bare [${hash}] and none for the bare [${password}] and [${base64}]:
    when it returns, an entry whose whole value is [${hash}] holds a
    generated hash, and an entry whose whole value is [${password}] or
    [${base64}] holds that text unchanged, where the claim asks for a
    generated value before any cross-reference substitution. *)
Theorem pass1_skips_bare_password_and_base64 :
  forall (variables : list (string * Val)) (schema : Helpers.Schema)
         (w w' : World) (processed : Helpers.Vars),
    NoDup (keysOf variables) ->
    Helpers.pass1 variables schema w = Ok processed w' ->
    forall k v,
      In (k, JStr v) variables -> k <> "__proto__" ->
      (v = "${password}" \/ v = "${base64}" -> Obj.get processed k = Some v)
      /\ (v = "${hash}" ->
          exists r w0 w1,
            Helpers.generateHash (NInt 8) w0 = Ok r w1
            /\ Obj.get processed k = Some r).
Proof.
  intros variables schema w w' processed Hnd H k v Hin Hk.
  destruct (pass1Loop_values _ _ _ _ _ _ Hnd H) as [_ Hvalues].
  destruct (Hvalues k v Hin Hk) as (r & w0 & w1 & Hgen & Hget).
  split.
  - intros Hbare.
    assert (Hun : untouchedByPass1 v = true)
      by (destruct Hbare; subst v; reflexivity).
    rewrite pass1Value_untouched in Hgen by exact Hun.
    inversion Hgen; subst. exact Hget.
  - intros ->. now exists r, w0, w1.
Qed.

(** The failing input of C1: the entry [b] is bound to [${password}] and
    the entry [a] refers to it.  The first pass keeps the text, so the
    second pass gives [a] the text [${password}] itself; with [${hash}]
    in its place both entries hold the same generated hash. *)
Lemma pass1_skips_bare_password_and_base64_witness :
  NoDup (keysOf [("a", JStr "${b}"); ("b", JStr "${password}")]) /\
  "b" <> "__proto__" /\
  (exists processed w',
      Helpers.pass1 [("a", JStr "${b}"); ("b", JStr "${password}")]
        Demo.schema Demo.w0 = Ok processed w'
      /\ Obj.get processed "b" = Some "${password}") /\
  match Helpers.processVariables Demo.rt
          [("a", JStr "${b}"); ("b", JStr "${password}")]
          Demo.schema Demo.w0 with
  | Ok out _ => out = [("a", "${password}"); ("b", "Ns^Uze1Hm9Ot&VAf")]
  | _ => False
  end /\
  match Helpers.processVariables Demo.rt
          [("a", JStr "${b}"); ("b", JStr "${hash}")]
          Demo.schema Demo.w0 with
  | Ok out _ => out = [("a", "0b30557a9fc4e90e"); ("b", "0b30557a9fc4e90e")]
  | _ => False
  end.
Proof.
  assert (Hnd : NoDup (keysOf [("a", JStr "${b}");
                               ("b", JStr "${password}")])).
  { repeat constructor; simpl; intuition discriminate. }
  split; [exact Hnd |]. split; [discriminate |].
  split; [| split; vm_compute; reflexivity].
  destruct (Helpers.pass1 [("a", JStr "${b}"); ("b", JStr "${password}")]
              Demo.schema Demo.w0)
    as [processed w' | |] eqn:Hrun;
    [| vm_compute in Hrun; discriminate | vm_compute in Hrun; discriminate].
  exists processed, w'. split; [reflexivity |].
  apply (proj1 (pass1_skips_bare_password_and_base64 _ Demo.schema Demo.w0
                  w' processed Hnd Hrun "b" "${password}"
                  ltac:(simpl; auto) ltac:(discriminate))).
  now left.
Defined.

(** ** Strings without expressions *)

Lemma matchesFrom_nil_inv (c : ascii) (r : string) :
  Helpers.matchesFrom 0 (String c r) = [] ->
  Helpers.matchExpr (String c r) = None /\ Helpers.matchesFrom 0 r = [].
Proof.
  cbn [Helpers.matchesFrom].
  destruct (Helpers.matchExpr (String c r)); [discriminate | auto].
Qed.

(** On a string without expressions the scan changes nothing and calls
    no callback. *)
Lemma replaceFrom_clean {X St} (cb : string -> string -> M X St string) :
  forall (text : string) (s : St),
    Helpers.expressions text = [] ->
    Helpers.replaceFrom cb 0 text s = Ok text s.
Proof.
  unfold Helpers.expressions.
  induction text as [|c r IH]; intros s H; [reflexivity |].
  apply matchesFrom_nil_inv in H. destruct H as [Hm Hr].
  cbn [Helpers.replaceFrom]. rewrite Hm.
  now rewrite (bind_ok _ _ _ _ _ (IH s Hr)).
Qed.

Lemma processValue_clean (rt : Runtime) (value : string)
      (variables : Helpers.Vars) (schema : Helpers.Schema) (w : World) :
  Helpers.expressions value = [] ->
  Helpers.processValue rt value variables schema w = Ok value w.
Proof.
  intros H. unfold Helpers.processValue. cbn [Helpers.processValueDepth].
  unfold Helpers.processValueWith, Helpers.replaceAll.
  destruct (String.eqb value ""); [reflexivity |].
  rewrite (bind_ok _ _ _ _ _ (replaceFrom_clean _ value w H)).
  now apply replaceFrom_clean.
Qed.

Lemma untilBrace_spanDigits (x : string) :
  forall ds rest,
    Str.spanDigits x = (ds, String "}" rest) ->
    Helpers.untilBrace x = Some ds.
Proof.
  induction x as [|c r IH]; intros ds rest H; simpl in H; [discriminate |].
  destruct (Str.isDigit c) eqn:Hc.
  - destruct (Str.spanDigits r) as [d t] eqn:Hr. inversion H; subst.
    cbn [Helpers.untilBrace].
    destruct (Ascii.eqb c "}") eqn:E.
    + apply Ascii.eqb_eq in E. subst c. discriminate Hc.
    + now rewrite (IH d rest eq_refl).
  - inversion H; subst. reflexivity.
Qed.

(** The length search of the first pass finds nothing in a string
    without expressions: what it looks for is an expression. *)
Lemma searchLength_clean (prefix : string) :
  (forall x ds, Helpers.untilBrace x = Some ds ->
                Helpers.matchExpr (prefix ++ x) <> None) ->
  forall value,
    Helpers.expressions value = [] ->
    Helpers.searchLength prefix value = None.
Proof.
  intros Hprefix. unfold Helpers.expressions.
  assert (Hhere : forall value,
             Helpers.matchExpr value = None ->
             (if Str.startsWith value prefix then
                match Str.spanDigits (Str.drop (String.length prefix) value)
                with
                | (String d ds, String "}" _) => Some (String d ds)
                | _ => None
                end
              else None) = None).
  { intros value Hm.
    destruct (Str.startsWith value prefix) eqn:Hs; [| reflexivity].
    apply StrFacts.startsWith_inv in Hs. destruct Hs as [x ->].
    rewrite drop_app.
    destruct (Str.spanDigits x) as [ds t] eqn:Hx.
    destruct ds as [|d ds]; [reflexivity |].
    destruct t as [|c t]; [reflexivity |].
    destruct (Ascii.eqb c "}") eqn:E.
    - apply Ascii.eqb_eq in E. subst c.
      apply untilBrace_spanDigits in Hx.
      now apply Hprefix in Hx.
    - destruct c as [[] [] [] [] [] [] [] []]; try reflexivity.
      discriminate E. }
  induction value as [|c r IH]; intros H.
  - cbn [Helpers.searchLength]. now rewrite Hhere.
  - apply matchesFrom_nil_inv in H. destruct H as [Hm Hr].
    cbn [Helpers.searchLength]. rewrite (Hhere _ Hm). now apply IH.
Qed.

Lemma lengthOr_clean (prefix value : string) (fallback : Number) :
  (forall x ds, Helpers.untilBrace x = Some ds ->
                Helpers.matchExpr (prefix ++ x) <> None) ->
  Helpers.expressions value = [] ->
  Helpers.lengthOr prefix value fallback = fallback.
Proof.
  intros Hp Hv. unfold Helpers.lengthOr.
  now rewrite (searchLength_clean prefix Hp value Hv).
Qed.

Lemma prefix_base64_expr x ds :
  Helpers.untilBrace x = Some ds ->
  Helpers.matchExpr ("${base64:" ++ x) <> None.
Proof. intros H. cbn. rewrite H. discriminate. Qed.

Lemma prefix_password_expr x ds :
  Helpers.untilBrace x = Some ds ->
  Helpers.matchExpr ("${password:" ++ x) <> None.
Proof. intros H. cbn. rewrite H. discriminate. Qed.

Lemma prefix_hash_expr x ds :
  Helpers.untilBrace x = Some ds ->
  Helpers.matchExpr ("${hash:" ++ x) <> None.
Proof. intros H. cbn. rewrite H. discriminate. Qed.

(** ** Names that objects inherit *)

Lemma inherited_In (name : string) :
  Obj.inherited name = true -> In name Obj.prototypeNames.
Proof.
  unfold Obj.inherited. intros H. apply existsb_exists in H.
  destruct H as (x & Hx & E). apply String.eqb_eq in E. now subst x.
Qed.

(** An inherited name is no helper name, it can stand in an expression,
    and the text of what it names holds no expression and is not the
    expression itself. *)
Lemma inheritedText_plain (name : string) :
  In name Obj.prototypeNames ->
  recognizedTag name = false
  /\ expressionBody name
  /\ Helpers.expressions (Obj.inheritedText name) = []
  /\ Obj.inheritedText name <> Helpers.exprText name.
Proof.
  intros H.
  repeat (destruct H as [<- | H];
          [vm_compute; repeat split; try reflexivity; discriminate |]).
  destruct H.
Qed.

(** C4 at its failing inputs.  A body that is one of the names every
    object inherits from [Object.prototype] ([constructor], [toString],
    ...) has a tag that is no helper name, and need not be a key of the
    map.  The lookup [variables[body]] finds the inherited value all the
    same, and [processValue] puts its text in place of the expression,
    where the claim asks for the literal text. *)
Theorem inherited_name_is_substituted :
  forall (rt : Runtime) (variables : Helpers.Vars) (schema : Helpers.Schema)
         (name : string) (w : World),
    Obj.inherited name = true ->
    Obj.get variables name = None ->
    recognizedTag name = false
    /\ Helpers.processValue rt (Helpers.exprText name) variables schema w
       = Ok (Obj.inheritedText name) w
    /\ Obj.inheritedText name <> Helpers.exprText name.
Proof.
  intros rt variables schema name w Hinh Hget.
  destruct (inheritedText_plain name (inherited_In name Hinh))
    as (Htag & Hbody & Hplain & Hdiff).
  split; [exact Htag |]. split; [| exact Hdiff].
  assert (Hcb :
            Helpers.resolveHelper rt variables schema
              (Helpers.exprText name) name w
            = Ok (Obj.inheritedText name) w).
  { unfold Helpers.resolveHelper.
    rewrite unknown_tag_default by exact Htag.
    now rewrite (lookupOr_inherited _ _ _ Hget Hinh). }
  unfold Helpers.processValue. cbn [Helpers.processValueDepth].
  unfold Helpers.processValueWith.
  change (String.eqb (Helpers.exprText name) "") with false. cbv iota.
  rewrite (bind_ok _ _ _ _ _
             (replaceAll_single _ name _ w w Hbody Hcb)).
  unfold Helpers.replaceAll. now apply replaceFrom_clean.
Qed.

(** The failing input of C4: [${constructor}] against the empty map. *)
Lemma inherited_name_is_substituted_witness :
  Obj.inherited "constructor" = true /\
  Obj.get (@nil (string * string)) "constructor" = None /\
  recognizedTag "constructor" = false /\
  Helpers.processValue Demo.rt "${constructor}" [] Demo.schema Demo.w0
  = Ok "function Object() { [native code] }" Demo.w0.
Proof.
  split; [reflexivity |]. split; [reflexivity |].
  destruct (inherited_name_is_substituted Demo.rt [] Demo.schema
              "constructor" Demo.w0 eq_refl eq_refl) as (Htag & Hrun & _).
  split; [exact Htag | exact Hrun].
Defined.

(** ** Generated values are settled *)

Lemma noOpenBrace_app (a b : string) :
  noOpenBrace (a ++ b) = noOpenBrace a && noOpenBrace b.
Proof.
  induction a as [|c a IH]; simpl; [reflexivity |].
  now rewrite IH, andb_assoc.
Qed.

Lemma noOpenBrace_expressions (s : string) :
  noOpenBrace s = true -> Helpers.expressions s = [].
Proof.
  unfold Helpers.expressions.
  induction s as [|c r IH]; intros H; [reflexivity |].
  simpl in H. apply andb_true_iff in H. destruct H as [_ Hr].
  cbn [Helpers.matchesFrom].
  assert (Hm : Helpers.matchExpr (String c r) = None).
  { destruct r as [|d r']; [reflexivity |].
    simpl in Hr. apply andb_true_iff in Hr. destruct Hr as [Hd _].
    apply negb_true_iff in Hd. unfold Helpers.matchExpr.
    now rewrite Hd, andb_false_r. }
  rewrite Hm. now apply IH.
Qed.

Lemma noOpenBrace_settled (s : string) : noOpenBrace s = true -> settled s.
Proof.
  intros H. split; [now apply noOpenBrace_expressions |].
  unfold untouchedByPass1.
  repeat match goal with
         | |- context [String.eqb s ?t] =>
             let E := fresh "E" in
             destruct (String.eqb s t) eqn:E;
             [ apply String.eqb_eq in E; subst s; discriminate H | ]
         | |- context [Str.startsWith s ?p] =>
             let E := fresh "E" in
             destruct (Str.startsWith s p) eqn:E;
             [ apply StrFacts.startsWith_inv in E; destruct E as [x E];
               subst s; discriminate H | ]
         end.
  reflexivity.
Qed.

Lemma charAt_noOpenBrace (alphabet : string) :
  noOpenBrace alphabet = true ->
  forall i, noOpenBrace (Enc.charAt alphabet i) = true.
Proof.
  unfold Enc.charAt.
  induction alphabet as [|c a IH]; intros H i; [reflexivity |].
  simpl in H. apply andb_true_iff in H. destruct H as [Hc Ha].
  destruct i as [|i]; simpl.
  - now rewrite Hc.
  - now apply IH.
Qed.

Lemma hex_noOpenBrace (buf : string) : noOpenBrace (Enc.hex buf) = true.
Proof.
  induction buf as [|c r IH]; [reflexivity |].
  cbn [Enc.hex]. rewrite !noOpenBrace_app, IH.
  now rewrite !charAt_noOpenBrace.
Qed.

Lemma base64With_noOpenBrace (alphabet : string) (pad : bool) :
  noOpenBrace alphabet = true ->
  forall n buf, String.length buf <= n ->
                noOpenBrace (Enc.base64With alphabet pad buf) = true.
Proof.
  intros Ha.
  induction n as [|n IH]; intros buf Hlen.
  - destruct buf; [reflexivity | simpl in Hlen; lia].
  - destruct buf as [|a [|b [|c r]]]; [reflexivity | | |];
      cbn [Enc.base64With]; rewrite !noOpenBrace_app;
      rewrite ?charAt_noOpenBrace by exact Ha.
    + now destruct pad.
    + now destruct pad.
    + simpl. apply IH. simpl in Hlen. lia.
Qed.

Lemma base64_noOpenBrace (buf : string) : noOpenBrace (Enc.base64 buf) = true.
Proof.
  unfold Enc.base64.
  apply (base64With_noOpenBrace Enc.base64Alphabet true eq_refl
           (String.length buf)).
  apply Nat.le_refl.
Qed.

Lemma passwordLoop_noOpenBrace (n : nat) :
  forall (acc : string) (w : World),
    (Z.of_nat (String.length acc + n) <= Str.maxLength)%Z ->
    noOpenBrace acc = true ->
    exists s w', Helpers.passwordLoop n acc w = Ok s w'
                 /\ noOpenBrace s = true.
Proof.
  induction n as [|n IH]; intros acc w Hfit Hacc.
  - now exists acc, w.
  - destruct (passwordLoop_step n acc w) as (i & w1 & Hi & _ & _ & ->).
    assert (Hlen : String.length
                     (acc ++ Enc.charAt Helpers.charset (Z.to_nat i))
                   = S (String.length acc)).
    { rewrite StrFacts.length_append, StrFacts.charAt_length; lia. }
    rewrite tooLong_false by lia.
    apply IH; [lia |]. rewrite noOpenBrace_app, Hacc.
    now rewrite charAt_noOpenBrace.
Qed.

(** On a value without expressions the first pass either keeps the value
    or stores a freshly generated one; either way the stored value is
    settled, and nothing is thrown. *)
Lemma pass1Value_clean (schema : Helpers.Schema) (value : string) (w : World) :
  Helpers.expressions value = [] ->
  exists r w', pass1Value schema value w = Ok r w' /\ settled r.
Proof.
  intros Hv. unfold pass1Value.
  destruct (String.eqb value "${domain}") eqn:E1.
  { apply String.eqb_eq in E1. subst value. discriminate Hv. }
  destruct (Str.startsWith value "${base64:") eqn:E2.
  { rewrite (lengthOr_clean _ _ _ prefix_base64_expr Hv).
    eexists _, _. split.
    - apply (generateBase64_exact 32 w). lia.
    - apply noOpenBrace_settled, base64_noOpenBrace. }
  destruct (Str.startsWith value "${password:") eqn:E3.
  { rewrite (lengthOr_clean _ _ _ prefix_password_expr Hv).
    destruct (passwordLoop_noOpenBrace (Z.to_nat 16) "" w) as (s & w' & Hs & Hno).
    { vm_compute. discriminate. }
    { reflexivity. }
    exists s, w'. split; [exact Hs | now apply noOpenBrace_settled]. }
  destruct (String.eqb value "${hash}") eqn:E4.
  { apply String.eqb_eq in E4. subst value. discriminate Hv. }
  destruct (Str.startsWith value "${hash:") eqn:E5.
  { rewrite (lengthOr_clean _ _ _ prefix_hash_expr Hv).
    eexists _, _. split.
    - apply (generateHash_exact 8 w). lia.
    - apply noOpenBrace_settled, hex_noOpenBrace. }
  exists value, w. split; [reflexivity |].
  split; [exact Hv |].
  unfold untouchedByPass1. now rewrite E1, E2, E3, E4, E5.
Qed.

(** ** Objects keep their enumeration order *)

Lemma keyOrder_trans (a b c : string) :
  keyOrder a b -> keyOrder b c -> keyOrder a c.
Proof.
  unfold keyOrder.
  destruct (Obj.arrayIndex a), (Obj.arrayIndex b), (Obj.arrayIndex c);
    intros; try tauto; lia.
Qed.

Section CanonicalFacts.
Context {T : Type}.
Implicit Types (o : list (string * T)) (k : string) (v : T).

Lemma sorted_insertIndex o i k v :
  Obj.arrayIndex k = Some i ->
  StronglySorted keyOrder (keysOf o) ->
  StronglySorted keyOrder (keysOf (Obj.insertIndex o i k v)).
Proof.
  intros Hk. induction o as [|[k' v'] o IH]; intros Hs; simpl.
  - repeat constructor.
  - simpl in Hs. inversion Hs as [|? ? Hs' Hall]; subst.
    destruct (Obj.arrayIndex k') as [j|] eqn:Hk';
      [destruct (j <=? i)%Z eqn:Hji |]; simpl.
    + constructor; [now apply IH |].
      apply Forall_forall. intros x Hx.
      apply ObjFacts.keys_insertIndex in Hx. destruct Hx as [-> | Hx].
      * unfold keyOrder. rewrite Hk', Hk. now apply Z.leb_le.
      * rewrite Forall_forall in Hall. now apply Hall.
    + assert (Hkk' : keyOrder k k').
      { unfold keyOrder. rewrite Hk, Hk'. apply Z.leb_gt in Hji. lia. }
      constructor; [exact Hs |].
      constructor; [exact Hkk' |].
      apply Forall_forall. intros x Hx.
      rewrite Forall_forall in Hall.
      exact (keyOrder_trans _ _ _ Hkk' (Hall x Hx)).
    + assert (Hkk' : keyOrder k k').
      { unfold keyOrder. now rewrite Hk, Hk'. }
      constructor; [exact Hs |].
      constructor; [exact Hkk' |].
      apply Forall_forall. intros x Hx.
      rewrite Forall_forall in Hall.
      exact (keyOrder_trans _ _ _ Hkk' (Hall x Hx)).
Qed.

Lemma sorted_app_other (l : list string) k :
  Obj.arrayIndex k = None ->
  StronglySorted keyOrder l ->
  StronglySorted keyOrder (l ++ [k]).
Proof.
  intros Hk. induction l as [|a l IH]; intros Hs; simpl.
  - repeat constructor.
  - inversion Hs as [|? ? Hs' Hall]; subst.
    constructor; [now apply IH |].
    apply Forall_app. split; [exact Hall |].
    constructor; [| constructor].
    unfold keyOrder. rewrite Hk. now destruct (Obj.arrayIndex a).
Qed.

Lemma nodup_insertIndex o i k v :
  ~ In k (keysOf o) -> NoDup (keysOf o) ->
  NoDup (keysOf (Obj.insertIndex o i k v)).
Proof.
  induction o as [|[k' v'] o IH]; intros Hk Hnd; simpl.
  - repeat constructor. intros [].
  - simpl in Hk, Hnd. inversion Hnd as [|? ? Hnot Hnd']; subst.
    assert (Hcons : NoDup (k :: k' :: keysOf o)).
    { constructor; [exact Hk | exact Hnd]. }
    destruct (Obj.arrayIndex k') as [j|]; [destruct (j <=? i)%Z |];
      simpl; try exact Hcons.
    constructor.
    + intros Hx. apply ObjFacts.keys_insertIndex in Hx.
      destruct Hx as [-> | Hx]; [apply Hk; now left | contradiction].
    + apply IH; [| exact Hnd']. intros Hx. apply Hk. now right.
Qed.

Lemma nodup_app_new (l : list string) k :
  ~ In k l -> NoDup l -> NoDup (l ++ [k]).
Proof.
  induction l as [|a l IH]; intros Hk Hnd; simpl.
  - repeat constructor. intros [].
  - inversion Hnd as [|? ? Hnot Hnd']; subst. constructor.
    + rewrite in_app_iff. simpl. intros [Hx | [-> | []]];
        [contradiction | apply Hk; now left].
    + apply IH; [| exact Hnd']. intros Hx. apply Hk. now right.
Qed.

(** Assignment keeps an object canonical. *)
Lemma canonical_set o k v : Canonical o -> Canonical (Obj.set o k v).
Proof.
  intros (Hnd & Hs & Hp).
  destruct (String.eqb k "__proto__") eqn:E.
  { apply String.eqb_eq in E. subst k. rewrite ObjFacts.set_proto.
    now repeat split. }
  apply String.eqb_neq in E.
  assert (Hproto : ~ In "__proto__" (keysOf (Obj.set o k v))).
  { rewrite ObjFacts.keys_set. intros [[_ Heq] | Hin]; congruence. }
  unfold Canonical. split; [| split; [| exact Hproto]];
    rewrite (ObjFacts.set_ordinary _ _ _ E);
    destruct (Obj.has o k) eqn:Hhas;
    try (now rewrite ObjFacts.keys_replace);
    assert (Hk : ~ In k (keysOf o))
      by (intros Hx; apply ObjFacts.has_In in Hx; congruence);
    destruct (Obj.arrayIndex k) as [i|] eqn:Hi.
  - now apply nodup_insertIndex.
  - unfold keysOf. rewrite map_app. simpl. now apply nodup_app_new.
  - now apply sorted_insertIndex.
  - unfold keysOf. rewrite map_app. simpl. now apply sorted_app_other.
Qed.

Lemma insertIndex_end o i k v :
  (forall k', In k' (keysOf o) ->
              exists j, Obj.arrayIndex k' = Some j /\ (j <= i)%Z) ->
  Obj.insertIndex o i k v = (o ++ [(k, v)])%list.
Proof.
  induction o as [|[k' v'] o IH]; intros H; simpl; [reflexivity |].
  destruct (H k' ltac:(simpl; now left)) as (j & Hj & Hle).
  rewrite Hj. apply Z.leb_le in Hle. rewrite Hle.
  rewrite IH; [reflexivity |].
  intros x Hx. apply H. simpl. now right.
Qed.

Lemma sorted_before (l1 l2 : list string) k :
  StronglySorted keyOrder (l1 ++ k :: l2) ->
  forall x, In x l1 -> keyOrder x k.
Proof.
  induction l1 as [|a l1 IH]; intros Hs x Hx; [contradiction |].
  simpl in Hs. inversion Hs as [|? ? Hs' Hall]; subst.
  destruct Hx as [-> | Hx]; [| now apply IH].
  rewrite Forall_forall in Hall. apply Hall.
  rewrite in_app_iff. right. now left.
Qed.

(** Assigning the next entry of a canonical list to the entries before
    it puts it at the end. *)
Lemma set_next o1 o2 k v :
  Canonical (o1 ++ (k, v) :: o2)%list ->
  Obj.set o1 k v = (o1 ++ [(k, v)])%list.
Proof.
  intros (Hnd & Hs & Hp). unfold keysOf in Hnd, Hs, Hp.
  rewrite map_app in Hnd, Hs, Hp. simpl in Hnd, Hs, Hp.
  assert (Hproto : k <> "__proto__").
  { intros ->. apply Hp. rewrite in_app_iff. right. now left. }
  assert (Hk : ~ In k (keysOf o1)).
  { intros Hx. apply NoDup_remove_2 in Hnd. apply Hnd.
    rewrite in_app_iff. now left. }
  assert (Hhas : Obj.has o1 k = false).
  { destruct (Obj.has o1 k) eqn:E; [| reflexivity].
    apply ObjFacts.has_In in E. contradiction. }
  rewrite (ObjFacts.set_ordinary _ _ _ Hproto). rewrite Hhas.
  destruct (Obj.arrayIndex k) as [i|] eqn:Hi; [| reflexivity].
  apply insertIndex_end. intros k' Hk'.
  pose proof (sorted_before _ _ _ Hs k' Hk') as Hord.
  unfold keyOrder in Hord. rewrite Hi in Hord.
  destruct (Obj.arrayIndex k') as [j|]; [| contradiction].
  now exists j.
Qed.

(** Assigning to a key the value it already has changes nothing. *)
Lemma set_same o k v :
  NoDup (keysOf o) -> In (k, v) o -> Obj.set o k v = o.
Proof.
  intros Hnd Hin.
  assert (Hhas : Obj.has o k = true).
  { apply ObjFacts.has_In. change k with (fst (k, v)). now apply in_map. }
  unfold Obj.set. destruct (String.eqb k "__proto__"); [reflexivity |].
  rewrite Hhas. clear Hhas.
  induction o as [|[k' v'] o IH]; [contradiction |].
  simpl. destruct (String.eqb k' k) eqn:E.
  - apply String.eqb_eq in E. subst k'.
    now rewrite (ObjFacts.keys_functional _ _ _ _ Hnd Hin (or_introl eq_refl)).
  - f_equal. inversion Hnd; subst. apply IH; [assumption |].
    destruct Hin as [Heq | Hin]; [| exact Hin].
    inversion Heq; subst. rewrite String.eqb_refl in E. discriminate.
Qed.

End CanonicalFacts.

(** ** Resolving a resolved map *)

Lemma in_set {T} (o : list (string * T)) (k : string) (v : T) (e : string * T) :
  In e (Obj.set o k v) -> e = (k, v) \/ In e o.
Proof.
  unfold Obj.set. destruct (String.eqb k "__proto__"); [now right |].
  destruct (Obj.has o k).
  - induction o as [|[k0 v0] o IH]; simpl; [contradiction |].
    destruct (String.eqb k0 k) eqn:E; simpl.
    + apply String.eqb_eq in E. subst k0. intuition.
    + intuition.
  - destruct (Obj.arrayIndex k) as [i|].
    + induction o as [|[k0 v0] o IH]; simpl; [intuition |].
      destruct (Obj.arrayIndex k0) as [j|]; [destruct (j <=? i)%Z |];
        simpl; intuition.
    + rewrite in_app_iff. simpl. intuition.
Qed.

Lemma allSettled_set (o : Helpers.Vars) (k v : string) :
  allSettled o -> settled v -> allSettled (Obj.set o k v).
Proof.
  intros Ho Hv k' v' Hin. apply in_set in Hin.
  destruct Hin as [Heq | Hin]; [now inversion Heq; subst |].
  now apply (Ho k' v').
Qed.

(** The first pass over a map without expressions returns a canonical
    map of settled values. *)
Lemma pass1Loop_clean (schema : Helpers.Schema)
      (entries : list (string * Val)) :
  forall (acc : Helpers.Vars) (w : World),
    (forall k s, In (k, JStr s) entries -> Helpers.expressions s = []) ->
    Canonical acc -> allSettled acc ->
    exists out w',
      Helpers.pass1Loop schema entries acc w = Ok out w'
      /\ Canonical out /\ allSettled out.
Proof.
  induction entries as [|[k v] rest IH]; intros acc w Hclean Hc Hs.
  - now exists acc, w.
  - cbn [Helpers.pass1Loop].
    assert (Hrest : forall k s, In (k, JStr s) rest ->
                                Helpers.expressions s = []).
    { intros k' s Hin. apply (Hclean k' s). now right. }
    destruct v as [| | b | n | s | items | props];
      try (cbn [Helpers.pass1Entry]; rewrite bind_ret; now apply IH).
    rewrite pass1Entry_string.
    destruct (pass1Value_clean schema s w
                (Hclean k s ltac:(now left))) as (r & w1 & Hgen & Hr).
    unfold bind at 1. unfold bind at 1. rewrite Hgen. cbn [ret].
    apply IH; [exact Hrest | now apply canonical_set
               | now apply allSettled_set].
Qed.

(** The second pass leaves a map of settled values as it is. *)
Lemma pass2Loop_settled (rt : Runtime) (schema : Helpers.Schema)
      (entries : Helpers.Vars) :
  forall (acc : Helpers.Vars) (w : World),
    (forall k v, In (k, v) entries -> In (k, v) acc) ->
    NoDup (keysOf acc) -> allSettled acc ->
    Helpers.pass2Loop rt schema entries acc w = Ok acc w.
Proof.
  induction entries as [|[k v] rest IH]; intros acc w Hsub Hnd Hs;
    [reflexivity |].
  cbn [Helpers.pass2Loop].
  assert (Hin : In (k, v) acc) by (apply Hsub; now left).
  rewrite (bind_ok _ _ _ _ _
             (processValue_clean rt v acc schema w (proj1 (Hs k v Hin)))).
  rewrite (set_same acc k v Hnd Hin).
  apply IH; [| exact Hnd | exact Hs].
  intros k' v' H. apply Hsub. now right.
Qed.

(** The first pass over a canonical map of settled values builds the
    same map again. *)
Lemma pass1Loop_rebuild (schema : Helpers.Schema) (o2 : Helpers.Vars) :
  forall (o1 : Helpers.Vars) (w : World),
    Canonical (o1 ++ o2)%list -> allSettled o2 ->
    Helpers.pass1Loop schema (asEntries o2) o1 w = Ok (o1 ++ o2)%list w.
Proof.
  induction o2 as [|[k v] o2 IH]; intros o1 w Hc Hs.
  - simpl. now rewrite app_nil_r.
  - simpl asEntries. cbn [Helpers.pass1Loop].
    rewrite pass1Entry_string.
    rewrite (pass1Value_untouched schema v
               (proj2 (Hs k v ltac:(now left)))).
    change (Helpers.pass1Loop schema (asEntries o2) (Obj.set o1 k v) w
            = Ok (o1 ++ (k, v) :: o2)%list w).
    rewrite (set_next o1 o2 k v Hc).
    replace (o1 ++ (k, v) :: o2)%list with ((o1 ++ [(k, v)]) ++ o2)%list
      in * by (now rewrite <- app_assoc).
    apply IH; [exact Hc |].
    intros k' v' Hin. apply (Hs k' v'). now right.
Qed.

(** C6.  On a map none of whose values holds an expression,
    [processVariables] returns, and applying it to the map it returned
    returns that same map and draws nothing from the world. *)
Theorem processVariables_idempotent_on_resolved :
  forall (rt : Runtime) (variables : list (string * Val))
         (schema : Helpers.Schema) (w : World),
    (forall k s, In (k, JStr s) variables -> Helpers.expressions s = []) ->
    exists out w',
      Helpers.processVariables rt variables schema w = Ok out w'
      /\ Helpers.processVariables rt (asEntries out) schema w' = Ok out w'.
Proof.
  intros rt variables schema w Hclean.
  assert (Hempty : Canonical (@nil (string * string))).
  { split; [constructor | split; [constructor | intros []]]. }
  assert (Hnone : allSettled []) by (intros k v []).
  destruct (pass1Loop_clean schema variables [] w Hclean Hempty Hnone)
    as (out & w' & Hpass1 & Hc & Hs).
  assert (Hpass2 : forall w0, Helpers.pass2 rt out schema w0 = Ok out w0).
  { intros w0. apply pass2Loop_settled; [auto | apply Hc | exact Hs]. }
  exists out, w'. split.
  - unfold Helpers.processVariables, Helpers.pass1.
    rewrite (bind_ok _ _ _ _ _ Hpass1). apply Hpass2.
  - unfold Helpers.processVariables, Helpers.pass1.
    rewrite (bind_ok _ _ _ _ _
               (pass1Loop_rebuild schema out [] w' Hc Hs)).
    apply Hpass2.
Qed.

Lemma processVariables_idempotent_on_resolved_witness :
  (forall k s,
      In (k, JStr s) [("db", JStr "postgres"); ("port", JNum (NInt 5432));
                      ("user", JStr "admin$")] ->
      Helpers.expressions s = []) /\
  exists out w',
    Helpers.processVariables Demo.rt
      [("db", JStr "postgres"); ("port", JNum (NInt 5432));
       ("user", JStr "admin$")] Demo.schema Demo.w0 = Ok out w'
    /\ Helpers.processVariables Demo.rt (asEntries out) Demo.schema w'
       = Ok out w'.
Proof.
  assert (Hclean :
            forall k s,
              In (k, JStr s) [("db", JStr "postgres");
                              ("port", JNum (NInt 5432));
                              ("user", JStr "admin$")] ->
              Helpers.expressions s = []).
  { intros k s [H | [H | [H | []]]]; inversion H; reflexivity. }
  split; [exact Hclean |].
  exact (processVariables_idempotent_on_resolved Demo.rt _ Demo.schema
           Demo.w0 Hclean).
Defined.

(** ** Validators only add errors *)

Lemma appended_refl (P : string -> Prop) (st : VState) : appended P st st.
Proof. exists []. now rewrite app_nil_r. Qed.

Lemma appended_trans (P : string -> Prop) (a b c : VState) :
  appended P a b -> appended P b c -> appended P a c.
Proof.
  intros (n1 & H1 & F1) (n2 & H2 & F2). exists (n1 ++ n2)%list. split.
  - now rewrite H2, H1, app_assoc.
  - apply Forall_app. now split.
Qed.


Section Emits.
Context (P : string -> Prop).

Lemma emits_ret {A} (a : A) : emits P (ret a).
Proof. intros st. apply appended_refl. Qed.

Lemma emits_throw {A} (e : ErrKind) : emits P (@throw Z VState A e).
Proof. intros st. apply appended_refl. Qed.

Lemma emits_getState : emits P getState.
Proof. intros st. apply appended_refl. Qed.

Lemma emits_error (message : string) : P message -> emits P (error message).
Proof.
  intros H st. exists [message]. split; [reflexivity |].
  now constructor.
Qed.

Lemma emits_warning (message : string) : emits P (warning message).
Proof. intros st. exists []. simpl. now rewrite app_nil_r. Qed.

Lemma emits_bind {A B} (m : V A) (k : A -> V B) :
  emits P m -> (forall a, emits P (k a)) -> emits P (bind m k).
Proof.
  intros Hm Hk st. unfold bind. specialize (Hm st).
  destruct (m st) as [a st1 | e st1 | c st1]; [| exact Hm | exact Hm].
  specialize (Hk a st1).
  destruct (k a st1) as [b st2 | e st2 | c st2];
    [| | exact Hk]; eapply appended_trans; eassumption.
Qed.

Lemma emits_when (b : bool) (m : V unit) : emits P m -> emits P (when b m).
Proof. intros H. destruct b; [exact H | apply emits_ret]. Qed.

Lemma emits_getField (v : Val) (name : string) : emits P (getField v name).
Proof.
  unfold getField. destruct (nullish v); [apply emits_throw | apply emits_ret].
Qed.

Lemma emits_liftW {A} (m : Helpers.W A) : emits P (liftW m).
Proof.
  intros st. unfold liftW.
  destruct (m (world st)) as [a w | e w | [] w];
    exists []; simpl; now rewrite app_nil_r.
Qed.

Lemma emits_tryCatch {A} (m : V A) (handler : ErrKind -> V A) :
  emits P m -> (forall e, emits P (handler e)) ->
  emits P (tryCatch m handler).
Proof.
  intros Hm Hh st. unfold tryCatch. specialize (Hm st).
  destruct (m st) as [a st1 | e st1 | c st1]; [exact Hm | | exact Hm].
  specialize (Hh e st1).
  destruct (handler e st1) as [b st2 | e2 st2 | c st2];
    [| | exact Hh]; eapply appended_trans; eassumption.
Qed.

Lemma emits_forEachFrom {A} (f : nat -> A -> V unit) (l : list A) :
  forall start,
    (forall j x, nth_error l j = Some x -> emits P (f (start + j) x)) ->
    emits P (forEachFrom start f l).
Proof.
  induction l as [|x l IH]; intros start H; simpl.
  - apply emits_ret.
  - apply emits_bind.
    + specialize (H 0 x eq_refl). now rewrite Nat.add_0_r in H.
    + intros _. apply IH. intros j y Hj.
      specialize (H (S j) y Hj). now rewrite Nat.add_succ_r in H.
Qed.

Lemma emits_forEach {A} (f : nat -> A -> V unit) (l : list A) :
  (forall j x, emits P (f j x)) -> emits P (forEach f l).
Proof. intros H. apply emits_forEachFrom. intros j x _. apply H. Qed.

Lemma emits_forEachVal (callee : string) (f : nat -> Val -> V unit)
      (v : Val) :
  (forall j x, emits P (f j x)) ->
  emits P (TemplateValidator.forEachVal callee f v).
Proof.
  intros H. unfold TemplateValidator.forEachVal.
  destruct v; try apply emits_throw. now apply emits_forEach.
Qed.

End Emits.


(** One structural step of a proof of [emits]. *)
Ltac emits_step :=
  match goal with
  | |- emits _ (bind _ _) => apply emits_bind; [| intros]
  | |- emits _ (ret _) => apply emits_ret
  | |- emits _ (error _) => apply emits_error
  | |- emits _ (warning _) => apply emits_warning
  | |- emits _ (throw _) => apply emits_throw
  | |- emits _ (when _ _) => apply emits_when
  | |- emits _ (getField _ _) => apply emits_getField
  | |- emits _ getState => apply emits_getState
  | |- emits _ (liftW _) => apply emits_liftW
  | |- emits _ (tryCatch _ _) => apply emits_tryCatch; [| intros]
  | |- emits _ (forEach _ _) => apply emits_forEach; intros
  | |- emits _ (TemplateValidator.forEachVal _ _ _) =>
      apply emits_forEachVal; intros
  | |- emits _ (failWith _) => unfold failWith
  | |- emits _ noErrors => unfold noErrors
  | |- emits _ (report _) => unfold report
  | |- emits _ (match ?x with _ => _ end) => destruct x
  end.

Ltac emits_auto := repeat emits_step; try exact I; try reflexivity.

Section TemplateEmits.
Context (rt : Runtime) (P : string -> Prop).
Hypothesis foreign_P : forall msg, foreign msg -> P msg.

Lemma validateHelper_emits (helper context : string) :
  emits P (TemplateValidator.validateHelper rt helper context).
Proof. unfold TemplateValidator.validateHelper. emits_auto. Qed.

Lemma checkEnv_emits (env : Val) :
  emits P (TemplateValidator.checkEnv env).
Proof.
  unfold TemplateValidator.checkEnv, TemplateValidator.checkEnvEntry.
  emits_auto; apply foreign_P; reflexivity.
Qed.

Lemma checkMounts_emits (mounts : Val) :
  emits P (TemplateValidator.checkMounts mounts).
Proof.
  unfold TemplateValidator.checkMounts, TemplateValidator.checkMount.
  emits_auto; apply foreign_P; reflexivity.
Qed.

Lemma tryResolve_emits (text : string) (vars : Helpers.Vars)
      (unresolved threw : string -> string) :
  emits P (TemplateValidator.tryResolve rt text vars unresolved threw).
Proof. unfold TemplateValidator.tryResolve. emits_auto. Qed.

Lemma resolveAll_emits (variables config : Val) :
  emits P (TemplateValidator.resolveAll rt variables config).
Proof.
  unfold TemplateValidator.resolveAll.
  repeat first [ apply tryResolve_emits | emits_step ].
Qed.

Lemma checkVariables_emits (variables config : Val) :
  emits P (TemplateValidator.checkVariables rt variables config).
Proof.
  unfold TemplateValidator.checkVariables, TemplateValidator.checkVariable.
  repeat first [ apply resolveAll_emits | apply validateHelper_emits
               | emits_step ];
    apply foreign_P; reflexivity.
Qed.

End TemplateEmits.

(** ** The verdict of the template validator *)

Lemma failWith_ok (message : string) (st st' : VState) (b : bool) :
  failWith message st = Ok b st' -> b = false /\ errors st' <> [].
Proof.
  cbv [failWith bind error ret]. intros H. inversion H; subst. simpl.
  split; [reflexivity |]. now destruct (errors st).
Qed.

Lemma noErrors_ok (st st' : VState) (b : bool) :
  noErrors st = Ok b st' -> st' = st /\ b = isEmpty (errors st).
Proof.
  cbv [noErrors bind getState ret]. intros H. now inversion H.
Qed.

Lemma isEmpty_true {A} (l : list A) : isEmpty l = true <-> l = [].
Proof. destruct l; simpl; split; congruence. Qed.

Section TemplateVerdict.
Context (rt : Runtime).

Lemma checkDomain_emits_any (composeServices : option (list string))
      (index : nat) (domain : Val) :
  emits (fun _ => True)
        (TemplateValidator.checkDomain rt composeServices index domain).
Proof.
  unfold TemplateValidator.checkDomain.
  repeat first [ apply validateHelper_emits | emits_step ]; exact I.
Qed.

(** The errors of [validateData] are those of the domain loop, in [P],
    and errors that are not about a domain declaration. *)
Lemma validateData_emits (P : string -> Prop) (data : Val)
      (composeServices : option (list string)) :
  (forall msg, foreign msg -> P msg) ->
  (forall domains j d,
      Js.field (Js.field data "config") "domains" = JArr domains ->
      nth_error domains j = Some d ->
      emits P (TemplateValidator.checkDomain rt composeServices j d)) ->
  emits P (TemplateValidator.validateData rt data composeServices).
Proof.
  intros HP Hdomains. unfold TemplateValidator.validateData, getField.
  destruct (nullish data) eqn:Hnull; [apply emits_throw |].
  rewrite bind_ret_l.
  destruct (negb (truthy (Js.field data "config")));
    [emits_auto; apply HP; reflexivity |].
  remember (Js.field (Js.field data "config") "domains") as domains
    eqn:Hd.
  destruct (truthy domains && negb (isArray domains));
    [emits_auto; apply HP; reflexivity |].
  apply emits_bind.
  - destruct (truthy domains); [| apply emits_warning].
    unfold TemplateValidator.forEachVal, forEach.
    destruct domains as [| | b | n | s | items | props];
      try apply emits_throw.
    apply emits_forEachFrom. intros j d Hj.
    now apply (Hdomains items).
  - intros _.
    apply emits_bind; [now apply checkEnv_emits |]. intros _.
    apply emits_bind; [now apply checkMounts_emits |]. intros _.
    apply emits_bind; [now apply checkVariables_emits |]. intros _.
    emits_auto.
Qed.

Lemma validateData_verdict (data : Val)
      (composeServices : option (list string)) (st st' : VState)
      (b : bool) :
  TemplateValidator.validateData rt data composeServices st = Ok b st' ->
  b = isEmpty (errors st').
Proof.
  unfold TemplateValidator.validateData. intros H.
  apply bind_ok_inv in H. destruct H as (config & st1 & _ & H).
  destruct (negb (truthy config)).
  { apply failWith_ok in H. destruct H as [-> H].
    now destruct (errors st'). }
  destruct (truthy (Js.field config "domains")
            && negb (isArray (Js.field config "domains"))).
  { apply failWith_ok in H. destruct H as [-> H].
    now destruct (errors st'). }
  apply bind_ok_inv in H. destruct H as (u1 & st2 & _ & H).
  apply bind_ok_inv in H. destruct H as (u2 & st3 & _ & H).
  apply bind_ok_inv in H. destruct H as (u3 & st4 & _ & H).
  apply bind_ok_inv in H. destruct H as (u4 & st5 & _ & H).
  apply noErrors_ok in H. destruct H as [-> ->]. reflexivity.
Qed.

(** Whatever the inputs, [validateTemplate] returns; it has only added
    errors, in [P] when the domain loop's are, and its answer says
    whether the list of errors is empty. *)
Lemma validateTemplate_total (P : string -> Prop) (tomlPath : string)
      (file : File) (composeServices : option (list string))
      (st : VState) :
  (forall msg, foreign msg -> P msg) ->
  (forall data domains j d,
      file = Parsed data ->
      Js.field (Js.field data "config") "domains" = JArr domains ->
      nth_error domains j = Some d ->
      emits P (TemplateValidator.checkDomain rt composeServices j d)) ->
  exists b st',
    TemplateValidator.validateTemplate rt tomlPath file composeServices st
    = Ok b st'
    /\ appended P st st'
    /\ b = isEmpty (errors st').
Proof.
  intros HP Hdomains.
  unfold TemplateValidator.validateTemplate, tryCatch.
  set (body := match file with
               | Missing => _ | Unparsable message => _ | Parsed data => _
               end).
  assert (Hemits : emits P body).
  { subst body. destruct file as [| message | data].
    - emits_auto. apply HP. reflexivity.
    - emits_auto. apply HP. reflexivity.
    - apply validateData_emits; [exact HP |].
      intros domains j d. now apply (Hdomains data). }
  assert (Hverdict : forall b st', body st = Ok b st' ->
                                   b = isEmpty (errors st')).
  { subst body. intros b st' H. destruct file as [| message | data].
    - apply failWith_ok in H. destruct H as [-> H].
      now destruct (errors st').
    - apply failWith_ok in H. destruct H as [-> H].
      now destruct (errors st').
    - now apply validateData_verdict in H. }
  specialize (Hemits st).
  destruct (body st) as [b st1 | e st1 | c st1] eqn:Hbody;
    [| | contradiction].
  - exists b, st1. repeat split; [exact Hemits | now apply Hverdict].
  - eexists false, _. split; [reflexivity |]. split.
    + eapply appended_trans; [exact Hemits |].
      eexists [_]. split; [reflexivity |]. constructor; [| constructor].
      apply HP. reflexivity.
    + simpl. now destruct (errors st1).
Qed.

Lemma parseComposeServices_total (composePath : string) (file : File)
      (st : VState) :
  exists names st',
    TemplateValidator.parseComposeServices composePath file st
    = Ok names st'.
Proof.
  unfold TemplateValidator.parseComposeServices.
  destruct file as [| message | compose]; try (now eexists _, _).
  destruct (negb (truthy compose) || negb (typeofObject compose));
    [now eexists _, _ |].
  cbv [bind when warning ret].
  destruct (List.length _ =? 0); now eexists _, _.
Qed.

Lemma validateTemplateDir_total (dir : TemplateValidator.Dir)
      (st : VState) :
  exists r st',
    TemplateValidator.validateTemplateDir rt dir st = Ok r st'
    /\ valid r = isEmpty (resultErrors r)
    /\ resultErrors r = errors st'
    /\ resultWarnings r = warnings st'.
Proof.
  unfold TemplateValidator.validateTemplateDir.
  destruct (parseComposeServices_total (TemplateValidator.composePath dir)
              (TemplateValidator.composeFile dir) st)
    as (names & st1 & Hparse).
  rewrite (bind_ok _ _ _ _ _ Hparse).
  destruct (validateTemplate_total (fun _ => True)
              (TemplateValidator.templatePath dir)
              (TemplateValidator.templateFile dir) (Some names) st1
              (fun _ _ => I)
              (fun _ _ j d _ _ _ => checkDomain_emits_any (Some names) j d))
    as (b & st2 & Hrun & _ & Hb).
  rewrite (bind_ok _ _ _ _ _ Hrun).
  eexists _, st2. split; [reflexivity |]. simpl.
  rewrite Hb. split; [| split; reflexivity].
  now destruct (errors st2).
Qed.

End TemplateVerdict.

(** ** The verdict of the docker-compose validator *)

Section ComposeVerdict.
Context (rt : Runtime).

Lemma validateNoContainerName_emits (services : Val) :
  emits anyMessage (DockerComposeValidator.validateNoContainerName services).
Proof.
  unfold DockerComposeValidator.validateNoContainerName,
    DockerComposeValidator.forEachService.
  emits_auto.
Qed.

Lemma validateNoExplicitNetworks_emits (compose services : Val) :
  emits anyMessage
        (DockerComposeValidator.validateNoExplicitNetworks compose services).
Proof.
  unfold DockerComposeValidator.validateNoExplicitNetworks,
    DockerComposeValidator.forEachService.
  emits_auto.
Qed.

Lemma validatePortsFormat_emits (services : Val) :
  emits anyMessage (DockerComposeValidator.validatePortsFormat services).
Proof.
  unfold DockerComposeValidator.validatePortsFormat,
    DockerComposeValidator.forEachService.
  emits_auto.
Qed.

Lemma validateServiceNames_emits (services : Val) :
  emits anyMessage (DockerComposeValidator.validateServiceNames rt services).
Proof.
  unfold DockerComposeValidator.validateServiceNames. emits_auto.
Qed.

Lemma verdict_bind {A} (exitOnError : bool) (m : V A)
      (k : A -> V ValidationResult) (st : VState) :
  emits anyMessage m ->
  (forall a st1, verdict exitOnError (k a st1)) ->
  verdict exitOnError (bind m k st).
Proof.
  intros Hm Hk. unfold bind. specialize (Hm st).
  destruct (m st) as [a st1 | e st1 | c st1];
    [apply Hk | exact I | contradiction].
Qed.

Lemma giveUp_verdict (options : DockerComposeValidator.Options)
      (st : VState) :
  errors st <> [] ->
  verdict (DockerComposeValidator.exitOnError options)
          (DockerComposeValidator.giveUp options st).
Proof.
  intros H. unfold DockerComposeValidator.giveUp.
  destruct (DockerComposeValidator.exitOnError options); simpl.
  - now split.
  - repeat split; try discriminate. intros E. contradiction.
Qed.

Lemma parseCompose_spec (composePath : string) (file : File)
      (st : VState) :
  exists o st',
    DockerComposeValidator.parseCompose composePath file st = Ok o st'
    /\ match o with
       | Some _ => st' = st
       | None => errors st' <> []
       end.
Proof.
  unfold DockerComposeValidator.parseCompose.
  destruct file as [| message | compose];
    try (eexists None, _; split; [reflexivity |]; simpl;
         now destruct (errors st)).
  destruct (negb (truthy compose) || negb (typeofObject compose)).
  - eexists None, _. split; [reflexivity |]. simpl.
    now destruct (errors st).
  - now exists (Some compose), st.
Qed.

Lemma compose_validate_verdict (options : DockerComposeValidator.Options)
      (fs : string -> File) (st : VState) :
  verdict (DockerComposeValidator.exitOnError options)
          (DockerComposeValidator.validate rt options fs st).
Proof.
  unfold DockerComposeValidator.validate.
  destruct (DockerComposeValidator.composePath options) as [[|c p]|];
    try (cbv [bind error]; apply giveUp_verdict; simpl;
         now destruct (errors st)).
  unfold DockerComposeValidator.validateDockerComposeSyntax.
  destruct (parseCompose_spec (String c p) (fs (String c p)) st)
    as (o & st1 & Hparse & Ho).
  rewrite (bind_ok _ _ _ _ _
             (bind_ok _ _ _ _ _ Hparse : bind _ (fun compose => ret _) st
                                       = Ok _ st1)).
  destruct o as [compose|]; [| now apply giveUp_verdict].
  subst st1. cbn [negb]. cbv iota.
  rewrite (bind_ok _ _ _ _ _ Hparse).
  unfold DockerComposeValidator.validateServicesExist.
  destruct (negb (truthy (Js.field compose "services"))
            || (List.length (Js.keys (Js.field compose "services")) =? 0)).
  - cbv [failWith bind error ret negb]. apply giveUp_verdict. simpl.
    now destruct (errors st).
  - rewrite bind_ret_l. cbn [negb]. cbv iota.
    apply verdict_bind; [apply validateNoContainerName_emits |].
    intros _ st1.
    apply verdict_bind; [apply validateNoExplicitNetworks_emits |].
    intros _ st2.
    apply verdict_bind; [apply validatePortsFormat_emits |].
    intros _ st3.
    apply verdict_bind; [apply validateServiceNames_emits |].
    intros _ st4.
    cbv [noErrors bind getState ret report exit].
    destruct (errors st4) eqn:He; simpl.
    + rewrite He. repeat split; reflexivity.
    + destruct (DockerComposeValidator.exitOnError options); simpl.
      * split; [reflexivity |]. now rewrite He.
      * rewrite He. repeat split; discriminate.
Qed.

Lemma template_validate_verdict (options : TemplateValidator.Options)
      (fs : string -> TemplateValidator.Dir) (st : VState) :
  verdict (TemplateValidator.exitOnError options)
          (TemplateValidator.validate rt options fs st)
  /\ forall e st', TemplateValidator.validate rt options fs st
                   <> Throw e st'.
Proof.
  unfold TemplateValidator.validate.
  destruct (TemplateValidator.templateDir options) as [[|c d]|].
  - cbv [bind error report getState ret exit].
    destruct (TemplateValidator.exitOnError options); simpl.
    + split; [| discriminate]. split; [reflexivity |].
      now destruct (errors st).
    + split; [| discriminate]. repeat split; try discriminate.
      now destruct (errors st).
  - destruct (validateTemplateDir_total rt (fs (String c d)) st)
      as (r & st' & Hrun & Hvalid & Herr & Hwarn).
    rewrite (bind_ok _ _ _ _ _ Hrun).
    destruct (negb (valid r) && TemplateValidator.exitOnError options)
      eqn:Hexit.
    + apply andb_true_iff in Hexit. destruct Hexit as [Hv He].
      split; [| discriminate]. split; [exact He |].
      apply negb_true_iff in Hv. rewrite Hvalid, Herr in Hv.
      now destruct (errors st').
    + split; [| discriminate]. simpl. rewrite Hvalid.
      split; [apply isEmpty_true | now split].
  - cbv [bind error report getState ret exit].
    destruct (TemplateValidator.exitOnError options); simpl.
    + split; [| discriminate]. split; [reflexivity |].
      now destruct (errors st).
    + split; [| discriminate]. repeat split; try discriminate.
      now destruct (errors st).
Qed.

End ComposeVerdict.

(** C8.  For every input and every state of the validator instance, a
    report returned by [validate], of the template validator or of the
    docker-compose validator, has [valid = true] exactly when its errors
    are empty, and it carries the instance's errors and warnings as they
    are at that moment; so the flag depends on the errors alone, whatever
    the warnings.  No report is returned only when an
    exit was asked for after an error or, in the docker-compose
    validator, when an exception escapes. *)
Theorem valid_iff_no_errors :
  forall (rt : Runtime) (st : VState),
    (forall (options : TemplateValidator.Options)
            (fs : string -> TemplateValidator.Dir),
        match TemplateValidator.validate rt options fs st with
        | Ok r st' =>
            (valid r = true <-> resultErrors r = [])
            /\ resultErrors r = errors st'
            /\ resultWarnings r = warnings st'
        | Throw _ _ => False
        | Exit _ st' =>
            TemplateValidator.exitOnError options = true /\ errors st' <> []
        end)
    /\ (forall (options : DockerComposeValidator.Options)
               (fs : string -> File),
           match DockerComposeValidator.validate rt options fs st with
           | Ok r st' =>
               (valid r = true <-> resultErrors r = [])
               /\ resultErrors r = errors st'
               /\ resultWarnings r = warnings st'
           | Throw _ _ => True
           | Exit _ st' =>
               DockerComposeValidator.exitOnError options = true
               /\ errors st' <> []
           end).
Proof.
  intros rt st. split.
  - intros options fs.
    destruct (template_validate_verdict rt options fs st) as [Hv Hthrow].
    unfold verdict in Hv.
    destruct (TemplateValidator.validate rt options fs st)
      as [r st' | e st' | c st']; [exact Hv | | exact Hv].
    now apply (Hthrow e st').
  - intros options fs. exact (compose_validate_verdict rt options fs st).
Qed.

(** ** Messages about domain declarations *)









Section DomainDeclarations.
Context (rt : Runtime) (services : list string) (i : nat) (s : string).


End DomainDeclarations.


(** ** An absent service is reported *)

Lemma returns_ret {A} (a : A) : returns (ret a).
Proof. intros st. exists a, st. split; [reflexivity | apply appended_refl]. Qed.

Lemma returns_error (message : string) : returns (error message).
Proof.
  intros st. eexists tt, _. split; [reflexivity |].
  exists [message]. split; [reflexivity | now constructor].
Qed.


Lemma returns_bind {A B} (m : V A) (k : A -> V B) :
  returns m -> (forall a, returns (k a)) -> returns (bind m k).
Proof.
  intros Hm Hk st. destruct (Hm st) as (a & st1 & H1 & A1).
  destruct (Hk a st1) as (b & st2 & H2 & A2).
  exists b, st2. split; [now rewrite (bind_ok _ _ _ _ _ H1) |].
  eapply appended_trans; eassumption.
Qed.

Lemma returns_when (b : bool) (m : V unit) : returns m -> returns (when b m).
Proof. intros H. destruct b; [exact H | apply returns_ret]. Qed.

Lemma returns_forEachFrom {A} (f : nat -> A -> V unit) (l : list A) :
  forall start,
    (forall j x, In x l -> returns (f j x)) ->
    returns (forEachFrom start f l).
Proof.
  induction l as [|x l IH]; intros start H; simpl.
  - apply returns_ret.
  - apply returns_bind; [apply H; now left |].
    intros _. apply IH. intros j y Hy. apply H. now right.
Qed.




Lemma reports_after {A B} (target : string) (m : V A) (k : A -> V B) :
  returns m -> (forall a, reports target (k a)) -> reports target (bind m k).
Proof.
  intros Hm Hk st. destruct (Hm st) as (a & st1 & H1 & (n1 & E1 & _)).
  destruct (Hk a st1) as (b & st2 & n2 & H2 & E2 & Hin).
  exists b, st2, (n1 ++ n2)%list. split; [now rewrite (bind_ok _ _ _ _ _ H1) |].
  split; [now rewrite E2, E1, app_assoc |].
  apply in_or_app. now right.
Qed.

Lemma reports_before {A B} (target : string) (m : V A) (k : A -> V B) :
  reports target m -> (forall a, returns (k a)) -> reports target (bind m k).
Proof.
  intros Hm Hk st. destruct (Hm st) as (a & st1 & n1 & H1 & E1 & Hin).
  destruct (Hk a st1) as (b & st2 & H2 & (n2 & E2 & _)).
  exists b, st2, (n1 ++ n2)%list. split; [now rewrite (bind_ok _ _ _ _ _ H1) |].
  split; [now rewrite E2, E1, app_assoc |].
  apply in_or_app. now left.
Qed.

Lemma reports_error (target : string) : reports target (error target).
Proof.
  intros st. eexists tt, _, [target]. split; [reflexivity |].
  split; [reflexivity | now left].
Qed.


Lemma forEachFrom_reports {A} (target : string) (f : nat -> A -> V unit)
      (l : list A) :
  forall (start i : nat) (d : A),
    nth_error l i = Some d ->
    (forall j x, In x l -> returns (f j x)) ->
    reports target (f (start + i) d) ->
    reports target (forEachFrom start f l).
Proof.
  induction l as [|x l IH]; intros start i d Hi Hall Hd.
  - destruct i; discriminate Hi.
  - simpl. destruct i as [|i]; simpl in Hi.
    + inversion Hi; subst. rewrite Nat.add_0_r in Hd.
      apply reports_before; [exact Hd |].
      intros _. apply returns_forEachFrom. intros j y Hy.
      apply Hall. now right.
    + apply reports_after; [apply Hall; now left |].
      intros _. apply (IH (S start) i d Hi).
      * intros j y Hy. apply Hall. now right.
      * now rewrite Nat.add_succ_r in Hd.
Qed.

Section AbsentService.
Context (rt : Runtime) (data : Val) (services : list string).



End AbsentService.




(** ** The scenarios of the specification *)

Example scenario_matching_service :
  match TemplateValidator.validateTemplateDir Demo.rt
          (Demo.directory "web" [("web", Demo.image)]) Demo.st0 with
  | Ok r _ =>
      valid r = true /\ resultErrors r = [] /\ resultWarnings r = []
  | _ => False
  end.
Proof. vm_compute. repeat split; reflexivity. Qed.

Example scenario_missing_service :
  match TemplateValidator.validateTemplateDir Demo.rt
          (Demo.directory "worker" [("web", Demo.image)]) Demo.st0 with
  | Ok r _ =>
      valid r = false
      /\ resultErrors r =
           ["domain[0]: serviceName 'worker' not found in docker-compose.yml services. Available services: web"]
  | _ => False
  end.
Proof. vm_compute. split; reflexivity. Qed.

Example scenario_cross_reference :
  match Helpers.processVariables Demo.rt
          [("a", JStr "${password:8}"); ("b", JStr "${a}-suffix")]
          Demo.schema Demo.w0 with
  | Ok out _ =>
      exists a, Obj.get out "a" = Some a /\ String.length a = 8
                /\ Obj.get out "b" = Some (a ++ "-suffix")
  | _ => False
  end.
Proof. vm_compute. eexists. repeat split; reflexivity. Qed.

Example scenario_jwt_payload :
  Helpers.processValue Demo.rt "${jwt:s3cret:claims}"
    [("claims", Demo.claimsText)] Demo.schema Demo.w0
  = Ok "eyJhbGciOiJIUzI1NiIsInR5cCI6IkpXVCJ9.e30.czNjcmV0" Demo.w0.
Proof. vm_compute. reflexivity. Qed.

(** * Further properties of the code *)

(** ** The generators *)



(** X3.  [generatePassword(length)].  For an integer up to the longest
    string length, 536870888, it returns [length] characters ([0] for a
    negative one), every one of them a character of its charset; it
    draws once from [Math.random] for each character and takes no
    entropy from [randomBytes].  For a larger integer, and for
    [Infinity], the concatenation throws its [RangeError] when the text
    would pass the longest string.  For [NaN] the loop does not run and
    the result is the empty string. *)
Theorem generatePassword_from_charset :
  forall (n : Z) (w : World),
    ((n <= Str.maxLength)%Z ->
     exists s w',
       Helpers.generatePassword (NInt n) w = Ok s w'
       /\ String.length s = Z.to_nat n
       /\ drawnFrom Helpers.charset s
       /\ uniformPos w' = uniformPos w + Z.to_nat n
       /\ bytePos w' = bytePos w)
    /\ ((Str.maxLength < n)%Z ->
        exists w',
          Helpers.generatePassword (NInt n) w = Throw InvalidStringLength w')
    /\ (exists w',
          Helpers.generatePassword NPosInf w = Throw InvalidStringLength w')
    /\ Helpers.generatePassword NNaN w = Ok "" w.
Proof.
  intros n w. unfold Helpers.generatePassword, Helpers.iterations.
  split; [| split; [| split]].
  - intros Hfit.
    destruct (passwordLoop_charset (Z.to_nat n) "" w) as
      (s & w' & Hrun & Hlen & Hall & Hu & Hb).
    { change (String.length "") with 0. unfold Str.maxLength in *. lia. }
    { constructor. }
    exists s, w'. repeat split; assumption.
  - intros Hlong. apply passwordLoop_too_long.
    + change (String.length "") with 0. unfold Str.maxLength. lia.
    + change (String.length "") with 0. unfold Str.maxLength in *. lia.
  - apply passwordLoop_too_long.
    + change (String.length "") with 0. unfold Str.maxLength. lia.
    + change (String.length "") with 0. unfold Str.maxLength. lia.
  - reflexivity.
Qed.

Lemma generatePassword_from_charset_witness :
  (16 <= Str.maxLength)%Z /\
  exists s w',
    Helpers.generatePassword (NInt 16) Demo.w0 = Ok s w'
    /\ String.length s = Z.to_nat 16
    /\ drawnFrom Helpers.charset s
    /\ uniformPos w' = uniformPos Demo.w0 + Z.to_nat 16
    /\ bytePos w' = bytePos Demo.w0.
Proof.
  assert (Hfit : (16 <= Str.maxLength)%Z) by (unfold Str.maxLength; lia).
  split; [exact Hfit |].
  exact (proj1 (generatePassword_from_charset 16 Demo.w0) Hfit).
Defined.

(** X4.  [generateRandomDomain] returns the schema's domain when it is a
    non-empty string, and otherwise [app-<h>.example.com], where [h] is
    the text of [toString("hex")] on the next eight bytes of entropy:
    sixteen lower-case hexadecimal digits.  In both cases the eight bytes
    are taken. *)
Theorem generateRandomDomain_shape :
  forall (schema : Helpers.Schema) (w : World),
    Helpers.generateRandomDomain schema w
    = Ok match Helpers.domain schema with
         | Some (String c d) => String c d
         | _ => "app-" ++ Enc.hex (nextBytes w 8) ++ ".example.com"
         end (takeBytes w 8)
    /\ String.length (Enc.hex (nextBytes w 8)) = 16
    /\ drawnFrom Enc.hexAlphabet (Enc.hex (nextBytes w 8)).
Proof.
  intros schema w.
  assert (Hlen : String.length (Enc.hex (nextBytes w 8)) = 16)
    by (now rewrite hex_length, nextBytes_length).
  split; [| split; [exact Hlen | apply hex_digits]].
  unfold Helpers.generateRandomDomain.
  rewrite (bind_ok _ _ _ _ _ (randomBytes_exact 8 w ltac:(lia))).
  change (Z.to_nat 8) with 8.
  rewrite (bind_ok _ _ _ _ _
             (toString_ok Enc.hex (nextBytes w 8) (takeBytes w 8)
                ltac:(rewrite Hlen; vm_compute; discriminate))).
  unfold ret. f_equal.
  destruct (Helpers.domain schema) as [[|c d]|]; reflexivity.
Qed.

(** ** Sizes [randomBytes] refuses *)

Lemma replaceAll_single_throw {X St}
      (cb : string -> string -> M X St string)
      (body : string) (e : ErrKind) (s s' : St) :
  expressionBody body ->
  cb (Helpers.exprText body) body s = Throw e s' ->
  Helpers.replaceAll cb (Helpers.exprText body) s = Throw e s'.
Proof.
  intros Hbody Hcb. unfold Helpers.replaceAll.
  unfold expressionBody in Hbody.
  change (Helpers.exprText body) with (String "$" (String "{" (body ++ "}")))
    in Hbody |- * at 1.
  cbn [Helpers.replaceFrom]. rewrite Hbody.
  unfold bind. now rewrite Hcb.
Qed.

Lemma processValue_single_throw (rt : Runtime) (variables : Helpers.Vars)
      (schema : Helpers.Schema) (body : string) (e : ErrKind) (w w' : World) :
  expressionBody body ->
  Helpers.resolveHelper rt variables schema (Helpers.exprText body) body w
  = Throw e w' ->
  Helpers.processValue rt (Helpers.exprText body) variables schema w
  = Throw e w'.
Proof.
  intros Hbody Hcb.
  unfold Helpers.processValue. cbn [Helpers.processValueDepth].
  unfold Helpers.processValueWith.
  change (String.eqb (Helpers.exprText body) "") with false. cbv iota.
  change (bind (Helpers.replaceAll
                  (Helpers.resolveHelper rt variables schema)
                  (Helpers.exprText body))
               (fun processedValue =>
                  Helpers.replaceAll (Helpers.resolveVariable variables)
                    processedValue) w = Throw e w').
  unfold bind.
  now rewrite (replaceAll_single_throw _ body e w w' Hbody Hcb).
Qed.

(** X5.  A length that [Number.parseInt] reads as a number
    [randomBytes] refuses (a negative integer, one above [2^31 - 1], an
    infinity) is no malformed argument that falls back to the default:
    [${hash:<n>}] and [${base64:<n>}] make [processValue] throw the
    [RangeError] of [randomBytes] for that number, the double
    [Number.parseInt] returned, and nothing has been drawn. *)
Theorem length_out_of_range_throws :
  forall (rt : Runtime) (variables : Helpers.Vars) (schema : Helpers.Schema)
         (n : string) (w : World),
    Num.parseInt (hd "" (Str.split ":" n)) <> NNaN ->
    sizeInRange (Num.parseInt (hd "" (Str.split ":" n))) = false ->
    (expressionBody ("hash:" ++ n) ->
     Helpers.processValue rt (Helpers.exprText ("hash:" ++ n)) variables
       schema w
     = Throw (SizeOutOfRange (Num.parseInt (hd "" (Str.split ":" n)))) w)
    /\ (expressionBody ("base64:" ++ n) ->
        Helpers.processValue rt (Helpers.exprText ("base64:" ++ n)) variables
          schema w
        = Throw (SizeOutOfRange (Num.parseInt (hd "" (Str.split ":" n)))) w).
Proof.
  intros rt variables schema n w Hnum Hrange.
  assert (Hk : forall d,
             Num.parseIntOr (hd "" (Str.split ":" n)) d
             = Num.parseInt (hd "" (Str.split ":" n))).
  { intros d. rewrite NumFacts.parseIntOr_cases.
    destruct (Num.parseInt (hd "" (Str.split ":" n))) as [z | | |];
      try reflexivity; [| contradiction].
    destruct (z =? 0)%Z eqn:E; [| reflexivity].
    apply Z.eqb_eq in E. subst z. discriminate Hrange. }
  split; intros Hbody; apply processValue_single_throw; try exact Hbody;
    unfold Helpers.resolveHelper, Helpers.resolveHelperWith; cbn;
    rewrite StrFacts.prefix_nil, StrFacts.nth0_hd, Hk.
  - now apply generateHash_out_of_range.
  - now apply generateBase64_out_of_range.
Qed.

Lemma length_out_of_range_throws_witness :
  Helpers.processValue Demo.rt "${hash:-1}" [] Demo.schema Demo.w0
  = Throw (SizeOutOfRange (NInt (-1))) Demo.w0
  /\ Helpers.processValue Demo.rt "${base64:9007199254740993}" []
       Demo.schema Demo.w0
     = Throw (SizeOutOfRange (NInt 9007199254740992)) Demo.w0.
Proof.
  assert (Hsmall : Num.parseInt (hd "" (Str.split ":" "-1")) = NInt (-1))
    by (vm_compute; reflexivity).
  assert (Hlarge : Num.parseInt (hd "" (Str.split ":" "9007199254740993"))
                   = NInt 9007199254740992)
    by (vm_compute; reflexivity).
  split.
  - pose proof (proj1 (length_out_of_range_throws Demo.rt [] Demo.schema "-1"
                         Demo.w0
                         ltac:(rewrite Hsmall; discriminate)
                         ltac:(rewrite Hsmall; reflexivity))) as H.
    rewrite Hsmall in H. apply H. reflexivity.
  - pose proof (proj2 (length_out_of_range_throws Demo.rt [] Demo.schema
                         "9007199254740993" Demo.w0
                         ltac:(rewrite Hlarge; discriminate)
                         ltac:(rewrite Hlarge; reflexivity))) as H.
    rewrite Hlarge in H. apply H. reflexivity.
Defined.

(** ** The legacy form of [jwt] *)

Lemma isDigit_range (c : ascii) :
  Str.isDigit c = true -> 48 <= Str.code c <= 57.
Proof.
  unfold Str.isDigit. intros H. apply andb_true_iff in H.
  destruct H as [H1 H2]. apply Nat.leb_le in H1, H2. lia.
Qed.

Lemma isDigit_not_colon (c : ascii) :
  Str.isDigit c = true -> Ascii.eqb c ":" = false.
Proof.
  intros H. destruct (Ascii.eqb_spec c ":") as [->|]; [| reflexivity].
  vm_compute in H. discriminate.
Qed.

Lemma split_digits (ds : string) :
  forallb Str.isDigit (list_ascii_of_string ds) = true ->
  Str.split ":" ds = [ds].
Proof.
  induction ds as [|c ds IH]; intros H; [reflexivity |].
  simpl in H. apply andb_true_iff in H. destruct H as [Hc Hds].
  cbn [Str.split]. rewrite (isDigit_not_colon c Hc), (IH Hds). reflexivity.
Qed.

Lemma digits1to3_spec (ds : string) :
  Helpers.digits1to3 ds = true ->
  digitString ds /\ (0 <= Num.digitsValue ds <= 999)%Z.
Proof.
  unfold Helpers.digits1to3. intros H.
  apply andb_true_iff in H. destruct H as [H Hhi].
  apply andb_true_iff in H. destruct H as [Hall Hlo].
  apply Nat.leb_le in Hlo, Hhi.
  split.
  - split; [| exact Hall]. intros ->. simpl in Hlo. lia.
  - destruct ds as [|c1 [|c2 [|c3 [|c4 r]]]]; simpl in Hlo, Hhi; try lia;
      simpl in Hall;
      repeat match goal with
             | H : _ && _ = true |- _ =>
                 apply andb_true_iff in H; destruct H
             | H : Str.isDigit _ = true |- _ => apply isDigit_range in H
             end;
      unfold Num.digitsValue; cbn [Num.digitsValueAcc]; lia.
Qed.

(** X6.  [${jwt:<d>}] with one to three decimal digits is the legacy
    form.  A value [k > 0] gives no token but the text of
    [toString("hex")] on the next [k] bytes of entropy, which are taken:
    [2 k] lower-case hexadecimal digits.  The value zero is not a length
    and gives what the bare [${jwt}] gives. *)
Theorem jwt_legacy_form :
  forall (rt : Runtime) (variables : Helpers.Vars) (schema : Helpers.Schema)
         (match_ ds : string) (w : World),
    Helpers.digits1to3 ds = true ->
    (Num.digitsValue ds <> 0%Z ->
     Helpers.resolveHelper rt variables schema match_ ("jwt:" ++ ds) w
     = Ok (Enc.hex (nextBytes w (Z.to_nat (Num.digitsValue ds))))
          (takeBytes w (Z.to_nat (Num.digitsValue ds)))
     /\ String.length (Enc.hex (nextBytes w (Z.to_nat (Num.digitsValue ds))))
        = 2 * Z.to_nat (Num.digitsValue ds)
     /\ drawnFrom Enc.hexAlphabet
          (Enc.hex (nextBytes w (Z.to_nat (Num.digitsValue ds)))))
    /\ (Num.digitsValue ds = 0%Z ->
        Helpers.resolveHelper rt variables schema match_ ("jwt:" ++ ds) w
        = Helpers.resolveHelper rt variables schema match_ "jwt" w).
Proof.
  intros rt variables schema match_ ds w Hform.
  destruct (digits1to3_spec ds Hform) as [Hds Hrange].
  assert (Hrun :
            Helpers.resolveHelper rt variables schema match_ ("jwt:" ++ ds) w
            = Helpers.generateJwt (Some (NInt (Num.digitsValue ds)))
                Helpers.NoSecret JUndefined w).
  { unfold Helpers.resolveHelper, Helpers.resolveHelperWith. cbn.
    rewrite StrFacts.prefix_nil.
    unfold Helpers.jwtWithParams. cbn.
    rewrite (split_digits ds (proj2 Hds)).
    cbn [tl]. unfold Helpers.legacyForm. cbn [List.length Nat.eqb nth andb].
    rewrite Hform.
    destruct (String.eqb_spec ds "") as [E|_]; [now destruct Hds |].
    cbn [negb andb]. rewrite (parseInt_digits ds Hds).
    rewrite NumFacts.toDouble_small; [reflexivity |].
    assert (999 < 2 ^ 53)%Z by reflexivity. lia. }
  rewrite Hrun. unfold Helpers.generateJwt. split; intros Hk.
  - cbn [truthy].
    destruct (Num.digitsValue ds =? 0)%Z eqn:E;
      [apply Z.eqb_eq in E; contradiction |].
    cbn [negb].
    split; [| split; [| apply hex_digits]].
    + apply (generateHash_exact (Num.digitsValue ds) w). lia.
    + now rewrite hex_length, nextBytes_length.
  - rewrite Hk.
    change (Helpers.resolveHelper rt variables schema match_ "jwt")
      with (Helpers.generateJwt None Helpers.NoSecret JUndefined).
    cbn [truthy]. change (0 =? 0)%Z with true. cbn [negb]. cbv iota.
    unfold Helpers.generateJwt. exact eq_refl.
Qed.

Lemma jwt_legacy_form_witness :
  Helpers.resolveHelper Demo.rt [] Demo.schema "${jwt:12}" "jwt:12" Demo.w0
  = Ok "0b30557a9fc4e90e33587da2" (takeBytes Demo.w0 12)
  /\ Helpers.resolveHelper Demo.rt [] Demo.schema "${jwt:00}" "jwt:00"
       Demo.w0
     = Helpers.resolveHelper Demo.rt [] Demo.schema "${jwt:00}" "jwt"
         Demo.w0.
Proof.
  split.
  - apply (proj1 (jwt_legacy_form Demo.rt [] Demo.schema "${jwt:12}" "12"
                    Demo.w0 eq_refl)). discriminate.
  - apply (jwt_legacy_form Demo.rt [] Demo.schema "${jwt:00}" "00" Demo.w0
             eq_refl). reflexivity.
Defined.

(** ** The signature of a token *)

Lemma take_unit (x y : string) (n : nat) :
  String.length x = 1 -> Str.take (S n) (x ++ y) = x ++ Str.take n y.
Proof.
  destruct x as [|c [|d x]]; simpl; intros H; try discriminate.
  reflexivity.
Qed.

Lemma take_all (s : string) (n : nat) :
  String.length s <= n -> Str.take n s = s.
Proof.
  revert n. induction s as [|c s IH]; intros n H; [now destruct n |].
  destruct n as [|n]; simpl in H; [lia |].
  simpl. now rewrite IH by lia.
Qed.

Lemma take_base64With (alphabet : string) :
  String.length alphabet = 64 ->
  forall k s,
    Str.take (4 * k) (Enc.base64With alphabet false s)
    = Enc.base64With alphabet false (Str.take (3 * k) s).
Proof.
  intros Halpha.
  assert (Hchar : forall i, i < 64 ->
                            String.length (Enc.charAt alphabet i) = 1).
  { intros i Hi. apply StrFacts.charAt_length. now rewrite Halpha. }
  assert (Hq : forall c, Str.code c / 4 < 64).
  { intros c. pose proof (nat_ascii_bounded c). unfold Str.code.
    apply Nat.Div0.div_lt_upper_bound. lia. }
  assert (Hm : forall c k, 0 < k -> Str.code c mod k < k).
  { intros c k Hk. apply Nat.mod_upper_bound. lia. }
  assert (Hd : forall c, Str.code c / 16 < 16).
  { intros c. pose proof (nat_ascii_bounded c). unfold Str.code.
    apply Nat.Div0.div_lt_upper_bound. lia. }
  assert (He : forall c, Str.code c / 64 < 4).
  { intros c. pose proof (nat_ascii_bounded c). unfold Str.code.
    apply Nat.Div0.div_lt_upper_bound. lia. }
  induction k as [|k IH]; intros s; [reflexivity |].
  replace (4 * S k) with (S (S (S (S (4 * k))))) by lia.
  replace (3 * S k) with (S (S (S (3 * k)))) by lia.
  destruct s as [|a [|b [|c r]]].
  - reflexivity.
  - change (Str.take (S (S (S (3 * k)))) (String a "")) with (String a "").
    apply take_all. cbn [Enc.base64With].
    rewrite !StrFacts.length_append.
    rewrite Hchar by apply Hq.
    rewrite Hchar by (pose proof (Hm a 4); lia).
    simpl. lia.
  - change (Str.take (S (S (S (3 * k)))) (String a (String b "")))
      with (String a (String b "")).
    apply take_all. cbn [Enc.base64With].
    rewrite !StrFacts.length_append.
    rewrite Hchar by apply Hq.
    rewrite Hchar by (pose proof (Hm a 4); pose proof (Hd b); lia).
    rewrite Hchar by (pose proof (Hm b 16); lia).
    simpl. lia.
  - change (Str.take (S (S (S (3 * k)))) (String a (String b (String c r))))
      with (String a (String b (String c (Str.take (3 * k) r)))).
    cbn [Enc.base64With].
    rewrite take_unit by (apply Hchar, Hq).
    rewrite take_unit
      by (apply Hchar; pose proof (Hm a 4); pose proof (Hd b); lia).
    rewrite take_unit
      by (apply Hchar; pose proof (Hm b 16); pose proof (He c); lia).
    rewrite take_unit by (apply Hchar, Hm; lia).
    now rewrite IH.
Qed.

(** X7.  For a secret that is a non-empty text and a payload that is
    absent or a JSON value, when the encoded payload and the encoded
    secret fit the longest string: the token is the encoded header, the
    encoding of the JSON text of the payload (of [{}] for a falsy one)
    and, as third segment, the encoding of the first 24 bytes of the
    secret.  Secrets that agree on these bytes give the same signature,
    and no randomness is drawn. *)
Theorem jwt_signature_is_secret_prefix :
  forall (secret : string) (payload : Val) (w : World),
    secret <> "" ->
    Str.tooLong
      (Enc.base64url
         (Js.stringifyValue (if truthy payload then payload else JObj [])))
    = false ->
    Str.tooLong (Enc.base64url secret) = false ->
    Helpers.generateJwt None (Helpers.SecretText secret) payload w
    = Ok ("eyJhbGciOiJIUzI1NiIsInR5cCI6IkpXVCJ9" ++ "."
          ++ Enc.base64url
               (Js.stringifyValue
                  (if truthy payload then payload else JObj []))
          ++ "." ++ Enc.base64url (Str.take 24 secret)) w.
Proof.
  intros secret payload w Hsecret Hbodyfits Hsecretfits.
  unfold Helpers.generateJwt, Helpers.jwtToken. cbv zeta.
  destruct (String.eqb_spec secret "") as [E|_]; [contradiction |].
  rewrite bind_ret.
  rewrite (bind_ok _ _ _ _ _ (jwt_header_text w)).
  assert (Hbody :
            Helpers.bufferFromJson
              (if truthy payload then payload else JObj [])
            = ret (Js.stringifyValue
                     (if truthy payload then payload else JObj []))).
  { unfold Helpers.bufferFromJson, Js.stringify.
    destruct (truthy payload) eqn:E; [| reflexivity].
    destruct payload; try reflexivity. discriminate E. }
  rewrite Hbody. rewrite !bind_ret_l.
  unfold Helpers.toString. rewrite Hbodyfits, Hsecretfits.
  rewrite !bind_ret_l. unfold ret. f_equal.
  do 4 f_equal.
  change 32 with (4 * 8). unfold Enc.base64url.
  rewrite (take_base64With Enc.base64urlAlphabet eq_refl 8 secret).
  reflexivity.
Qed.

Lemma jwt_signature_is_secret_prefix_witness :
  Helpers.generateJwt None
    (Helpers.SecretText "0123456789abcdefghijklmnopqrstuvwxyz")
    JUndefined Demo.w0
  = Ok ("eyJhbGciOiJIUzI1NiIsInR5cCI6IkpXVCJ9" ++ "." ++ "e30" ++ "."
        ++ Enc.base64url "0123456789abcdefghijklmn") Demo.w0.
Proof.
  apply (jwt_signature_is_secret_prefix
           "0123456789abcdefghijklmnopqrstuvwxyz" JUndefined Demo.w0).
  - discriminate.
  - vm_compute. reflexivity.
  - vm_compute. reflexivity.
Defined.

(** ** The scan over a template *)

Lemma untilBrace_inv (r : string) :
  forall body, Helpers.untilBrace r = Some body ->
               exists tail, r = body ++ String "}" tail.
Proof.
  induction r as [|c r IH]; intros body H; [discriminate |].
  cbn [Helpers.untilBrace] in H.
  destruct (Ascii.eqb_spec c "}") as [->|Hc].
  - inversion H. now exists r.
  - destruct (Helpers.untilBrace r) as [b|]; [| discriminate].
    inversion H. destruct (IH b eq_refl) as [tail ->].
    now exists tail.
Qed.

Lemma untilBrace_app (body tail : string) :
  Helpers.untilBrace (body ++ "}") = Some body ->
  Helpers.untilBrace (body ++ String "}" tail) = Some body.
Proof.
  induction body as [|c body IH]; intros H; [reflexivity |].
  cbn [append Helpers.untilBrace] in H |- *.
  destruct (Ascii.eqb c "}"); [discriminate |].
  destruct (Helpers.untilBrace (body ++ "}")) as [b|] eqn:E;
    [| discriminate].
  inversion H. subst b. now rewrite IH.
Qed.

Lemma matchExpr_inv (c : ascii) (r body : string) :
  Helpers.matchExpr (String c r) = Some body ->
  String c r = Helpers.exprText body ++ Str.drop (String.length body + 2) r.
Proof.
  unfold Helpers.matchExpr. destruct r as [|d r]; [discriminate |].
  destruct (Ascii.eqb_spec c "$") as [->|]; [| discriminate].
  destruct (Ascii.eqb_spec d "{") as [->|]; [| discriminate].
  cbn [andb].
  destruct (Helpers.untilBrace r) as [[|b body']|] eqn:E; try discriminate.
  intros H. inversion H. subst body.
  destruct (untilBrace_inv r _ E) as [tail ->].
  unfold Helpers.exprText.
  replace (String.length (String b body') + 2)
    with (String.length (String "{" (String b body' ++ "}"))).
  - change (String "{" ((String b body' ++ String "}" tail)))
      with (String "{" (String b body') ++ String "}" tail).
    replace (String "{" (String b body') ++ String "}" tail)
      with (String "{" (String b body' ++ "}") ++ tail).
    + rewrite drop_app. cbn [append].
      now rewrite !StrFacts.append_assoc.
    + cbn [append]. now rewrite StrFacts.append_assoc.
  - cbn [String.length]. rewrite StrFacts.length_append. simpl. lia.
Qed.

Lemma expressionBody_inv (body : string) :
  expressionBody body ->
  body <> "" /\ Helpers.untilBrace (body ++ "}") = Some body.
Proof.
  unfold expressionBody, Helpers.exprText, Helpers.matchExpr. cbn.
  destruct (Helpers.untilBrace (body ++ "}")) as [[|b r]|];
    try discriminate.
  intros H. inversion H. split; [discriminate | reflexivity].
Qed.

Lemma matchExpr_head (body tail : string) :
  expressionBody body ->
  Helpers.matchExpr (Helpers.exprText body ++ tail) = Some body.
Proof.
  intros H. destruct (expressionBody_inv body H) as [Hne Hu].
  unfold Helpers.exprText, Helpers.matchExpr. cbn.
  rewrite StrFacts.append_assoc. cbn [append].
  rewrite (untilBrace_app body tail Hu).
  destruct body; [contradiction | reflexivity].
Qed.

(** Where the callback gives back every expression as it stands, the
    scan gives back the text. *)
Lemma replaceFrom_identity {X St} (cb : string -> string -> M X St string)
      (s : St) :
  forall (text : string) (skip : nat),
    (forall body, In body (Helpers.matchesFrom skip text) ->
                  cb (Helpers.exprText body) body s
                  = Ok (Helpers.exprText body) s) ->
    Helpers.replaceFrom cb skip text s = Ok (Str.drop skip text) s.
Proof.
  induction text as [|c r IH]; intros skip H; [now destruct skip |].
  cbn [Helpers.replaceFrom Helpers.matchesFrom] in H |- *.
  destruct skip as [|k]; [| apply IH, H].
  destruct (Helpers.matchExpr (String c r)) as [body|] eqn:E.
  - rewrite (bind_ok _ _ _ _ _ (H body (or_introl eq_refl))).
    rewrite (bind_ok _ _ _ _ _
               (IH _ (fun b Hb => H b (or_intror Hb)))).
    unfold ret. cbn [Str.drop]. now rewrite <- (matchExpr_inv c r body E).
  - rewrite (bind_ok _ _ _ _ _ (IH 0 H)).
    unfold ret. cbn [Str.drop]. now destruct r.
Qed.

Lemma replaceFrom_skipped {X St} (cb : string -> string -> M X St string)
      (a b : string) :
  Helpers.replaceFrom cb (String.length a) (a ++ b)
  = Helpers.replaceFrom cb 0 b.
Proof.
  induction a as [|c a IH]; [reflexivity |].
  cbn [String.length append Helpers.replaceFrom]. exact IH.
Qed.

Lemma matchExpr_plain (c : ascii) (pre rest : string) :
  (forall r, rest <> String "{" r) ->
  noOpenBrace (String c pre) = true ->
  Helpers.matchExpr (String c (pre ++ rest)) = None.
Proof.
  intros Hrest Hpre. unfold Helpers.matchExpr.
  cbn [noOpenBrace] in Hpre. apply andb_true_iff in Hpre.
  destruct Hpre as [_ Hpre].
  destruct pre as [|d pre]; cbn [append].
  - destruct rest as [|d rest]; [reflexivity |].
    destruct (Ascii.eqb_spec d "{") as [->|]; [now elim (Hrest rest) |].
    now rewrite andb_false_r.
  - cbn [noOpenBrace] in Hpre. apply andb_true_iff in Hpre.
    destruct Hpre as [Hd _]. apply negb_true_iff in Hd.
    now rewrite Hd, andb_false_r.
Qed.

(** What stands before the first expression is copied. *)
Lemma replaceFrom_plain_prefix {X St}
      (cb : string -> string -> M X St string) (rest : string) :
  (forall r, rest <> String "{" r) ->
  forall (pre : string) (s : St),
    noOpenBrace pre = true ->
    Helpers.replaceFrom cb 0 (pre ++ rest) s
    = bind (Helpers.replaceFrom cb 0 rest) (fun x => ret (pre ++ x)) s.
Proof.
  intros Hrest pre s. induction pre as [|c pre IH]; intros Hpre.
  - cbn [append]. unfold bind, ret.
    now destruct (Helpers.replaceFrom cb 0 rest s).
  - cbn [append Helpers.replaceFrom].
    rewrite (matchExpr_plain c pre rest Hrest Hpre).
    cbn [noOpenBrace] in Hpre. apply andb_true_iff in Hpre.
    unfold bind in IH |- *. rewrite (IH (proj2 Hpre)).
    now destruct (Helpers.replaceFrom cb 0 rest s).
Qed.

Lemma replaceFrom_at_match {X St} (cb : string -> string -> M X St string)
      (c : ascii) (r body : string) :
  Helpers.matchExpr (String c r) = Some body ->
  Helpers.replaceFrom cb 0 (String c r)
  = (out <- cb (Helpers.exprText body) body ;;
     rest <- Helpers.replaceFrom cb (String.length body + 2) r ;;
     ret (out ++ rest)).
Proof. intros H. cbn [Helpers.replaceFrom]. now rewrite H. Qed.

(** The scan is compositional: plain text, then an expression, then the
    rest. *)
Lemma replaceAll_around {X St} (cb : string -> string -> M X St string)
      (pre body post : string) (s : St) :
  noOpenBrace pre = true ->
  expressionBody body ->
  Helpers.replaceAll cb (pre ++ Helpers.exprText body ++ post) s
  = (out <- cb (Helpers.exprText body) body ;;
     rest <- Helpers.replaceAll cb post ;;
     ret (pre ++ out ++ rest)) s.
Proof.
  intros Hpre Hbody. unfold Helpers.replaceAll.
  rewrite replaceFrom_plain_prefix; [| discriminate | exact Hpre].
  pose proof (matchExpr_head body post Hbody) as Hm.
  change (Helpers.exprText body ++ post)
    with (String "$" (String "{" ((body ++ "}") ++ post))) in Hm |- *.
  rewrite (replaceFrom_at_match cb _ _ body Hm).
  change (String "{" ((body ++ "}") ++ post))
    with ((String "{" (body ++ "}")) ++ post).
  replace (String.length body + 2)
    with (String.length (String "{" (body ++ "}")))
    by (cbn [String.length]; rewrite StrFacts.length_append; simpl; lia).
  rewrite replaceFrom_skipped.
  unfold bind, ret.
  destruct (cb (Helpers.exprText body) body s) as [out s1| |];
    try reflexivity.
  destruct (Helpers.replaceFrom cb 0 post s1); reflexivity.
Qed.

Lemma processValue_unfold (rt : Runtime) (value : string)
      (variables : Helpers.Vars) (schema : Helpers.Schema) :
  value <> "" ->
  Helpers.processValue rt value variables schema
  = (processedValue <-
       Helpers.replaceAll (Helpers.resolveHelper rt variables schema) value ;;
     Helpers.replaceAll (Helpers.resolveVariable variables) processedValue).
Proof.
  intros Hne. unfold Helpers.processValue. cbn [Helpers.processValueDepth].
  unfold Helpers.processValueWith.
  destruct (String.eqb_spec value "") as [E|_]; [contradiction | reflexivity].
Qed.

(** X8.  A template in which every expression is unknown (its tag is no
    helper name, and the map either binds it to the empty string or has
    no entry for it, the body being no name that objects inherit) comes
    back from [processValue] as it went in, with the text around and
    between the expressions, and nothing is drawn; a template without
    any expression is the special case. *)
Theorem unknown_expressions_stay_in_place :
  forall (rt : Runtime) (value : string) (variables : Helpers.Vars)
         (schema : Helpers.Schema) (w : World),
    (forall body,
        In body (Helpers.expressions value) ->
        recognizedTag body = false
        /\ ((Obj.get variables body = None /\ Obj.inherited body = false)
            \/ Obj.get variables body = Some "")) ->
    Helpers.processValue rt value variables schema w = Ok value w.
Proof.
  intros rt value variables schema w H.
  assert (Hlookup : forall body,
             In body (Helpers.expressions value) ->
             Helpers.lookupOr variables body (Helpers.exprText body)
             = Helpers.exprText body).
  { intros body Hin.
    destruct (H body Hin) as [_ [[Hnone Hinh] | Hempty]].
    - now apply lookupOr_missing.
    - now rewrite (lookupOr_own _ _ _ _ Hempty). }
  destruct (String.eqb_spec value "") as [->|Hne]; [reflexivity |].
  rewrite processValue_unfold by exact Hne.
  unfold Helpers.replaceAll.
  assert (Hfirst :
            Helpers.replaceFrom (Helpers.resolveHelper rt variables schema)
              0 value w = Ok value w).
  { rewrite replaceFrom_identity; [now destruct value |].
    intros body Hin. unfold Helpers.resolveHelper.
    rewrite unknown_tag_default by apply (H body Hin).
    now rewrite (Hlookup body Hin). }
  rewrite (bind_ok _ _ _ _ _ Hfirst).
  rewrite replaceFrom_identity; [now destruct value |].
  intros body Hin. unfold Helpers.resolveVariable, ret.
  now rewrite (Hlookup body Hin).
Qed.

Lemma unknown_expressions_stay_in_place_witness :
  Helpers.processValue Demo.rt "http://${host}:${port}/${path}"
    [("port", ""); ("db", "pg")] Demo.schema Demo.w0
  = Ok "http://${host}:${port}/${path}" Demo.w0.
Proof.
  apply (unknown_expressions_stay_in_place Demo.rt
           "http://${host}:${port}/${path}" [("port", ""); ("db", "pg")]
           Demo.schema Demo.w0).
  intros body Hin. vm_compute in Hin.
  destruct Hin as [<- | [<- | [<- | []]]]; split; auto.
Defined.

Lemma processValue_reference :
  forall (rt : Runtime) (variables : Helpers.Vars) (schema : Helpers.Schema)
         (pre name post v : string) (w : World),
    noOpenBrace pre = true ->
    noOpenBrace post = true ->
    expressionBody name ->
    recognizedTag name = false ->
    Obj.get variables name = Some v ->
    v <> "" ->
    noOpenBrace v = true ->
    Helpers.processValue rt (pre ++ Helpers.exprText name ++ post) variables
      schema w
    = Ok (pre ++ v ++ post) w.
Proof.
  intros rt variables schema pre name post v w Hpre Hpost Hname Htag Hget
         Hne Hv.
  rewrite processValue_unfold by now destruct pre.
  assert (Hlookup :
            Helpers.lookupOr variables name (Helpers.exprText name) = v).
  { rewrite (lookupOr_own _ _ _ _ Hget).
    destruct (String.eqb_spec v "") as [E|_]; [contradiction | reflexivity]. }
  assert (Hfirst :
            Helpers.replaceAll (Helpers.resolveHelper rt variables schema)
              (pre ++ Helpers.exprText name ++ post) w
            = Ok (pre ++ v ++ post) w).
  { rewrite replaceAll_around by assumption.
    unfold Helpers.resolveHelper at 1.
    rewrite (bind_ok _ _ _ _ _
               (unknown_tag_default rt _ variables schema _ name w Htag)).
    unfold Helpers.replaceAll.
    rewrite (bind_ok _ _ _ _ _
               (replaceFrom_clean _ post w
                  (noOpenBrace_expressions post Hpost))).
    unfold ret. now rewrite Hlookup. }
  rewrite (bind_ok _ _ _ _ _ Hfirst).
  apply replaceFrom_clean. apply noOpenBrace_expressions.
  rewrite !noOpenBrace_app, Hpre, Hv, Hpost. reflexivity.
Qed.

(** X9.  A reference [${name}] to a variable of the map that holds a
    non-empty value is replaced by that value, and the plain text before
    and after it is kept; nothing is drawn. *)
Theorem reference_is_substituted :
  forall (rt : Runtime) (variables : Helpers.Vars) (schema : Helpers.Schema)
         (pre name post v : string) (w : World),
    noOpenBrace pre = true ->
    noOpenBrace post = true ->
    expressionBody name ->
    recognizedTag name = false ->
    Obj.get variables name = Some v ->
    v <> "" ->
    noOpenBrace v = true ->
    Helpers.processValue rt (pre ++ Helpers.exprText name ++ post) variables
      schema w
    = Ok (pre ++ v ++ post) w.
Proof. exact processValue_reference. Qed.

Lemma reference_is_substituted_witness :
  Helpers.processValue Demo.rt "postgres://${db_host}:5432/app"
    [("db_host", "db.internal")] Demo.schema Demo.w0
  = Ok "postgres://db.internal:5432/app" Demo.w0.
Proof.
  apply (reference_is_substituted Demo.rt [("db_host", "db.internal")]
           Demo.schema "postgres://" "db_host" ":5432/app" "db.internal"
           Demo.w0); try reflexivity.
  discriminate.
Defined.

(** ** References between variables *)

Lemma app_prefix_cases (a : string) :
  forall y p r : string,
    a ++ y = p ++ r ->
    (exists a', a = p ++ a')
    \/ (exists c p', p = a ++ String c p' /\ y = String c p' ++ r).
Proof.
  induction a as [|x a IH]; intros y p r H.
  - destruct p as [|c p']; [left; now exists "" |].
    right. exists c, p'. now split.
  - destruct p as [|c p']; [left; now exists (String x a) |].
    cbn [append] in H. inversion H. subst c.
    destruct (IH y p' r H2) as [[a' ->] | (c & p'' & -> & ->)].
    + left. now exists a'.
    + right. now exists c, p''.
Qed.

Lemma close_brace_in (p a q : string) :
  p = a ++ String "}" q -> In "}"%char (list_ascii_of_string p).
Proof.
  intros ->. rewrite list_of_string_app. apply in_or_app. right. now left.
Qed.

Lemma untouched_by_cases (v : string) :
  v <> "${domain}" ->
  (forall r, v <> "${base64:" ++ r) ->
  (forall r, v <> "${password:" ++ r) ->
  v <> "${hash}" ->
  (forall r, v <> "${hash:" ++ r) ->
  untouchedByPass1 v = true.
Proof.
  intros H1 H2 H3 H4 H5. unfold untouchedByPass1.
  destruct (String.eqb_spec v "${domain}") as [E|_]; [contradiction |].
  destruct (Str.startsWith v "${base64:") eqn:E2;
    [apply StrFacts.startsWith_inv in E2; destruct E2 as [r E2];
     now elim (H2 r) |].
  destruct (Str.startsWith v "${password:") eqn:E3;
    [apply StrFacts.startsWith_inv in E3; destruct E3 as [r E3];
     now elim (H3 r) |].
  destruct (String.eqb_spec v "${hash}") as [E|_]; [contradiction |].
  destruct (Str.startsWith v "${hash:") eqn:E5;
    [apply StrFacts.startsWith_inv in E5; destruct E5 as [r E5];
     now elim (H5 r) |].
  reflexivity.
Qed.

(** A value that opens with plain text, or with a reference to a name
    that is no helper, is none of the patterns of the first pass. *)
Lemma untouched_reference (pre a post : string) :
  noOpenBrace pre = true ->
  recognizedTag a = false ->
  untouchedByPass1 (pre ++ Helpers.exprText a ++ post) = true.
Proof.
  intros Hpre Htag.
  destruct pre as [|c pre].
  - cbn [append]. unfold Helpers.exprText. cbn [append].
    rewrite !StrFacts.append_assoc. cbn [append].
    unfold recognizedTag, tagOf in Htag.
    apply untouched_by_cases.
    + intros E. inversion E as [E1]. clear E.
      change "domain}" with ("domain" ++ "}") in E1.
      destruct (app_prefix_cases _ _ _ _ E1)
        as [[a' ->] | (c & p' & Hp & Hy)].
      * cbn [append] in E1. inversion E1 as [E2].
        destruct a' as [|x [|y a']]; try discriminate;
          vm_compute in Htag; discriminate.
      * inversion Hy. subst c. apply close_brace_in in Hp.
        simpl in Hp. repeat destruct Hp as [Hp | Hp]; discriminate || auto.
    + intros r E. inversion E as [E1]. clear E.
      change (String "b" (String "a" (String "s" (String "e" (String "6"
                (String "4" (String ":" r)))))))
        with ("base64:" ++ r) in E1.
      destruct (app_prefix_cases _ _ _ _ E1)
        as [[a' ->] | (c & p' & Hp & Hy)].
      * cbn in Htag. discriminate.
      * inversion Hy. subst c. apply close_brace_in in Hp.
        simpl in Hp. repeat destruct Hp as [Hp | Hp]; discriminate || auto.
    + intros r E. inversion E as [E1]. clear E.
      change (String "p" (String "a" (String "s" (String "s" (String "w"
                (String "o" (String "r" (String "d" (String ":" r)))))))))
        with ("password:" ++ r) in E1.
      destruct (app_prefix_cases _ _ _ _ E1)
        as [[a' ->] | (c & p' & Hp & Hy)].
      * cbn in Htag. discriminate.
      * inversion Hy. subst c. apply close_brace_in in Hp.
        simpl in Hp. repeat destruct Hp as [Hp | Hp]; discriminate || auto.
    + intros E. inversion E as [E1]. clear E.
      change "hash}" with ("hash" ++ "}") in E1.
      destruct (app_prefix_cases _ _ _ _ E1)
        as [[a' ->] | (c & p' & Hp & Hy)].
      * cbn [append] in E1. inversion E1 as [E2].
        destruct a' as [|x [|y a']]; try discriminate;
          vm_compute in Htag; discriminate.
      * inversion Hy. subst c. apply close_brace_in in Hp.
        simpl in Hp. repeat destruct Hp as [Hp | Hp]; discriminate || auto.
    + intros r E. inversion E as [E1]. clear E.
      change (String "h" (String "a" (String "s" (String "h" (String ":" r)))))
        with ("hash:" ++ r) in E1.
      destruct (app_prefix_cases _ _ _ _ E1)
        as [[a' ->] | (c & p' & Hp & Hy)].
      * cbn in Htag. discriminate.
      * inversion Hy. subst c. apply close_brace_in in Hp.
        simpl in Hp. repeat destruct Hp as [Hp | Hp]; discriminate || auto.
  - assert (Hsecond : exists d t,
               String c pre ++ Helpers.exprText a ++ post
               = String c (String d t) /\ d <> "{"%char).
    { cbn [noOpenBrace] in Hpre. apply andb_true_iff in Hpre.
      destruct Hpre as [_ Hpre]. destruct pre as [|d pre].
      - eexists "$"%char, _. split; [reflexivity | discriminate].
      - cbn [noOpenBrace] in Hpre. apply andb_true_iff in Hpre.
        destruct Hpre as [Hd _]. apply negb_true_iff in Hd.
        exists d, (pre ++ Helpers.exprText a ++ post).
        split; [reflexivity |]. intros ->. discriminate. }
    destruct Hsecond as (d & t & -> & Hd).
    apply untouched_by_cases; intros; intros E; inversion E; contradiction.
Qed.






Section Reference.
Context (rt : Runtime) (schema : Helpers.Schema).
Context (a b pre post r : string).
Hypothesis (Hpre : noOpenBrace pre = true) (Hpost : noOpenBrace post = true).
Hypothesis (Hbody : expressionBody a) (Htag : recognizedTag a = false).
Hypothesis (Hne : r <> "") (Hr : noOpenBrace r = true).
Hypothesis (Hab : a <> b).
Hypothesis (Hap : a <> "__proto__") (Hbp : b <> "__proto__").


End Reference.



(** ** The errors of the descriptor checks *)

Lemma adds_ret {A} (a : A) : adds [] (ret a).
Proof. intros st. exists a, st. now rewrite app_nil_r. Qed.

Lemma adds_error (message : string) : adds [message] (error message).
Proof. intros st. now eexists tt, _. Qed.

Lemma adds_warning (message : string) : adds [] (warning message).
Proof.
  intros st. eexists tt, _. split; [reflexivity |]. simpl.
  now rewrite app_nil_r.
Qed.

Lemma adds_bind {A B} (n1 n2 : list string) (m : V A) (k : A -> V B) :
  adds n1 m -> (forall a, adds n2 (k a)) -> adds (n1 ++ n2) (bind m k).
Proof.
  intros Hm Hk st. destruct (Hm st) as (a & st1 & Hrun & Herr & Hw).
  destruct (Hk a st1) as (b & st2 & Hrun2 & Herr2 & Hw2).
  exists b, st2. rewrite (bind_ok _ _ _ _ _ Hrun). split; [exact Hrun2 |].
  split; [now rewrite Herr2, Herr, app_assoc | congruence].
Qed.

Lemma adds_seq {A B} (m : V A) (k : A -> V B) :
  adds [] m -> (forall a, adds [] (k a)) -> adds [] (bind m k).
Proof. intros Hm Hk. now apply (adds_bind [] []). Qed.

Lemma adds_when_warning (b : bool) (message : string) :
  adds [] (when b (warning message)).
Proof. destruct b; [apply adds_warning | apply adds_ret]. Qed.

Lemma adds_when_error (b : bool) (message : string) :
  adds (if b then [message] else []) (when b (error message)).
Proof. destruct b; [apply adds_error | apply adds_ret]. Qed.

Lemma adds_forEachFrom {A} (g : nat -> A -> list string)
      (f : nat -> A -> V unit) (l : list A) :
  (forall j x, adds (g j x) (f j x)) ->
  forall start,
    adds (flat_map (fun '(j, x) => g j x) (Js.indexFrom start l))
         (forEachFrom start f l).
Proof.
  intros Hf. induction l as [|x l IH]; intros start.
  - apply adds_ret.
  - cbn [forEachFrom Js.indexFrom flat_map].
    apply adds_bind; [apply Hf |]. intros _. apply IH.
Qed.

Lemma flat_map_nil {A B} (f : A -> list B) (l : list A) :
  (forall x, In x l -> f x = []) -> flat_map f l = [].
Proof.
  intros H. induction l as [|x l IH]; [reflexivity |].
  simpl. rewrite (H x (or_introl eq_refl)), IH; [reflexivity |].
  intros y Hy. apply H. now right.
Qed.

Lemma adds_forEach_none {A} (f : nat -> A -> V unit) (l : list A) :
  (forall j x, adds [] (f j x)) -> adds [] (forEach f l).
Proof.
  intros Hf. unfold forEach.
  rewrite <- (flat_map_nil (fun '(j, x) => @nil string) (Js.indexFrom 0 l))
    by (now intros [j x]).
  now apply (adds_forEachFrom (fun _ _ => [])).
Qed.

Lemma validateHelper_adds (rt : Runtime) (helper context : string) :
  adds [] (TemplateValidator.validateHelper rt helper context).
Proof.
  unfold TemplateValidator.validateHelper.
  repeat match goal with
         | |- adds [] (if ?c then _ else _) => destruct c
         | |- adds [] (ret _) => apply adds_ret
         | |- adds [] (when _ (warning _)) => apply adds_when_warning
         end.
Qed.



(** X12.  What one entry of [variables] adds to the errors: nothing when
    its value is a string, whatever expressions the string holds, and
    otherwise exactly [variables.<key>: must be a string]. *)
Theorem checkVariable_errors :
  forall (rt : Runtime) (key : string) (value : Val) (st : VState),
    exists st',
      TemplateValidator.checkVariable rt (key, value) st = Ok tt st'
      /\ errors st'
         = (errors st
            ++ (if isString value then []
                else [("variables." ++ key ++ ": must be a string")%string]))%list.
Proof.
  intros rt key value st.
  assert (H : adds (if isString value then []
                    else ["variables." ++ key ++ ": must be a string"])
                   (TemplateValidator.checkVariable rt (key, value))).
  { unfold TemplateValidator.checkVariable.
    destruct value; cbn [isString]; try apply adds_error.
    apply adds_forEach_none. intros j x. apply validateHelper_adds. }
  destruct (H st) as ([] & st' & Hrun & Herr & _). now exists st'.
Qed.

Lemma flat_map_nil_inv {A B} (f : A -> list B) (l : list A) :
  flat_map f l = [] -> forall x, In x l -> f x = [].
Proof.
  induction l as [|y l IH]; intros H x []; simpl in H;
    apply app_eq_nil in H; destruct H as [Hy Hl].
  - now subst.
  - now apply IH.
Qed.

Lemma indexFrom_In {A} (l : list A) :
  forall start x, In x l -> exists j, In (j, x) (Js.indexFrom start l).
Proof.
  induction l as [|y l IH]; intros start x []; cbn [Js.indexFrom].
  - subst. exists start. now left.
  - destruct (IH (S start) x H) as [j Hj]. exists j. now right.
Qed.

Lemma indexFrom_snd {A} (l : list A) :
  forall start j x, In (j, x) (Js.indexFrom start l) -> In x l.
Proof.
  induction l as [|y l IH]; intros start j x []; cbn [Js.indexFrom].
  - inversion H. now left.
  - right. eapply IH. exact H.
Qed.

(** X13.  [config.env] is checked without ever throwing, and it adds no
    error exactly when it is absent, an object, or an array none of whose
    entries is [null] or [undefined]; strings without [=], empty objects,
    booleans and numbers are at most warned about. *)
Theorem checkEnv_errors :
  forall (env : Val) (st : VState),
    exists st' new,
      TemplateValidator.checkEnv env st = Ok tt st'
      /\ errors st' = (errors st ++ new)%list
      /\ (new = [] <-> acceptableEnv env = true).
Proof.
  intros env st.
  pose (entryErrors := fun (j : nat) (x : Val) =>
          if nullish x
          then [("config.env[" ++ Num.ofNat j ++ "]")
                ++ ": must be a string, object, boolean, or number"]
          else []).
  assert (Hentry : forall j x,
             adds (entryErrors j x) (TemplateValidator.checkEnvEntry j x)).
  { intros j x. unfold TemplateValidator.checkEnvEntry, entryErrors.
    destruct x; cbn [nullish]; try apply adds_error; try apply adds_ret;
      apply adds_when_warning. }
  assert (Hone : forall message,
             exists st' new,
               error message st = Ok tt st'
               /\ errors st' = (errors st ++ new)%list
               /\ (new = [] <-> false = true)).
  { intros message. eexists _, [message]. split; [reflexivity |].
    split; [reflexivity |]. split; discriminate. }
  destruct env as [| | b | n | s | items | props]; cbn [acceptableEnv];
    try apply Hone.
  - exists st, []. split; [reflexivity |]. rewrite app_nil_r. tauto.
  - destruct (adds_forEachFrom entryErrors _ items Hentry 0 st)
      as ([] & st' & Hrun & Herr & _).
    eexists st', _. split; [exact Hrun |]. split; [exact Herr |].
    rewrite forallb_forall. split.
    + intros Hnil x Hin. destruct (indexFrom_In items 0 x Hin) as [j Hj].
      pose proof (flat_map_nil_inv _ _ Hnil (j, x) Hj) as Hx.
      unfold entryErrors in Hx. cbn in Hx.
      now destruct (nullish x).
    + intros Hall. apply flat_map_nil. intros [j x] Hin.
      apply indexFrom_snd in Hin. specialize (Hall x Hin).
      unfold entryErrors. now destruct (nullish x).
  - destruct (adds_when_warning
                (List.length (Js.keys (JObj props)) =? 0)
                "config.env is an empty object" st)
      as ([] & st' & Hrun & Herr & _).
    exists st', []. split; [exact Hrun |]. split; [exact Herr |]. tauto.
Qed.

Lemma flat_map_indexFrom {A B} (g : A -> list B) (l : list A) :
  forall start,
    flat_map (fun '(j, x) => g x) (Js.indexFrom start l) = flat_map g l.
Proof.
  induction l as [|x l IH]; intros start; [reflexivity |].
  cbn [Js.indexFrom flat_map]. now rewrite IH.
Qed.

(** The resolution of the variables and of the fields that use them
    leaves the errors as they are, whether it returns or throws. *)
Lemma resolveAll_no_error (rt : Runtime) (variables config : Val)
      (st : VState) :
  match TemplateValidator.resolveAll rt variables config st with
  | Ok _ st' | Throw _ st' => errors st' = errors st
  | Exit _ _ => False
  end.
Proof.
  pose proof (resolveAll_emits rt (fun _ => False) variables config st) as H.
  destruct (TemplateValidator.resolveAll rt variables config st)
    as [a st' | e st' |]; try exact H;
    destruct H as (new & Herr & Hall);
    (destruct new as [|m new]; [now rewrite app_nil_r in Herr |]);
    inversion Hall; contradiction.
Qed.

(** X14.  The errors a [variables] table can bring, in full: one
    [variables.<key>: must be a string] for each value that is not a
    string, in the order of the keys, and then at most one more, when the
    resolution of the variables throws: the message of what was thrown
    after [Failed to process variables: ].  What the resolution leaves
    unresolved is only warned about. *)
Theorem checkVariables_errors :
  forall (rt : Runtime) (props : list (string * Val)) (config : Val)
         (st : VState),
    exists st0 st',
      world st0 = world st
      /\ TemplateValidator.checkVariables rt (JObj props) config st
         = Ok tt st'
      /\ errors st'
         = (errors st
            ++ flat_map
                 (fun '(key, value) =>
                    if isString value then []
                    else [("variables." ++ key
                           ++ ": must be a string")%string])
                 props
            ++ match TemplateValidator.resolveAll rt (JObj props) config
                       st0 with
               | Throw e _ =>
                   [("Failed to process variables: "
                     ++ errorMessage rt e)%string]
               | _ => []
               end)%list.
Proof.
  intros rt props config st.
  pose (perKey := fun (_ : nat) (entry : string * Val) =>
          let '(key, value) := entry in
          if isString value then []
          else ["variables." ++ key ++ ": must be a string"]).
  assert (Hkey : forall j entry,
             adds (perKey j entry)
                  (TemplateValidator.checkVariable rt entry)).
  { intros j [key value]. unfold TemplateValidator.checkVariable, perKey.
    destruct value; cbn [isString]; try apply adds_error.
    apply adds_forEach_none. intros i x. apply validateHelper_adds. }
  destruct (adds_forEachFrom perKey (fun _ => TemplateValidator.checkVariable rt)
              props Hkey 0 st) as ([] & st0 & Hrun & Herr & Hworld).
  assert (Hflat : flat_map (fun '(j, x) => perKey j x) (Js.indexFrom 0 props)
                  = flat_map
                      (fun '(key, value) =>
                         if isString value then []
                         else ["variables." ++ key ++ ": must be a string"])
                      props).
  { rewrite <- (flat_map_indexFrom _ props 0). apply flat_map_ext.
    intros [j [key value]]. reflexivity. }
  rewrite Hflat in Herr. clear Hflat.
  exists st0.
  unfold TemplateValidator.checkVariables. cbn [truthy typeofObject isArray
                                                negb orb Js.entries].
  cbv iota. unfold forEach.
  rewrite (bind_ok _ _ _ _ _ Hrun). unfold tryCatch.
  pose proof (resolveAll_no_error rt (JObj props) config st0) as Hres.
  destruct (TemplateValidator.resolveAll rt (JObj props) config st0)
    as [[] st1 | e st1 |]; [| | contradiction].
  - exists st1. split; [exact Hworld |]. split; [reflexivity |].
    rewrite Hres, Herr. now rewrite app_nil_r.
  - eexists. split; [exact Hworld |]. split; [reflexivity |].
    cbn [errors]. rewrite Hres, Herr. now rewrite <- app_assoc.
Qed.

(** ** The port entries of a service *)

Lemma portMapping_digits (a b t : string) :
  digitString a -> digitString b ->
  DockerComposeValidator.portMapping (a ++ ":" ++ b ++ t) = true.
Proof.
  intros [Ha Hda] [Hb Hdb]. unfold DockerComposeValidator.portMapping.
  change (a ++ ":" ++ b ++ t) with (a ++ String ":" (b ++ t)).
  rewrite (spanDigits_app a ":" (b ++ t) Hda eq_refl).
  destruct a as [|x a]; [contradiction |].
  destruct b as [|d b]; [contradiction |].
  cbn [append]. simpl in Hdb. apply andb_true_iff in Hdb. apply Hdb.
Qed.

Lemma portMapping_bare (p : string) :
  forallb Str.isDigit (list_ascii_of_string p) = true ->
  DockerComposeValidator.portMapping p = false.
Proof.
  intros H. unfold DockerComposeValidator.portMapping.
  rewrite (spanDigits_all p H). now destruct p.
Qed.

(** The check of one port entry, as [validatePortsFormat] has it. *)
Lemma portEntry_returns (serviceName : string) (index : nat) (port : Val) :
  returns
    match port with
    | JStr p =>
        when (DockerComposeValidator.portMapping p)
             (error ("Service '" ++ serviceName ++ "': ports["
                     ++ Num.ofNat index
                     ++ "] uses port mapping format '" ++ p
                     ++ "'. According to README, use only port number (e.g., '3000') instead of '3000:3000'. Dokploy handles port routing."))
    | JArr _ | JObj _ =>
        when (truthy (Js.field port "published")
              && truthy (Js.field port "target"))
             (error ("Service '" ++ serviceName ++ "': ports["
                     ++ Num.ofNat index
                     ++ "] uses port mapping (published: "
                     ++ Js.toStr (Js.field port "published")
                     ++ ", target: "
                     ++ Js.toStr (Js.field port "target")
                     ++ "). According to README, use only port number. Dokploy handles port routing."))
    | _ => ret tt
    end.
Proof.
  destruct port; try apply returns_ret;
    apply returns_when, returns_error.
Qed.

Lemma servicePorts_returns (serviceName : string) (service : Val) :
  portsReadable service ->
  returns
    (ports <- getField service "ports" ;;
     when (truthy ports)
       match ports with
       | JArr items =>
           forEach
             (fun index port =>
                match port with
                | JStr p =>
                    when (DockerComposeValidator.portMapping p)
                         (error ("Service '" ++ serviceName ++ "': ports["
                                 ++ Num.ofNat index
                                 ++ "] uses port mapping format '" ++ p
                                 ++ "'. According to README, use only port number (e.g., '3000') instead of '3000:3000'. Dokploy handles port routing."))
                | JArr _ | JObj _ =>
                    when (truthy (Js.field port "published")
                          && truthy (Js.field port "target"))
                         (error ("Service '" ++ serviceName ++ "': ports["
                                 ++ Num.ofNat index
                                 ++ "] uses port mapping (published: "
                                 ++ Js.toStr (Js.field port "published")
                                 ++ ", target: "
                                 ++ Js.toStr (Js.field port "target")
                                 ++ "). According to README, use only port number. Dokploy handles port routing."))
                | _ => ret tt
                end)
             items
       | _ => throw (NotAFunction "service.ports.forEach")
       end).
Proof.
  intros [Hnull Hports]. unfold getField. rewrite Hnull, bind_ret_l.
  destruct Hports as [Hfalsy | Harr].
  - rewrite Hfalsy. apply returns_ret.
  - destruct (Js.field service "ports"); try discriminate.
    cbn [truthy when]. apply returns_forEachFrom.
    intros j x _. apply portEntry_returns.
Qed.

(** X15.  A port entry written [<digits>:<digits>...] is an error: when
    every service can be read, [validatePortsFormat] returns and the
    errors it adds hold the message that names the service, the index of
    the entry and the entry. *)
Theorem port_mapping_is_reported :
  forall (props : list (string * Val)) (j : nat) (serviceName : string)
         (service : Val) (items : list Val) (i : nat) (a b t : string)
         (st : VState),
    (forall n s, In (n, s) props -> portsReadable s) ->
    nth_error props j = Some (serviceName, service) ->
    Js.field service "ports" = JArr items ->
    nth_error items i = Some (JStr (a ++ ":" ++ b ++ t)) ->
    digitString a ->
    digitString b ->
    exists st' new,
      DockerComposeValidator.validatePortsFormat (JObj props) st = Ok tt st'
      /\ errors st' = (errors st ++ new)%list
      /\ In (usesPortMapping serviceName i (a ++ ":" ++ b ++ t)) new.
Proof.
  intros props j serviceName service items i a b t st Hall Hservice Hports
         Hitem Ha Hb.
  assert (H : reports (usesPortMapping serviceName i (a ++ ":" ++ b ++ t))
                      (DockerComposeValidator.validatePortsFormat
                         (JObj props))).
  { unfold DockerComposeValidator.validatePortsFormat,
      DockerComposeValidator.forEachService, forEach.
    cbn [Js.entries].
    apply (forEachFrom_reports _ _ props 0 j (serviceName, service) Hservice).
    - intros k [n s] Hin. apply servicePorts_returns. exact (Hall n s Hin).
    - cbn [Nat.add]. unfold getField.
      destruct (Hall serviceName service (nth_error_In _ _ Hservice))
        as [Hnull _].
      rewrite Hnull, bind_ret_l, Hports. cbn [truthy when]. unfold forEach.
      apply (forEachFrom_reports _ _ items 0 i _ Hitem).
      + intros k x _. apply portEntry_returns.
      + cbn [Nat.add]. rewrite (portMapping_digits a b t Ha Hb).
        cbn [when]. apply reports_error. }
  destruct (H st) as ([] & st' & new & Hrun & Herr & Hin).
  now exists st', new.
Qed.

Lemma port_mapping_is_reported_witness :
  exists st' new,
    DockerComposeValidator.validatePortsFormat
      (JObj [("db", JObj [("image", JStr "postgres")]);
             ("web", JObj [("ports", JArr [JStr "80"; JStr "8080:80/tcp"])])])
      Demo.st0 = Ok tt st'
    /\ errors st' = (errors Demo.st0 ++ new)%list
    /\ In "Service 'web': ports[1] uses port mapping format '8080:80/tcp'. According to README, use only port number (e.g., '3000') instead of '3000:3000'. Dokploy handles port routing."
          new.
Proof.
  apply (port_mapping_is_reported
           [("db", JObj [("image", JStr "postgres")]);
            ("web", JObj [("ports", JArr [JStr "80"; JStr "8080:80/tcp"])])]
           1 "web" (JObj [("ports", JArr [JStr "80"; JStr "8080:80/tcp"])])
           [JStr "80"; JStr "8080:80/tcp"] 1 "8080" "80" "/tcp" Demo.st0);
    try reflexivity.
  - intros n s [H | [H | []]]; inversion H; subst; split;
      try reflexivity; [now left | now right].
  - split; [discriminate | reflexivity].
  - split; [discriminate | reflexivity].
Defined.

Lemma adds_forEachFrom_in {A} (f : nat -> A -> V unit) (l : list A) :
  (forall j x, In x l -> adds [] (f j x)) ->
  forall start, adds [] (forEachFrom start f l).
Proof.
  induction l as [|x l IH]; intros Hf start; [apply adds_ret |].
  cbn [forEachFrom]. apply adds_seq; [apply Hf; now left |].
  intros _. apply IH. intros j y Hy. apply Hf. now right.
Qed.

Lemma validatePortsFormat_bare (props : list (string * Val)) :
  (forall n s, In (n, s) props ->
               nullish s = false
               /\ (truthy (Js.field s "ports") = false
                   \/ exists items,
                        Js.field s "ports" = JArr items
                        /\ forallb barePort items = true)) ->
  adds [] (DockerComposeValidator.validatePortsFormat (JObj props)).
Proof.
  intros Hall.
  unfold DockerComposeValidator.validatePortsFormat,
    DockerComposeValidator.forEachService, forEach.
  cbn [Js.entries].
  apply adds_forEachFrom_in. intros _ [n s] Hin.
  destruct (Hall n s Hin) as [Hnull Hports].
  unfold getField. rewrite Hnull, bind_ret_l.
  destruct Hports as [Hfalsy | (items & Hitems & Hbare)].
  - rewrite Hfalsy. apply adds_ret.
  - rewrite Hitems. cbn [truthy when]. unfold forEach.
    apply adds_forEachFrom_in. intros j x Hx.
    rewrite forallb_forall in Hbare. specialize (Hbare x Hx).
    destruct x; try discriminate; [apply adds_ret |].
    cbn [barePort] in Hbare. rewrite (portMapping_bare _ Hbare).
    apply adds_ret.
Qed.

(** X16.  Port entries that are bare numbers, as strings of digits or as
    numbers, bring no error, however many services and entries there
    are. *)
Theorem bare_ports_add_no_error :
  forall (props : list (string * Val)) (st : VState),
    (forall n s, In (n, s) props ->
                 nullish s = false
                 /\ (truthy (Js.field s "ports") = false
                     \/ exists items,
                          Js.field s "ports" = JArr items
                          /\ forallb barePort items = true)) ->
    exists st',
      DockerComposeValidator.validatePortsFormat (JObj props) st = Ok tt st'
      /\ errors st' = errors st.
Proof.
  intros props st Hall.
  destruct (validatePortsFormat_bare props Hall st)
    as ([] & st' & Hrun & Herr & _).
  exists st'. split; [exact Hrun |]. now rewrite app_nil_r in Herr.
Qed.

Lemma bare_ports_add_no_error_witness :
  exists st',
    DockerComposeValidator.validatePortsFormat
      (JObj [("db", JObj [("image", JStr "postgres")]);
             ("web", JObj [("ports", JArr [JStr "80"; JNum (NInt 443)])])])
      Demo.st0 = Ok tt st'
    /\ errors st' = errors Demo.st0.
Proof.
  apply (bare_ports_add_no_error
           [("db", JObj [("image", JStr "postgres")]);
            ("web", JObj [("ports", JArr [JStr "80"; JNum (NInt 443)])])]
           Demo.st0).
  intros n s [H | [H | []]]; inversion H; subst; split; try reflexivity.
  - now left.
  - right. now exists [JStr "80"; JNum (NInt 443)].
Defined.

(** ** A service that is [null] *)

Lemma bind_throw {X St A B} (m : M X St A) (k : A -> M X St B) s e s' :
  m s = Throw e s' -> bind m k s = Throw e s'.
Proof. unfold bind. now intros ->. Qed.

Lemma forEachFrom_throws {A} (bad : A -> bool) (thrown : A -> ErrKind)
      (f : nat -> A -> V unit) (l : list A) :
  (forall j x st, bad x = true -> f j x st = Throw (thrown x) st) ->
  (forall j x st, bad x = false -> exists st', f j x st = Ok tt st') ->
  existsb bad l = true ->
  forall start st,
    exists x st',
      In x l /\ bad x = true
      /\ forEachFrom start f l st = Throw (thrown x) st'.
Proof.
  intros Hbad Hgood. induction l as [|y l IH]; intros Hex start st;
    [discriminate |].
  cbn [existsb forEachFrom] in Hex |- *.
  destruct (bad y) eqn:Hy.
  - exists y, st. split; [now left |]. split; [exact Hy |].
    unfold bind. now rewrite (Hbad start y st Hy).
  - cbn [orb] in Hex. destruct (Hgood start y st Hy) as [st1 Hrun].
    destruct (IH Hex (S start) st1) as (x & st' & Hin & Hx & Hthrow).
    exists x, st'. split; [now right |]. split; [exact Hx |].
    now rewrite (bind_ok _ _ _ _ _ Hrun).
Qed.

(** X17.  A manifest in which a service is [null] (a key with nothing
    under it) is not reported: the first check that reads a field of the
    service throws, nothing catches it, and [validate] ends with that
    exception, neither a report nor an exit. *)
Theorem null_service_makes_validate_throw :
  forall (rt : Runtime) (options : DockerComposeValidator.Options)
         (fs : string -> File) (c : ascii) (path : string)
         (compose : Val) (props : list (string * Val))
         (name : string) (service : Val) (st : VState),
    DockerComposeValidator.composePath options = Some (String c path) ->
    fs (String c path) = Parsed compose ->
    Js.field compose "services" = JObj props ->
    In (name, service) props ->
    nullish service = true ->
    exists s st',
      nullish s = true
      /\ DockerComposeValidator.validate rt options fs st
         = Throw (ReadOfNullish s "container_name") st'.
Proof.
  intros rt options fs c path compose props name service st Hpath Hfs
         Hservices Hin Hnull.
  destruct compose as [| | | | | | cprops]; try discriminate.
  assert (Hex : existsb (fun e : string * Val => nullish (snd e)) props
                = true).
  { apply existsb_exists. now exists (name, service). }
  destruct (forEachFrom_throws
              (fun e : string * Val => nullish (snd e))
              (fun e => ReadOfNullish (snd e) "container_name")
              (fun (_ : nat) '(serviceName, service) =>
                 containerName <- getField service "container_name" ;;
                 when (truthy containerName)
                      (error ("Service '" ++ serviceName
                              ++ "': Found 'container_name' field. According to README, container_name should not be used. Dokploy manages container names automatically.")))
              props) with (start := 0) (st := st)
    as ([n s] & st' & _ & Hs & Hthrow).
  - intros j [n s] st0 Hbad. cbn [snd] in Hbad |- *.
    unfold getField, bind, throw. now rewrite Hbad.
  - intros j [n s] st0 Hgood. cbn [snd] in Hgood |- *.
    unfold getField. rewrite Hgood, bind_ret_l.
    destruct (truthy (Js.field s "container_name")); now eexists.
  - exact Hex.
  - exists s, st'. split; [exact Hs |].
    unfold DockerComposeValidator.validate. rewrite Hpath, Hfs.
    unfold DockerComposeValidator.validateDockerComposeSyntax,
      DockerComposeValidator.parseCompose.
    cbn [truthy typeofObject negb orb]. cbv iota.
    rewrite !bind_ret_l. cbn [negb]. cbv iota. rewrite ?bind_ret_l.
    unfold DockerComposeValidator.validateServicesExist.
    rewrite Hservices. cbn [truthy negb orb].
    change (Js.keys (JObj props)) with (map fst props).
    rewrite length_map.
    destruct (List.length props =? 0) eqn:E.
    { apply Nat.eqb_eq, length_zero_iff_nil in E. subst props.
      destruct Hin. }
    rewrite ?bind_ret_l. cbn [negb]. cbv iota.
    apply bind_throw. exact Hthrow.
Qed.

Lemma null_service_makes_validate_throw_witness :
  exists s st',
    nullish s = true
    /\ DockerComposeValidator.validate Demo.rt
         {| DockerComposeValidator.composePath := Some "docker-compose.yml";
            DockerComposeValidator.verbose := false;
            DockerComposeValidator.exitOnError := true |}
         (fun _ =>
            Parsed (JObj [("services",
                           JObj [("web", Demo.image); ("db", JNull)])]))
         Demo.st0
       = Throw (ReadOfNullish s "container_name") st'.
Proof.
  apply (null_service_makes_validate_throw Demo.rt
           {| DockerComposeValidator.composePath := Some "docker-compose.yml";
              DockerComposeValidator.verbose := false;
              DockerComposeValidator.exitOnError := true |}
           (fun _ =>
              Parsed (JObj [("services",
                             JObj [("web", Demo.image); ("db", JNull)])]))
           "d" "ocker-compose.yml"
           (JObj [("services", JObj [("web", Demo.image); ("db", JNull)])])
           [("web", Demo.image); ("db", JNull)] "db" JNull Demo.st0);
    try reflexivity.
  right. now left.
Defined.

(** ** A manifest the validator has nothing to say against *)

Lemma plainService_inv (service : Val) :
  plainService service = true ->
  nullish service = false
  /\ truthy (Js.field service "container_name") = false
  /\ truthy (Js.field service "networks") = false
  /\ (truthy (Js.field service "ports") = false
      \/ exists items,
           Js.field service "ports" = JArr items
           /\ forallb barePort items = true).
Proof.
  unfold plainService. intros H.
  apply andb_true_iff in H. destruct H as [H Hports].
  apply andb_true_iff in H. destruct H as [H Hnet].
  apply andb_true_iff in H. destruct H as [Hnull Hname].
  apply negb_true_iff in Hnull, Hname, Hnet.
  repeat split; try assumption.
  apply orb_true_iff in Hports. destruct Hports as [Hp | Hp].
  - left. now apply negb_true_iff in Hp.
  - right. destruct (Js.field service "ports"); try discriminate.
    now eexists.
Qed.

Lemma validateServiceNames_adds (rt : Runtime) (services : Val) :
  adds [] (DockerComposeValidator.validateServiceNames rt services).
Proof.
  unfold DockerComposeValidator.validateServiceNames.
  apply adds_forEach_none. intros j name.
  apply adds_seq; [apply adds_when_warning |].
  intros _. apply adds_when_warning.
Qed.

(** X18.  A manifest passes: when it has at least one service, no
    top-level [networks], and every service is free of [container_name],
    of [networks] and of port mappings, [validate] on a fresh instance
    returns a report that is valid and has no error, whatever the names
    of the services are and whether or not an exit on error was asked
    for. *)
Theorem plain_manifest_is_valid :
  forall (rt : Runtime) (options : DockerComposeValidator.Options)
         (fs : string -> File) (c : ascii) (path : string)
         (compose : Val) (props : list (string * Val)) (st : VState),
    DockerComposeValidator.composePath options = Some (String c path) ->
    fs (String c path) = Parsed compose ->
    Js.field compose "services" = JObj props ->
    props <> [] ->
    truthy (Js.field compose "networks") = false ->
    (forall n s, In (n, s) props -> plainService s = true) ->
    errors st = [] ->
    exists r st',
      DockerComposeValidator.validate rt options fs st = Ok r st'
      /\ valid r = true /\ resultErrors r = [].
Proof.
  intros rt options fs c path compose props st Hpath Hfs Hservices Hne
         Hnet Hplain Hfresh.
  destruct compose as [| | | | | | cprops]; try discriminate.
  assert (H : adds []
                (DockerComposeValidator.validateNoContainerName (JObj props) ;;
                 DockerComposeValidator.validateNoExplicitNetworks
                   (JObj cprops) (JObj props) ;;
                 DockerComposeValidator.validatePortsFormat (JObj props) ;;
                 DockerComposeValidator.validateServiceNames rt
                   (JObj props))).
  { apply adds_seq; [| intros _; apply adds_seq;
                       [| intros _; apply adds_seq;
                          [| intros _; apply validateServiceNames_adds]]].
    - unfold DockerComposeValidator.validateNoContainerName,
        DockerComposeValidator.forEachService, forEach.
      cbn [Js.entries]. apply adds_forEachFrom_in. intros _ [n s] Hin.
      destruct (plainService_inv s (Hplain n s Hin))
        as (Hnull & Hname & _).
      unfold getField. rewrite Hnull, bind_ret_l, Hname. apply adds_ret.
    - unfold DockerComposeValidator.validateNoExplicitNetworks.
      rewrite Hnet. rewrite bind_ret_l. cbn [andb when].
      apply adds_seq; [| intros _; apply adds_seq;
                         [apply adds_ret | intros _; apply adds_ret]].
      unfold DockerComposeValidator.forEachService, forEach.
      cbn [Js.entries]. apply adds_forEachFrom_in. intros _ [n s] Hin.
      destruct (plainService_inv s (Hplain n s Hin))
        as (Hnull & _ & Hnetworks & _).
      unfold getField. rewrite Hnull, bind_ret_l, Hnetworks. apply adds_ret.
    - apply validatePortsFormat_bare. intros n s Hin.
      destruct (plainService_inv s (Hplain n s Hin))
        as (Hnull & _ & _ & Hports).
      now split. }
  destruct (H st) as ([] & st4 & Hrun & Herr & _).
  rewrite app_nil_r, Hfresh in Herr.
  eexists _, st4.
  unfold DockerComposeValidator.validate. rewrite Hpath, Hfs.
  unfold DockerComposeValidator.validateDockerComposeSyntax,
    DockerComposeValidator.parseCompose.
  cbn [truthy typeofObject negb orb]. cbv iota.
  rewrite !bind_ret_l. cbn [negb]. cbv iota. rewrite ?bind_ret_l.
  unfold DockerComposeValidator.validateServicesExist.
  rewrite Hservices. cbn [truthy negb orb].
  change (Js.keys (JObj props)) with (map fst props).
  rewrite length_map.
  destruct (List.length props =? 0) eqn:E.
  { apply Nat.eqb_eq, length_zero_iff_nil in E. contradiction. }
  rewrite ?bind_ret_l. cbn [negb]. cbv iota.
  assert (Hchecks :
            forall k : unit -> V ValidationResult,
              (DockerComposeValidator.validateNoContainerName (JObj props) ;;
               DockerComposeValidator.validateNoExplicitNetworks
                 (JObj cprops) (JObj props) ;;
               DockerComposeValidator.validatePortsFormat (JObj props) ;;
               x <- DockerComposeValidator.validateServiceNames rt
                      (JObj props) ;;
               k x) st
              = k tt st4).
  { intros k. unfold bind in Hrun |- *.
    destruct (DockerComposeValidator.validateNoContainerName (JObj props) st)
      as [a1 s1| |]; try discriminate.
    destruct (DockerComposeValidator.validateNoExplicitNetworks
                (JObj cprops) (JObj props) s1) as [a2 s2| |];
      try discriminate.
    destruct (DockerComposeValidator.validatePortsFormat (JObj props) s2)
      as [a3 s3| |]; try discriminate.
    destruct (DockerComposeValidator.validateServiceNames rt (JObj props) s3)
      as [[] s4| |]; try discriminate.
    now inversion Hrun. }
  rewrite Hchecks.
  unfold noErrors, getState, report, bind, ret. rewrite Herr.
  cbn [negb andb]. cbv iota.
  split; [reflexivity |]. split; [reflexivity | exact Herr].
Qed.

Lemma plain_manifest_is_valid_witness :
  exists r st',
    DockerComposeValidator.validate Demo.rt
      {| DockerComposeValidator.composePath := Some "docker-compose.yml";
         DockerComposeValidator.verbose := false;
         DockerComposeValidator.exitOnError := true |}
      (fun _ =>
         Parsed (JObj [("services",
                        JObj [("Web_App",
                               JObj [("image", JStr "x");
                                     ("ports", JArr [JStr "3000"])])])]))
      Demo.st0 = Ok r st'
    /\ valid r = true /\ resultErrors r = [].
Proof.
  apply (plain_manifest_is_valid Demo.rt
           {| DockerComposeValidator.composePath := Some "docker-compose.yml";
              DockerComposeValidator.verbose := false;
              DockerComposeValidator.exitOnError := true |}
           (fun _ =>
              Parsed (JObj [("services",
                             JObj [("Web_App",
                                    JObj [("image", JStr "x");
                                          ("ports", JArr [JStr "3000"])])])]))
           "d" "ocker-compose.yml"
           (JObj [("services",
                   JObj [("Web_App",
                          JObj [("image", JStr "x");
                                ("ports", JArr [JStr "3000"])])])])
           [("Web_App",
             JObj [("image", JStr "x"); ("ports", JArr [JStr "3000"])])]
           Demo.st0); try reflexivity.
  - discriminate.
  - intros n s [H | []]. inversion H. reflexivity.
Defined.

(** ** The exit status of the two programs *)

Lemma exitsWithOne_bind {A B} (m : V A) (k : A -> V B) (st : VState) :
  emits anyMessage m ->
  (forall a st1, exitsWithOne (k a st1)) ->
  exitsWithOne (bind m k st).
Proof.
  intros Hm Hk. unfold bind. specialize (Hm st).
  destruct (m st); [apply Hk | exact I | contradiction].
Qed.

Lemma giveUp_exitsWithOne (options : DockerComposeValidator.Options)
      (st : VState) :
  exitsWithOne (DockerComposeValidator.giveUp options st).
Proof.
  unfold DockerComposeValidator.giveUp.
  now destruct (DockerComposeValidator.exitOnError options).
Qed.

Lemma compose_validate_exitsWithOne (rt : Runtime)
      (options : DockerComposeValidator.Options) (fs : string -> File)
      (st : VState) :
  exitsWithOne (DockerComposeValidator.validate rt options fs st).
Proof.
  unfold DockerComposeValidator.validate.
  destruct (DockerComposeValidator.composePath options) as [[|c p]|];
    try (cbv [bind error]; apply giveUp_exitsWithOne).
  unfold DockerComposeValidator.validateDockerComposeSyntax.
  destruct (parseCompose_spec (String c p) (fs (String c p)) st)
    as (o & st1 & Hparse & Ho).
  rewrite (bind_ok _ _ _ _ _
             (bind_ok _ _ _ _ _ Hparse : bind _ (fun compose => ret _) st
                                       = Ok _ st1)).
  destruct o as [compose|]; [| apply giveUp_exitsWithOne].
  subst st1. cbn [negb]. cbv iota.
  rewrite (bind_ok _ _ _ _ _ Hparse).
  unfold DockerComposeValidator.validateServicesExist.
  destruct (negb (truthy (Js.field compose "services"))
            || (List.length (Js.keys (Js.field compose "services")) =? 0)).
  - cbv [failWith bind error ret negb]. apply giveUp_exitsWithOne.
  - rewrite bind_ret_l. cbn [negb]. cbv iota.
    apply exitsWithOne_bind; [apply validateNoContainerName_emits |].
    intros _ st1.
    apply exitsWithOne_bind; [apply validateNoExplicitNetworks_emits |].
    intros _ st2.
    apply exitsWithOne_bind; [apply validatePortsFormat_emits |].
    intros _ st3.
    apply exitsWithOne_bind; [apply validateServiceNames_emits |].
    intros _ st4.
    cbv [noErrors bind getState ret report exit].
    destruct (errors st4); simpl; [exact I |].
    now destruct (DockerComposeValidator.exitOnError options).
Qed.

(** X19.  The template validator run as a program always ends by an
    exit, never by an exception, and its status is 0 or 1: it is 0
    exactly when the arguments ask for help, or give a directory and the
    validation of that directory has recorded no error. *)
Theorem template_cli_exit_status :
  forall (rt : Runtime) (args : list string)
         (fs : string -> TemplateValidator.Dir) (w : World),
    exists code st,
      TemplateCli.main rt args fs w = Exit code st
      /\ (code = 0 \/ code = 1)%Z
      /\ (code = 0%Z <->
          asksHelp "--dir" "-d" args
          \/ (givesPath "--dir" "-d" args /\ errors st = [])).
Proof.
  intros rt args fs w. unfold TemplateCli.main, asksHelp, givesPath.
  destruct (parseArgs "--dir" "-d" args None false)
    as [[[[|c d]|] verbose]|].
  - eexists _, _. split; [reflexivity |]. split; [now right |].
    split; [discriminate |].
    intros [H | [(c & p & v & H) _]]; discriminate.
  - unfold TemplateValidator.validate.
    cbn [TemplateValidator.templateDir TemplateValidator.exitOnError].
    destruct (validateTemplateDir_total rt (fs (String c d))
                (freshInstance w))
      as (r & st' & Hrun & Hvalid & Herr & _).
    unfold bind. rewrite Hrun.
    destruct (valid r) eqn:Hv; cbn [negb andb]; cbv iota.
    + unfold ret, exitWith, exit. rewrite Hv.
      exists 0%Z, st'. split; [reflexivity |]. split; [now left |].
      split; [| reflexivity].
      intros _. right. split; [now exists c, d, verbose |].
      rewrite <- Herr. apply isEmpty_true. congruence.
    + unfold exit. exists 1%Z, st'. split; [reflexivity |].
      split; [now right |]. split; [discriminate |].
      intros [H | [_ H]]; [discriminate |].
      rewrite <- Herr in H. apply isEmpty_true in H. congruence.
  - eexists _, _. split; [reflexivity |]. split; [now right |].
    split; [discriminate |].
    intros [H | [(c & p & v & H) _]]; discriminate.
  - eexists _, _. split; [reflexivity |]. split; [now left |].
    split; [now left | reflexivity].
Qed.

(** X20.  The docker-compose validator run as a program ends by an exit
    with status 0 or 1, or by an exception, and the latter only once a
    file has been given; the status is 0 exactly when the arguments ask
    for help, or give a file and its validation has recorded no error. *)
Theorem compose_cli_exit_status :
  forall (rt : Runtime) (args : list string) (fs : string -> File)
         (w : World),
    match ComposeCli.main rt args fs w with
    | Exit code st =>
        (code = 0 \/ code = 1)%Z
        /\ (code = 0%Z <->
            asksHelp "--file" "-f" args
            \/ (givesPath "--file" "-f" args /\ errors st = []))
    | Throw _ _ => givesPath "--file" "-f" args
    | Ok _ _ => False
    end.
Proof.
  intros rt args fs w. unfold ComposeCli.main, asksHelp, givesPath.
  destruct (parseArgs "--file" "-f" args None false)
    as [[[[|c p]|] verbose]|].
  - split; [now right |]. split; [discriminate |].
    intros [H | [(c & p & v & H) _]]; discriminate.
  - pose proof (compose_validate_verdict rt
                  {| DockerComposeValidator.composePath := Some (String c p);
                     DockerComposeValidator.verbose := verbose;
                     DockerComposeValidator.exitOnError := true |}
                  fs (freshInstance w)) as Hverdict.
    pose proof (compose_validate_exitsWithOne rt
                  {| DockerComposeValidator.composePath := Some (String c p);
                     DockerComposeValidator.verbose := verbose;
                     DockerComposeValidator.exitOnError := true |}
                  fs (freshInstance w)) as Hone.
    unfold bind.
    destruct (DockerComposeValidator.validate rt _ fs (freshInstance w))
      as [r st' | e st' | code st'].
    + destruct Hverdict as (Hvalid & Herr & _).
      unfold exitWith, exit. destruct (valid r) eqn:Hv.
      * split; [now left |]. split; [| reflexivity].
        intros _. right. split; [now exists c, p, verbose |].
        rewrite <- Herr. now apply Hvalid.
      * split; [now right |]. split; [discriminate |].
        intros [H | [_ H]]; [discriminate |].
        rewrite <- Herr in H. apply Hvalid in H. discriminate.
    + now exists c, p, verbose.
    + cbn in Hone. subst code. destruct Hverdict as [_ Herr].
      split; [now right |]. split; [discriminate |].
      intros [H | [_ H]]; [discriminate | contradiction].
  - split; [now right |]. split; [discriminate |].
    intros [H | [(c & p & v & H) _]]; discriminate.
  - split; [now left |]. split; [now left | reflexivity].
Qed.

(** ** Mounts and networks *)

(** X21.  What one mount adds to the errors, in full.  The two fields
    are not treated alike: an empty [filePath] counts as missing, while
    an empty [content] is accepted, and a [content] that is [null] is
    reported as not being a string. *)
Theorem checkMount_errors :
  forall (index : nat) (mount : Val) (st : VState),
    nullish mount = false ->
    let at_ := "config.mounts[" ++ Num.ofNat index ++ "]" in
    exists st',
      TemplateValidator.checkMount index mount st = Ok tt st'
      /\ errors st'
         = (errors st
            ++ (if truthy (Js.field mount "filePath")
                then if isString (Js.field mount "filePath") then []
                     else [(at_ ++ ": filePath must be a string")%string]
                else [(at_ ++ ": Missing required field 'filePath'")%string])
            ++ match Js.field mount "content" with
               | JUndefined =>
                   [(at_ ++ ": Missing required field 'content'")%string]
               | JStr _ => []
               | _ => [(at_ ++ ": content must be a string")%string]
               end)%list.
Proof.
  intros index mount st Hmount at_.
  assert (H : adds
                ((if truthy (Js.field mount "filePath")
                  then if isString (Js.field mount "filePath") then []
                       else [(at_ ++ ": filePath must be a string")%string]
                  else [(at_ ++ ": Missing required field 'filePath'")%string])
                 ++ match Js.field mount "content" with
                    | JUndefined =>
                        [(at_ ++ ": Missing required field 'content'")%string]
                    | JStr _ => []
                    | _ => [(at_ ++ ": content must be a string")%string]
                    end)%list
                (TemplateValidator.checkMount index mount)).
  { unfold TemplateValidator.checkMount, getField. rewrite Hmount.
    rewrite bind_ret_l. fold at_. apply adds_bind.
    - destruct (truthy (Js.field mount "filePath")); cbn [negb];
        [| apply adds_error].
      destruct (isString (Js.field mount "filePath")); cbn [negb when];
        [apply adds_ret | apply adds_error].
    - intros _. destruct (Js.field mount "content");
        try apply adds_error. apply adds_ret. }
  destruct (H st) as ([] & st' & Hrun & Herr & _). now exists st'.
Qed.

Lemma checkMount_errors_witness :
  exists st',
    TemplateValidator.checkMount 0
      (JObj [("filePath", JStr ""); ("content", JStr "")]) Demo.st0
    = Ok tt st'
    /\ errors st' = ["config.mounts[0]: Missing required field 'filePath'"].
Proof.
  destruct (checkMount_errors 0
              (JObj [("filePath", JStr ""); ("content", JStr "")]) Demo.st0
              eq_refl) as (st' & Hrun & Herr).
  exists st'. split; [exact Hrun |]. rewrite Herr. reflexivity.
Defined.

Lemma serviceNetworks_returns (serviceName : string) (service : Val) :
  nullish service = false ->
  returns
    (serviceNetworks <- getField service "networks" ;;
     when (truthy serviceNetworks)
       match serviceNetworks with
       | JObj props =>
           let networkNames := Js.keys serviceNetworks in
           if existsb (String.eqb "dokploy-network") networkNames then
             error (DockerComposeValidator.usesDokployNetwork serviceName)
           else
             when (0 <? List.length networkNames)
                  (error (DockerComposeValidator.usesExplicitNetwork
                            serviceName))
       | JArr items =>
           if existsb (fun x => match x with
                                | JStr s => String.eqb s "dokploy-network"
                                | _ => false
                                end) items then
             error (DockerComposeValidator.usesDokployNetwork serviceName)
           else
             when (0 <? List.length items)
                  (error (DockerComposeValidator.usesExplicitNetwork
                            serviceName))
       | _ => ret tt
       end).
Proof.
  intros Hnull. unfold getField. rewrite Hnull, bind_ret_l.
  apply returns_when.
  destruct (Js.field service "networks"); try apply returns_ret.
  - destruct (existsb _ items);
      [apply returns_error | apply returns_when, returns_error].
  - cbv zeta. destruct (existsb _ _);
      [apply returns_error | apply returns_when, returns_error].
Qed.

(** X22.  A manifest with a non-empty top-level [networks] table is
    always in error, whatever its services use: once every service can
    be read, [validateNoExplicitNetworks] returns and the last error it
    adds is the one about the networks section, preceded by the one that
    names [dokploy-network] when the table has that key. *)
Theorem top_level_networks_are_reported :
  forall (compose : Val) (props : list (string * Val))
         (networks : list (string * Val)) (st : VState),
    Js.field compose "networks" = JObj networks ->
    networks <> [] ->
    (forall n s, In (n, s) props -> nullish s = false) ->
    exists st' new,
      DockerComposeValidator.validateNoExplicitNetworks compose (JObj props)
        st = Ok tt st'
      /\ errors st'
         = (errors st ++ new
            ++ (if Obj.has networks "dokploy-network"
                then ["Found 'dokploy-network' in networks section. Dokploy creates networks automatically, explicit networks are not needed."]
                else [])
            ++ ["Found explicit networks section. Dokploy creates networks automatically, explicit networks are not needed."])%list.
Proof.
  intros compose props networks st Hnet Hne Hall.
  unfold DockerComposeValidator.validateNoExplicitNetworks.
  rewrite Hnet. cbn [truthy]. cbv iota. rewrite bind_ret_l.
  assert (Hloop :
            returns
              (DockerComposeValidator.forEachService
                 (fun serviceName service =>
                    serviceNetworks <- getField service "networks" ;;
                    when (truthy serviceNetworks)
                      match serviceNetworks with
                      | JObj props =>
                          let networkNames := Js.keys serviceNetworks in
                          if existsb (String.eqb "dokploy-network")
                               networkNames then
                            error (DockerComposeValidator.usesDokployNetwork
                                     serviceName)
                          else
                            when (0 <? List.length networkNames)
                                 (error
                                    (DockerComposeValidator.usesExplicitNetwork
                                       serviceName))
                      | JArr items =>
                          if existsb (fun x => match x with
                                               | JStr s =>
                                                   String.eqb s
                                                     "dokploy-network"
                                               | _ => false
                                               end) items then
                            error (DockerComposeValidator.usesDokployNetwork
                                     serviceName)
                          else
                            when (0 <? List.length items)
                                 (error
                                    (DockerComposeValidator.usesExplicitNetwork
                                       serviceName))
                      | _ => ret tt
                      end)
                 (JObj props))).
  { unfold DockerComposeValidator.forEachService, forEach.
    cbn [Js.entries]. apply returns_forEachFrom.
    intros j [n s] Hin. apply serviceNetworks_returns.
    exact (Hall n s Hin). }
  destruct (Hloop st) as ([] & st1 & Hrun & new & Herr & _).
  rewrite (bind_ok _ _ _ _ _ Hrun).
  change (Js.keys (JObj networks)) with (map fst networks).
  rewrite length_map.
  destruct networks as [|e networks]; [contradiction |].
  cbn [List.length Nat.ltb Nat.leb andb when].
  destruct (adds_when_error (Obj.has (e :: networks) "dokploy-network")
              "Found 'dokploy-network' in networks section. Dokploy creates networks automatically, explicit networks are not needed."
              st1) as ([] & st2 & Hrun2 & Herr2 & _).
  rewrite (bind_ok _ _ _ _ _ Hrun2).
  eexists _, new. split; [reflexivity |].
  cbn [errors]. rewrite Herr2, Herr. now rewrite <- !app_assoc.
Qed.

Lemma top_level_networks_are_reported_witness :
  exists st' new,
    DockerComposeValidator.validateNoExplicitNetworks
      (JObj [("services", JObj [("web", Demo.image)]);
             ("networks", JObj [("dokploy-network", JObj [])])])
      (JObj [("web", Demo.image)]) Demo.st0 = Ok tt st'
    /\ errors st'
       = (errors Demo.st0 ++ new
          ++ ["Found 'dokploy-network' in networks section. Dokploy creates networks automatically, explicit networks are not needed."]
          ++ ["Found explicit networks section. Dokploy creates networks automatically, explicit networks are not needed."])%list.
Proof.
  apply (top_level_networks_are_reported
           (JObj [("services", JObj [("web", Demo.image)]);
                  ("networks", JObj [("dokploy-network", JObj [])])])
           [("web", Demo.image)] [("dokploy-network", JObj [])] Demo.st0);
    try reflexivity.
  - discriminate.
  - intros n s [H | []]. inversion H. reflexivity.
Defined.

(** ** Arguments without a path *)

Lemma parseArgs_no_option (long short : string) (args : list string) :
  (forall a, In a args ->
             a <> long /\ a <> short /\ a <> "--help" /\ a <> "-h") ->
  forall (path : option string) (verbose : bool),
    exists verbose',
      parseArgs long short args path verbose = Some (path, verbose').
Proof.
  induction args as [|arg rest IH]; intros Hall path verbose.
  - now exists verbose.
  - destruct (Hall arg (or_introl eq_refl)) as (Hl & Hs & Hh1 & Hh2).
    cbn [parseArgs].
    apply String.eqb_neq in Hl, Hs, Hh1, Hh2.
    rewrite Hl, Hs, Hh1, Hh2. cbn [orb].
    assert (Hrest : forall a, In a rest ->
                      a <> long /\ a <> short /\ a <> "--help"
                      /\ a <> "-h").
    { intros a Ha. apply Hall. now right. }
    destruct (String.eqb arg "--verbose" || String.eqb arg "-v");
      apply IH; exact Hrest.
Qed.

(** X23.  Without [--dir] (or [-d]) the template validator, and without
    [--file] (or [-f]) the docker-compose validator, exits with status 1
    before any validator is made, whatever else the arguments hold short
    of a request for help: no file is looked at and nothing is
    recorded. *)
Theorem cli_without_path_exits_with_1 :
  forall (rt : Runtime) (args : list string) (w : World),
    (forall a, In a args -> a <> "--help" /\ a <> "-h") ->
    ((forall a, In a args -> a <> "--dir" /\ a <> "-d") ->
     forall fs, TemplateCli.main rt args fs w = Exit 1%Z (freshInstance w))
    /\ ((forall a, In a args -> a <> "--file" /\ a <> "-f") ->
        forall fs, ComposeCli.main rt args fs w
                   = Exit 1%Z (freshInstance w)).
Proof.
  intros rt args w Hhelp. split; intros Hpath fs.
  - unfold TemplateCli.main.
    destruct (parseArgs_no_option "--dir" "-d" args) with (path := @None string)
      (verbose := false) as [v ->]; [| reflexivity].
    intros a Ha. destruct (Hhelp a Ha), (Hpath a Ha). auto.
  - unfold ComposeCli.main.
    destruct (parseArgs_no_option "--file" "-f" args) with (path := @None string)
      (verbose := false) as [v ->]; [| reflexivity].
    intros a Ha. destruct (Hhelp a Ha), (Hpath a Ha). auto.
Qed.

Lemma cli_without_path_exits_with_1_witness :
  TemplateCli.main Demo.rt ["--verbose"; "blueprints/app"]
    (fun _ => Demo.directory "web" []) Demo.w0
  = Exit 1%Z (freshInstance Demo.w0).
Proof.
  apply (cli_without_path_exits_with_1 Demo.rt
           ["--verbose"; "blueprints/app"] Demo.w0).
  - intros a [<- | [<- | []]]; split; discriminate.
  - intros a [<- | [<- | []]]; split; discriminate.
Defined.

(** ** A reference to a variable the second pass generates *)

Lemma randomUUID_ok (w : World) :
  exists u w',
    Helpers.randomUUID w = Ok u w' /\ noOpenBrace u = true /\ u <> "".
Proof.
  destruct (randomBytes_spec 16 w ltac:(lia)) as (b & w' & Hrun & _).
  unfold Helpers.randomUUID. rewrite (bind_ok _ _ _ _ _ Hrun).
  eexists _, w'. split; [reflexivity |]. split.
  - rewrite !noOpenBrace_app, !hex_noOpenBrace. reflexivity.
  - destruct (Enc.hex (Str.take 4 (Str.drop 0 b))); discriminate.
Qed.

Lemma processValue_single (rt : Runtime) (variables : Helpers.Vars)
      (schema : Helpers.Schema) (body out : string) (w w' : World) :
  expressionBody body ->
  Helpers.resolveHelper rt variables schema (Helpers.exprText body) body w
  = Ok out w' ->
  Helpers.expressions out = [] ->
  Helpers.processValue rt (Helpers.exprText body) variables schema w
  = Ok out w'.
Proof.
  intros Hbody Hcb Hout.
  rewrite processValue_unfold by discriminate.
  rewrite (bind_ok _ _ _ _ _ (replaceAll_single _ body out w w' Hbody Hcb)).
  now apply replaceFrom_clean.
Qed.

(** A reference to a variable that holds an expression gives that
    expression, looked up as a name and never run as a helper. *)
Lemma processValue_indirect (rt : Runtime) (variables : Helpers.Vars)
      (schema : Helpers.Schema) (name inner : string) (w : World) :
  expressionBody name -> recognizedTag name = false ->
  expressionBody inner ->
  Obj.get variables name = Some (Helpers.exprText inner) ->
  Obj.get variables inner = None ->
  Obj.inherited inner = false ->
  Helpers.processValue rt (Helpers.exprText name) variables schema w
  = Ok (Helpers.exprText inner) w.
Proof.
  intros Hname Htag Hinner Hget Hnone Hinh.
  rewrite processValue_unfold by discriminate.
  assert (Hfirst :
            Helpers.resolveHelper rt variables schema
              (Helpers.exprText name) name w
            = Ok (Helpers.exprText inner) w).
  { unfold Helpers.resolveHelper.
    rewrite unknown_tag_default by exact Htag.
    now rewrite (lookupOr_own _ _ _ _ Hget). }
  rewrite (bind_ok _ _ _ _ _
             (replaceAll_single _ name _ w w Hname Hfirst)).
  apply replaceAll_single; [exact Hinner |].
  unfold Helpers.resolveVariable, ret.
  now rewrite (lookupOr_missing _ _ _ Hnone Hinh).
Qed.

Lemma set_new {T} (o : list (string * T)) (k : string) (v : T) :
  k <> "__proto__" ->
  Obj.has o k = false -> Obj.arrayIndex k = None ->
  Obj.set o k v = (o ++ [(k, v)])%list.
Proof.
  intros Hk Hhas Hindex. rewrite (ObjFacts.set_ordinary _ _ _ Hk).
  now rewrite Hhas, Hindex.
Qed.

Lemma set_head {T} (rest : list (string * T)) (k : string) (v0 v : T) :
  k <> "__proto__" ->
  Obj.set ((k, v0) :: rest) k v = (k, v) :: rest.
Proof.
  intros Hk. rewrite (ObjFacts.set_ordinary _ _ _ Hk).
  cbn [Obj.has Obj.replace]. now rewrite !String.eqb_refl.
Qed.

Lemma set_second {T} (k1 k : string) (v1 v0 v : T) :
  k <> "__proto__" ->
  k1 <> k -> Obj.set [(k1, v1); (k, v0)] k v = [(k1, v1); (k, v)].
Proof.
  intros Hk H. apply String.eqb_neq in H.
  rewrite (ObjFacts.set_ordinary _ _ _ Hk). cbn [Obj.has Obj.replace].
  now rewrite H, !String.eqb_refl.
Qed.

Lemma pass1Entry_untouched (schema : Helpers.Schema) (acc : Helpers.Vars)
      (k v : string) (w : World) :
  untouchedByPass1 v = true ->
  Helpers.pass1Entry schema acc (k, JStr v) w = Ok (Obj.set acc k v) w.
Proof.
  intros H. rewrite pass1Entry_string, (pass1Value_untouched schema v H).
  reflexivity.
Qed.

Section DependentReference.
Context (rt : Runtime) (schema : Helpers.Schema) (a b : string).
Hypothesis (Hab : a <> b).
Hypothesis (Ha : recognizedTag a = false) (Hb : recognizedTag b = false).
Hypothesis (Hbody : expressionBody a).
Hypothesis (Hia : Obj.arrayIndex a = None) (Hib : Obj.arrayIndex b = None).
Hypothesis (Hap : a <> "__proto__") (Hbp : b <> "__proto__").

Lemma reference_untouched : untouchedByPass1 (Helpers.exprText a) = true.
Proof.
  pose proof (untouched_reference "" a "" eq_refl Ha) as H.
  cbn [append] in H. now rewrite StrFacts.append_nil_r in H.
Qed.

Lemma not_uuid (k : string) : recognizedTag k = false -> k <> "uuid".
Proof. intros H ->. vm_compute in H. discriminate. Qed.

Lemma pass1_reference_first (w : World) :
  Helpers.pass1 [(b, JStr (Helpers.exprText a)); (a, JStr "${uuid}")]
    schema w
  = Ok [(b, Helpers.exprText a); (a, "${uuid}")] w.
Proof.
  unfold Helpers.pass1. cbn [Helpers.pass1Loop].
  rewrite (bind_ok _ _ _ _ _
             (pass1Entry_untouched schema [] b _ w reference_untouched)).
  rewrite (set_new [] b _ Hbp eq_refl Hib).
  rewrite (bind_ok _ _ _ _ _
             (pass1Entry_untouched schema _ a "${uuid}" w eq_refl)).
  rewrite set_new; [reflexivity | exact Hap | | exact Hia].
  rewrite app_nil_l. cbn [Obj.has]. assert (Hba : b <> a) by congruence.
  apply String.eqb_neq in Hba. now rewrite Hba.
Qed.

Lemma pass1_reference_last (w : World) :
  Helpers.pass1 [(a, JStr "${uuid}"); (b, JStr (Helpers.exprText a))]
    schema w
  = Ok [(a, "${uuid}"); (b, Helpers.exprText a)] w.
Proof.
  unfold Helpers.pass1. cbn [Helpers.pass1Loop].
  rewrite (bind_ok _ _ _ _ _
             (pass1Entry_untouched schema [] a "${uuid}" w eq_refl)).
  rewrite (set_new [] a _ Hap eq_refl Hia).
  rewrite (bind_ok _ _ _ _ _
             (pass1Entry_untouched schema _ b _ w reference_untouched)).
  rewrite set_new; [reflexivity | exact Hbp | | exact Hib].
  rewrite app_nil_l. cbn [Obj.has]. assert (Hab' : a <> b) by exact Hab.
  apply String.eqb_neq in Hab'. now rewrite Hab'.
Qed.

End DependentReference.

(** X24.  The order of two declarations matters when one refers to a
    variable that only the second pass generates.  With [a = ${uuid}] and
    [b = ${a}], for names other than [__proto__]: if [b] is declared
    first it ends as the literal text [${uuid}], unresolved, while [a]
    gets an identifier; if [a] is declared first, both end with the same
    identifier. *)
Theorem dependent_reference_depends_on_order :
  forall (rt : Runtime) (schema : Helpers.Schema) (a b : string) (w : World),
    a <> b ->
    a <> "__proto__" ->
    b <> "__proto__" ->
    recognizedTag a = false ->
    recognizedTag b = false ->
    expressionBody a ->
    Obj.arrayIndex a = None ->
    Obj.arrayIndex b = None ->
    exists u w',
      Helpers.randomUUID w = Ok u w'
      /\ Helpers.processVariables rt
           [(b, JStr (Helpers.exprText a)); (a, JStr "${uuid}")] schema w
         = Ok [(b, "${uuid}"); (a, u)] w'
      /\ Helpers.processVariables rt
           [(a, JStr "${uuid}"); (b, JStr (Helpers.exprText a))] schema w
         = Ok [(a, u); (b, u)] w'.
Proof.
  intros rt schema a b w Hab Hap Hbp Ha Hb Hbody Hia Hib.
  assert (Hba : String.eqb b a = false)
    by (apply String.eqb_neq; congruence).
  assert (Hab' : String.eqb a b = false) by now apply String.eqb_neq.
  assert (Hbu : String.eqb b "uuid" = false)
    by (apply String.eqb_neq, not_uuid, Hb).
  assert (Hau : String.eqb a "uuid" = false)
    by (apply String.eqb_neq, not_uuid, Ha).
  destruct (randomUUID_ok w) as (u & w' & Hrun & Hu & Hne).
  assert (Huuid : forall variables,
             Helpers.processValue rt "${uuid}" variables schema w
             = Ok u w').
  { intros variables.
    apply (processValue_single rt variables schema "uuid" u w w');
      [reflexivity | exact Hrun | now apply noOpenBrace_expressions]. }
  exists u, w'. split; [exact Hrun |]. split.
  - unfold Helpers.processVariables.
    rewrite (bind_ok _ _ _ _ _
               (pass1_reference_first schema a b Hab Ha Hia Hib Hap Hbp w)).
    unfold Helpers.pass2. cbn [Helpers.pass2Loop].
    rewrite (bind_ok _ _ _ _ _
               (processValue_indirect rt
                  [(b, Helpers.exprText a); (a, "${uuid}")]
                  schema a "uuid" w Hbody Ha
                  eq_refl
                  ltac:(unfold Obj.get; cbn [Js.lookup];
                        now rewrite Hba, String.eqb_refl)
                  ltac:(unfold Obj.get; cbn [Js.lookup];
                        now rewrite Hbu, Hau)
                  eq_refl)).
    rewrite set_head by exact Hbp.
    rewrite (bind_ok _ _ _ _ _ (Huuid _)).
    rewrite set_second by congruence. reflexivity.
  - unfold Helpers.processVariables.
    rewrite (bind_ok _ _ _ _ _
               (pass1_reference_last schema a b Hab Ha Hia Hib Hap Hbp w)).
    unfold Helpers.pass2. cbn [Helpers.pass2Loop].
    rewrite (bind_ok _ _ _ _ _ (Huuid _)).
    rewrite set_head by exact Hap.
    pose proof (processValue_reference rt
                  [(a, u); (b, Helpers.exprText a)] schema "" a "" u w'
                  eq_refl eq_refl Hbody Ha
                  ltac:(unfold Obj.get; cbn [Js.lookup];
                        now rewrite String.eqb_refl)
                  Hne Hu) as Href.
    cbn [append] in Href. rewrite !StrFacts.append_nil_r in Href.
    rewrite (bind_ok _ _ _ _ _ Href).
    rewrite set_second by assumption. reflexivity.
Qed.

Lemma dependent_reference_depends_on_order_witness :
  exists u w',
    Helpers.randomUUID Demo.w0 = Ok u w'
    /\ Helpers.processVariables Demo.rt
         [("link", JStr "${id}"); ("id", JStr "${uuid}")] Demo.schema Demo.w0
       = Ok [("link", "${uuid}"); ("id", u)] w'
    /\ Helpers.processVariables Demo.rt
         [("id", JStr "${uuid}"); ("link", JStr "${id}")] Demo.schema Demo.w0
       = Ok [("id", u); ("link", u)] w'.
Proof.
  apply (dependent_reference_depends_on_order Demo.rt Demo.schema "id" "link"
           Demo.w0); try reflexivity; discriminate.
Defined.
